(** * RepoChief TODO demo: the runner, the package index and the end-to-end check

    A shallow embedding of [run-demo.js] (class [TodoDemoRunner] and the
    script around it), [src/index.js], [test-e2e.js] and
    [scripts/record-demo.js], with the properties of the scenario task
    planner, of the process exit status, of the end-to-end verdict and of
    the recorder.

    Conventions of the embedding.
    - An [async] method is a computation in the monad [M]: it threads the
      state of the process and either returns or throws.  Every [await] of
      the source is a bind; the order of the binds is the order of the
      source's awaits.
    - The orchestrator, the cloud API, the prompt and the file system are
      external: they are the operations of the class [External], over an
      abstract world.  Every call made to them is recorded in [calls].
    - Console output is decoration and is left out, except the status line
      of the final report and the verdict of the end-to-end check. *)

From Stdlib Require Import ZArith NArith Bool List Ascii String Lia Relations Sorted.
From stdpp Require Import base option strings gmap pretty.
Import ListNotations.

Local Open Scope string_scope.
Local Open Scope list_scope.
Local Open Scope Z_scope.

(* ===================================================================== *)
(** * JavaScript values, as far as the program uses them                  *)
(* ===================================================================== *)

Module Js.

(** A number.  The program only produces and tests integral numbers (task
    counts, token budgets, the result of [parseInt]), [NaN], and the
    infinities [parseInt] gives for a text of digits beyond the doubles. *)
Inductive number :=
| Num (z : Z)
| NaN
| Infinity (negative : bool).

(** [ToBoolean]: which values take the right operand of [||]. *)
Class Truthy (A : Type) := truthy : A -> bool.

#[global] Instance truthy_string : Truthy string :=
  fun s => match s with EmptyString => false | String _ _ => true end.
#[global] Instance truthy_bool : Truthy bool := fun b => b.
#[global] Instance truthy_number : Truthy number :=
  fun n => match n with Num z => negb (z =? 0) | NaN => false | Infinity _ => true end.

(** [x || d], where [x] is a property that may be missing ([None] is
    [undefined]). *)
Definition or_else {A} `{Truthy A} (x : option A) (d : A) : A :=
  match x with
  | Some a => if truthy a then a else d
  | None => d
  end.

(** [x !== undefined ? x : d]. *)
Definition if_defined {A} (x : option A) (d : A) : A :=
  match x with Some a => a | None => d end.

(** An exception: the [name] of the error object and its [message]. *)
Record Error := mkError { name : string; message : string }.

(** The error of reading property [prop] of [undefined]. *)
Definition TypeError_undefined (prop : string) : Error :=
  mkError "TypeError"
          ("Cannot read properties of undefined (reading '" +:+ prop +:+ "')").

(** The error of calling [callee], which is not a function, and of [new]
    on [callee], which is not a constructor. *)
Definition TypeError_not_a_function (callee : string) : Error :=
  mkError "TypeError" (callee +:+ " is not a function").


(** ** Property lookup on an object literal

    [obj[key]] finds an own property, or else a member of
    [Object.prototype], or else is [undefined]. *)
Definition object_prototype_members : list string :=
  [ "constructor"; "__defineGetter__"; "__defineSetter__"; "hasOwnProperty";
    "__lookupGetter__"; "__lookupSetter__"; "isPrototypeOf";
    "propertyIsEnumerable"; "toString"; "valueOf"; "__proto__";
    "toLocaleString" ].

Inductive property (A : Type) :=
| Own (a : A)
| Inherited (member : string)
| Undefined.
Arguments Own {A} a.
Arguments Inherited {A} member.
Arguments Undefined {A}.

Fixpoint own_property {A} (obj : list (string * A)) (key : string) : option A :=
  match obj with
  | [] => None
  | (k, v) :: rest => if String.eqb k key then Some v else own_property rest key
  end.

Definition inherited (key : string) : bool :=
  existsb (String.eqb key) object_prototype_members.

Definition get {A} (obj : list (string * A)) (key : string) : property A :=
  match own_property obj key with
  | Some v => Own v
  | None => if inherited key then Inherited key else Undefined
  end.

(** An array index: the canonical text of an integer from 0 to 2^32 - 2,
    that is [0], or digits that do not start with 0. *)
Fixpoint decimal (s : string) (acc : N) : option N :=
  match s with
  | EmptyString => Some acc
  | String c rest =>
      let n := N.of_nat (nat_of_ascii c) in
      if ((48 <=? n) && (n <=? 57))%N then decimal rest (acc * 10 + (n - 48))%N else None
  end.

Definition array_index (key : string) : option N :=
  match key with
  | EmptyString => None
  | String "0" EmptyString => Some 0%N
  | String "0" _ => None
  | _ =>
      match decimal key 0 with
      | Some n => if (n <? 2 ^ 32 - 1)%N then Some n else None
      | None => None
      end
  end.

Definition is_index (key : string) : bool :=
  match array_index key with Some _ => true | None => false end.

(** The array indices among the keys, in ascending order. *)
Fixpoint insert_index (k : N * string) (l : list (N * string)) : list (N * string) :=
  match l with
  | [] => [k]
  | x :: rest => if (k.1 <? x.1)%N then k :: l else x :: insert_index k rest
  end.

Definition indices (names : list string) : list string :=
  map snd
    (fold_right insert_index []
       (flat_map (fun key => match array_index key with
                             | Some n => [(n, key)]
                             | None => []
                             end) names)).

(** [Object.keys]: the own properties that are array indices, in ascending
    order, then the others in the order of their creation. *)
Definition keys {A} (obj : list (string * A)) : list string :=
  let names := map fst obj in
  indices names ++ List.filter (fun key => negb (is_index key)) names.

(** [obj[key] = v]: an own property keeps its place, a new one comes
    last. *)
Fixpoint assign {A} (obj : list (string * A)) (key : string) (v : A) : list (string * A) :=
  match obj with
  | [] => [(key, v)]
  | (k, x) :: rest =>
      if String.eqb k key then (k, v) :: rest else (k, x) :: assign rest key v
  end.

(** [{ ...target, ...source }]: the own properties of [source] are written
    to a copy of [target], in the order of [Object.keys]. *)
Definition spread {A} (target source : list (string * A)) : list (string * A) :=
  fold_left (fun acc key => match own_property source key with
                            | Some v => assign acc key v
                            | None => acc
                            end) (keys source) target.

(** ** [parseInt(s)] with no radix

    Leading white space is skipped, then an optional sign, then an optional
    [0x] prefix; the longest run of digits is read, and none gives [NaN].
    The value is the double nearest to the integer read.  A string is the
    UTF-8 text of the JavaScript string, so that a white space character
    is one, two or three bytes. *)
Definition is_space (c : ascii) : bool :=
  let n := nat_of_ascii c in
  ((9 <=? n)%nat && (n <=? 13)%nat) || (n =? 32)%nat.

(** U+00A0. *)
Definition is_space2 (c1 c2 : ascii) : bool :=
  (nat_of_ascii c1 =? 194)%nat && (nat_of_ascii c2 =? 160)%nat.

(** U+1680, U+2000 to U+200A, U+2028, U+2029, U+202F, U+205F, U+3000 and
    U+FEFF. *)
Definition is_space3 (c1 c2 c3 : ascii) : bool :=
  let '(a, b, c) := (nat_of_ascii c1, nat_of_ascii c2, nat_of_ascii c3) in
  ((a =? 225) && (b =? 154) && (c =? 128))%nat
  || ((a =? 226) && (b =? 128)
      && (((128 <=? c) && (c <=? 138)) || (c =? 168) || (c =? 169) || (c =? 175)))%nat
  || ((a =? 226) && (b =? 129) && (c =? 159))%nat
  || ((a =? 227) && (b =? 128) && (c =? 128))%nat
  || ((a =? 239) && (b =? 187) && (c =? 191))%nat.

Fixpoint skip_spaces (s : string) : string :=
  match s with
  | String c1 rest1 =>
      if is_space c1 then skip_spaces rest1
      else
        match rest1 with
        | String c2 rest2 =>
            if is_space2 c1 c2 then skip_spaces rest2
            else
              match rest2 with
              | String c3 rest3 => if is_space3 c1 c2 c3 then skip_spaces rest3 else s
              | EmptyString => s
              end
        | EmptyString => s
        end
  | EmptyString => s
  end.

(** The double nearest to an integer, ties to the even significand of 53
    bits; from 2^1024 - 2^970 on it is an infinity. *)
Definition to_double (z : Z) : number :=
  let n := Z.abs z in
  if n <? 2 ^ 53 then Num z
  else
    let e := Z.log2 n - 52 in
    let q := Z.shiftr n e in
    let r := n - Z.shiftl q e in
    let half := Z.shiftl 1 (e - 1) in
    let q' := if (half <? r) || ((r =? half) && Z.odd q) then q + 1 else q in
    let v := Z.shiftl q' e in
    if 2 ^ 1024 <=? v then Infinity (z <? 0) else Num (Z.sgn z * v).

Definition digit_value (radix : Z) (c : ascii) : option Z :=
  let n := Z.of_nat (nat_of_ascii c) in
  let v := if (48 <=? n) && (n <=? 57) then Some (n - 48)
           else if (97 <=? n) && (n <=? 122) then Some (n - 87)
           else if (65 <=? n) && (n <=? 90) then Some (n - 55)
           else None in
  match v with
  | Some d => if d <? radix then Some d else None
  | None => None
  end.

(** The digits read so far are [acc], when [seen]. *)
Fixpoint read_digits (radix : Z) (s : string) (acc : Z) (seen : bool) : option Z :=
  match s with
  | String c rest =>
      match digit_value radix c with
      | Some d => read_digits radix rest (acc * radix + d) true
      | None => if seen then Some acc else None
      end
  | EmptyString => if seen then Some acc else None
  end.

Definition strip_sign (s : string) : Z * string :=
  match s with
  | String "-" rest => (-1, rest)
  | String "+" rest => (1, rest)
  | _ => (1, s)
  end.

Definition strip_hex_prefix (s : string) : Z * string :=
  match s with
  | String "0" (String "x" rest) => (16, rest)
  | String "0" (String "X" rest) => (16, rest)
  | _ => (10, s)
  end.

Definition parseInt (x : option string) : number :=
  match x with
  | None => NaN (* "undefined" has no digit *)
  | Some s =>
      let '(sign, s1) := strip_sign (skip_spaces s) in
      let '(radix, s2) := strip_hex_prefix s1 in
      match read_digits radix s2 0 false with
      | Some v => to_double (sign * v)
      | None => NaN
      end
  end.

(** [a === b] on strings that may be [undefined]. *)
Definition strict_eq_string (x : option string) (s : string) : bool :=
  match x with Some a => String.eqb a s | None => false end.

(** ** Computations that may throw, and the end of the process

    [process.exit(code)] and an exception thrown from a timer callback end
    the process at once: no [catch] and no [finally] sees them. *)

Inductive termination :=
| Exited (code : Z)        (* process.exit(code) *)
| Crashed (e : Error).     (* uncaught exception *)

Inductive result (A : Type) :=
| Ok (a : A)
| Throw (e : Error)
| Halt (t : termination).
Arguments Ok {A} a.
Arguments Throw {A} e.
Arguments Halt {A} t.

(** A computation over a state [S]: the state survives a throw. *)
Definition M (S A : Type) : Type := S -> result A * S.

Definition ret {S A} (a : A) : M S A := fun s => (Ok a, s).

Definition bind {S A B} (m : M S A) (k : A -> M S B) : M S B :=
  fun s => match m s with
           | (Ok a, s') => k a s'
           | (Throw e, s') => (Throw e, s')
           | (Halt t, s') => (Halt t, s')
           end.

Definition throw {S A} (e : Error) : M S A := fun s => (Throw e, s).
Definition halt {S A} (t : termination) : M S A := fun s => (Halt t, s).

(** [try { body } catch (error) { handler }]. *)
Definition try_catch {S A} (body : M S A) (handler : Error -> M S A) : M S A :=
  fun s => match body s with
           | (Throw e, s') => handler e s'
           | other => other
           end.

(** [try { body } finally { final }], where [final] does not return. *)
Definition try_finally {S A} (body : M S A) (final : M S unit) : M S A :=
  fun s => match body s with
           | (Halt t, s') => (Halt t, s')
           | (r, s') =>
               match final s' with
               | (Ok _, s'') => (r, s'')
               | (Throw e, s'') => (Throw e, s'')
               | (Halt t, s'') => (Halt t, s'')
               end
           end.

Definition gets {S A} (f : S -> A) : M S A := fun s => (Ok (f s), s).
Definition modify {S} (f : S -> S) : M S unit := fun s => (Ok tt, f s).

(** [if (c) { m }]. *)
Definition when {S} (c : bool) (m : M S unit) : M S unit :=
  if c then m else ret tt.

(** A promise of an external component, once settled. *)
Inductive settled (A : Type) :=
| Fulfilled (a : A)
| Rejected (e : Error).
Arguments Fulfilled {A} a.
Arguments Rejected {A} e.

(** ** Timers *)

Inductive timer_action :=
| TimerExit (code : Z)       (* () => process.exit(code) *)
| TimerThrow (e : Error).    (* () => { throw e } *)

Record Timer := mkTimer { handle : nat; delay : N; action : timer_action }.

(** The pending timer that fires first: the least delay, and the one set
    first among equal delays. *)
Fixpoint first_timer (ts : list Timer) : option Timer :=
  match ts with
  | [] => None
  | t :: rest =>
      match first_timer rest with
      | Some u => if (delay u <? delay t)%N then Some u else Some t
      | None => Some t
      end
  end.

Definition fire (t : Timer) : termination :=
  match action t with
  | TimerExit code => Exited code
  | TimerThrow e => Crashed e
  end.

End Js.

Import Js.

(** The monad of stdpp: [x ← m; k] and [m ;; k]. *)
#[global] Instance M_ret {S} : MRet (M S) := fun A a => ret a.
#[global] Instance M_bind {S} : MBind (M S) := fun A B k m => bind m k.

(* ===================================================================== *)
(** * The external components (@liftping/repochief-core, inquirer, fs)    *)
(* ===================================================================== *)

Module Core.

(** [AgentTemplates]: presets of the core package, opaque here. *)
Inductive AgentTemplate :=
| REQUIREMENTS_ANALYST
| SENIOR_DEVELOPER
| QA_ENGINEER
| CODE_REVIEWER.

(** An agent description written inline. *)
Record Constraints := mkConstraints {
  maxContextTokens : Z;
  temperature_percent : Z;          (* 0.7 is 70 *)
  preferredFrameworks : list string
}.

Record InlineTemplate := mkInline {
  role : string;
  model : string;
  capabilities : list string;
  constraints : Constraints
}.

Inductive Template :=
| Preset (t : AgentTemplate)
| Inline (t : InlineTemplate).

(** The argument of [orchestrator.createAgent]: [{ name, ...template,
    maxConcurrentTasks }]. *)
Record AgentConfig := mkAgentConfig {
  cfg_name : string;
  cfg_template : Template;
  maxConcurrentTasks : Z
}.

Record Agent := mkAgent {
  agent_id : string;
  agent_name : string;
  agent_role : string
}.

Inductive TaskType := comprehension | generation | validation.

(** The argument of [orchestrator.queueTask].  A property that the object
    literal does not write is [None]. *)
Record TaskSpec := mkTaskSpec {
  task_id : string;
  task_type : TaskType;
  objective : string;
  description : option string;
  dependencies : option (list string);
  context : option (list string);
  successCriteria : option (list string);
  specificChecks : option (list string);
  qualityGates : option (list string);
  maxTokens : Z;
  agentId : string
}.

Record Task := mkTask {
  queued_id : string;
  queued_objective : string
}.

Record OrchestratorConfig := mkOrchestratorConfig {
  sessionName : string;
  totalBudget : number;
  orch_mockMode : bool
}.

Record ApiConfig := mkApiConfig {
  port : Z;
  apiKey : string
}.

(** The object returned by [createCloudAPI]; [has_stop] is whether it has a
    [stop] method. *)
Record CloudAPI := mkCloudAPI { has_stop : bool }.

(** [orchestrator.getFinalReport()], the counts. *)
Record Report := mkReport {
  tasksCompleted : Z;
  totalTasks : Z;
  tasksFailed : Z
}.

(** The events the scripts listen to. *)
Inductive Event :=
| taskStarted (task : Task) (agent : Agent)
| taskProgress (task : Task)
| taskCompleted (task : Task)
| taskFailed (task : Task) (error : Error)
| qualityGateResult (gate : string) (status : string) (task : Task)
| costUpdate.

(** What happens between [startExecution] and the moment the promise of
    [waitForCompletion] settles: the events emitted, the time it takes in
    milliseconds, and how the promise settles. *)
Record Execution := mkExecution {
  events : list Event;
  elapsed : N;
  completion : settled unit
}.

(** The answers of the interactive prompt; [ans_budget] is not asked in
    mock mode. *)
Record Answers := mkAnswers {
  ans_scenario : string;
  ans_mockMode : bool;
  ans_budget : option number
}.

(** A call made to an external component. *)
Inductive Call :=
| Prompt (choices : list string)
| CreateOrchestrator (cfg : OrchestratorConfig)
| Initialize
| CreateCloudAPI (cfg : ApiConfig)
| ApiStart
| CreateAgent (cfg : AgentConfig)
| QueueTask (spec : TaskSpec)
| On (event : string)
| StartExecution
| WaitForCompletion
| GetFinalReport
| Shutdown
| ApiStop
| FsAccess (path : string).

(** The task specifications handed to [orchestrator.queueTask]. *)
Definition queued (cs : list Call) : list TaskSpec :=
  omap (fun c => match c with QueueTask spec => Some spec | _ => None end) cs.

(** The agent descriptions handed to [orchestrator.createAgent]. *)
Definition created (cs : list Call) : list AgentConfig :=
  omap (fun c => match c with CreateAgent cfg => Some cfg | _ => None end) cs.

(** The behaviour of the external components, over a world [W] of their
    own. *)
Class External (W : Type) := {
  ext_prompt : list string -> W -> settled Answers * W;
  ext_createOrchestrator : OrchestratorConfig -> W -> settled unit * W;
  ext_initialize : W -> settled unit * W;
  ext_createCloudAPI : ApiConfig -> W -> settled CloudAPI * W;
  ext_apiStart : W -> settled unit * W;
  ext_createAgent : AgentConfig -> W -> settled Agent * W;
  ext_queueTask : TaskSpec -> W -> settled Task * W;
  ext_on : string -> W -> settled unit * W;
  ext_startExecution : W -> settled unit * W;
  ext_waitForCompletion : W -> Execution * W;
  ext_getFinalReport : W -> settled Report * W;
  ext_shutdown : W -> settled unit * W;
  ext_apiStop : W -> settled unit * W;
  ext_fsAccess : string -> W -> bool * W
}.

(** ** The process: its arguments, the world outside, what it called and
    the timers it has pending *)

Inductive Line :=
| DemoFailed (message : string)
| FinalStatus (success : bool)
| TestPassed
| TestFailed
| TestError (message : string).

Record Proc (W : Type) := mkProc {
  argv : list string;
  env : list (string * string);
  world : W;
  calls : list Call;
  timers : list Timer;
  next_handle : nat;
  console : list Line
}.
Arguments mkProc {W}.
Arguments argv {W}.
Arguments env {W}.
Arguments world {W}.
Arguments calls {W}.
Arguments timers {W}.
Arguments next_handle {W}.
Arguments console {W}.

Section Process.
Context {W : Type} `{External W}.

(** One external call: it is recorded, the world moves, and a rejected
    promise (or a thrown exception) is a throw of the caller. *)
Definition perform {A} (c : Call) (op : W -> settled A * W) : M (Proc W) A :=
  fun p =>
    let '(r, w) := op (world p) in
    let p' := mkProc (argv p) (env p) w (calls p ++ [c]) (timers p)
                     (next_handle p) (console p) in
    match r with
    | Fulfilled a => (Ok a, p')
    | Rejected e => (Throw e, p')
    end.

(** [setTimeout(callback, ms)]. *)
Definition setTimeout (a : timer_action) (ms : N) : M (Proc W) nat :=
  fun p =>
    let h := next_handle p in
    (Ok h, mkProc (argv p) (env p) (world p) (calls p)
                  (timers p ++ [mkTimer h ms a]) (Datatypes.S h) (console p)).

(** [clearTimeout(handle)]. *)
Definition clearTimeout (h : nat) : M (Proc W) unit :=
  fun p =>
    (Ok tt, mkProc (argv p) (env p) (world p) (calls p)
                   (List.filter (fun t => negb (Nat.eqb (handle t) h)) (timers p))
                   (next_handle p) (console p)).

(** [process.exit(code)]. *)
Definition process_exit {A} (code : Z) : M (Proc W) A := halt (Exited code).

Definition log (l : Line) : M (Proc W) unit :=
  fun p =>
    (Ok tt, mkProc (argv p) (env p) (world p) (calls p) (timers p)
                   (next_handle p) (console p ++ [l])).

(** [process.argv.includes(flag)]. *)
Definition argv_includes (p : Proc W) (flag : string) : bool :=
  existsb (String.eqb flag) (argv p).

(** [process.env.NAME]. *)
Definition getenv (p : Proc W) (name : string) : option string :=
  own_property (env p) name.

(** [await orchestrator.waitForCompletion()].  A pending timer that is due
    strictly before the promise settles fires first, and what it does ends
    the process; the other awaits of the scripts are short against the
    timers and are not timed. *)
Definition waitForCompletion : M (Proc W) (list Event) :=
  fun p =>
    let '(x, w) := ext_waitForCompletion (world p) in
    let p' := mkProc (argv p) (env p) w (calls p ++ [WaitForCompletion])
                     (timers p) (next_handle p) (console p) in
    match first_timer (List.filter (fun t => (delay t <? elapsed x)%N) (timers p)) with
    | Some t => (Halt (fire t), p')
    | None =>
        match completion x with
        | Fulfilled _ => (Ok (events x), p')
        | Rejected e => (Throw e, p')
        end
    end.

(** How the process ends once the main promise has settled as [r]: an
    exit or a crash inside it ends the process; otherwise the pending
    timer that is due first runs; with no timer left, nothing runs any
    more. *)
Inductive Outcome :=
| Terminated (t : termination)
| Logged (e : Error)     (* rejection handed to console.error *)
| Finished.

Definition outcome_of {A} (r : result A) (p : Proc W) : Outcome :=
  match r with
  | Halt t => Terminated t
  | Throw e =>
      match first_timer (timers p) with
      | Some t => Terminated (fire t)
      | None => Logged e
      end
  | Ok _ =>
      match first_timer (timers p) with
      | Some t => Terminated (fire t)
      | None => Finished
      end
  end.

(** A computation is quiet when it leaves the pending timers as they are
    and, with no timer pending, does not end the process; [pr] reads the
    process in the state. *)
Definition quiet {S A} (pr : S -> Proc W) (m : M S A) : Prop :=
  forall s r s', m s = (r, s') ->
    timers (pr s') = timers (pr s)
    /\ (timers (pr s) = [] -> forall t, r <> Halt t).

End Process.

(** The exit status of the process: the code given to [process.exit], 1 for
    an uncaught exception, 0 when it runs out of work. *)
Definition exit_status (o : Outcome) : Z :=
  match o with
  | Terminated (Exited code) => code
  | Terminated (Crashed _) => 1
  | Logged _ => 0
  | Finished => 0
  end.

End Core.

Import Core.

(* ===================================================================== *)
(** * run-demo.js                                                         *)
(* ===================================================================== *)

Module RunDemo.

(** ** Demo configuration *)

Record Scenario := mkScenario {
  scenario_name : string;
  scenario_agents : Z;
  scenario_description : string
}.

Definition SCENARIOS : list (string * Scenario) :=
  [ ("basic", mkScenario "Basic TODO API" 3 "REST API with tests");
    ("fullstack", mkScenario "Full Stack TODO App" 5
                             "API + Frontend + Quality validation");
    ("enterprise", mkScenario "Enterprise TODO App" 5
                              "Full app with auth, DB, and Docker") ].

(** ** The runner object *)

(** The argument of the constructor: any property may be missing. *)
Record Options := mkOptions {
  opt_scenario : option string;
  opt_mockMode : option bool;
  opt_budget : option number;
  opt_verbose : option bool
}.

(** [{}]. *)
Definition no_options : Options := mkOptions None None None None.

(** [this.agents]: an object with a property per agent created. *)
Record Agents := mkAgents {
  analyst : option Agent;
  developer : option Agent;
  tester : option Agent;
  reviewer : option Agent;
  frontend : option Agent
}.

Definition no_agents : Agents := mkAgents None None None None None.

Record Runner := mkRunner {
  scenario : string;
  mockMode : bool;
  budget : number;
  verbose : bool;
  orchestrator : option unit;   (* null, or the orchestrator created *)
  api : option CloudAPI;        (* null, or the cloud API created *)
  agents : Agents
}.

(** [constructor(options = {})]; [None] is a call without argument. *)
Definition constructor (options : option Options) : Runner :=
  let options := if_defined options no_options in
  {| scenario := or_else (opt_scenario options) "basic";
     mockMode := if_defined (opt_mockMode options) true;
     budget := or_else (opt_budget options) (Num 10);
     verbose := or_else (opt_verbose options) false;
     orchestrator := None;
     api := None;
     agents := no_agents |}.

(** ** The text of the tasks *)

Definition newline : string := String (ascii_of_nat 10) EmptyString.

(** The line break of the template literals: a new line and the twelve
    spaces of the source's indentation. *)
Definition br : string := newline +:+ "            ".

(** [getRequirementsDescription()]. *)
Definition getRequirementsDescription (this : Runner) : string :=
  let base :=
    "Understand the requirements for a TODO API with the following features:"
    +:+ br +:+ "- CRUD operations (Create, Read, Update, Delete)"
    +:+ br +:+ "- Task model with: id, title, description, completed, createdAt, updatedAt"
    +:+ br +:+ "- RESTful endpoints following best practices"
    +:+ br +:+ "- Input validation"
    +:+ br +:+ "- Error handling"
    +:+ br +:+ "- JSON responses" in
  if String.eqb (scenario this) "enterprise" then
    base
    +:+ br +:+ "- JWT authentication"
    +:+ br +:+ "- User association (tasks belong to users)"
    +:+ br +:+ "- PostgreSQL database integration"
    +:+ br +:+ "- Docker containerization"
    +:+ br +:+ "- Rate limiting and security headers"
  else
    base.

(** [getApiSuccessCriteria()]: [base] is a fresh array at every call, and
    [push] appends to it. *)
Definition getApiSuccessCriteria (this : Runner) : list string :=
  let base :=
    [ "Express.js REST API implementation";
      "All CRUD endpoints (GET, POST, PUT, DELETE)";
      "Proper error handling and validation";
      "Clean code structure with router separation" ] in
  if String.eqb (scenario this) "basic" then
    base ++ ["In-memory storage for demo purposes"]
  else if String.eqb (scenario this) "enterprise" then
    ((base ++ ["PostgreSQL integration with migrations"])
       ++ ["JWT authentication middleware"])
      ++ ["User-scoped todo operations"]
  else
    base.

(** ** The tasks

    The object literals of [queueTasks], each a function of the runner it
    reads and of [this.agents.<slot>.id]. *)

(** Task 1: Comprehend requirements *)
Definition task1 (this : Runner) (id : string) : TaskSpec := {|
  task_id := "comprehend-todo-api";
  task_type := comprehension;
  objective := "Analyze requirements for a RESTful TODO API";
  description := Some (getRequirementsDescription this);
  dependencies := None;
  context := None;
  successCriteria := None;
  specificChecks := None;
  qualityGates := None;
  maxTokens := 10000;
  agentId := id |}.

(** Task 2: Generate API *)
Definition task2 (this : Runner) (id : string) : TaskSpec := {|
  task_id := "generate-todo-api";
  task_type := generation;
  objective := "Implement TODO API with Express.js";
  description := None;
  dependencies := Some ["comprehend-todo-api"];
  context := Some [".repochief/artifacts/comprehend-todo-api/analysis.md"];
  successCriteria := Some (getApiSuccessCriteria this);
  specificChecks := None;
  qualityGates := None;
  maxTokens := 50000;
  agentId := id |}.

(** Task 3: Create tests *)
Definition task3 (id : string) : TaskSpec := {|
  task_id := "test-todo-api";
  task_type := generation;
  objective := "Write comprehensive tests for TODO API";
  description := None;
  dependencies := Some ["generate-todo-api"];
  context := Some [".repochief/artifacts/generate-todo-api/code/"];
  successCriteria := Some [
    "Unit tests for all endpoints";
    "Test coverage > 80%";
    "Mock dependencies properly";
    "Test error cases and edge cases";
    "Use Mocha + Chai + Sinon" ];
  specificChecks := None;
  qualityGates := None;
  maxTokens := 30000;
  agentId := id |}.

(** Task 4: Validate quality *)
Definition task4 (id : string) : TaskSpec := {|
  task_id := "validate-todo-api";
  task_type := validation;
  objective := "Review code quality and security";
  description := None;
  dependencies := Some ["generate-todo-api"; "test-todo-api"];
  context := Some [
    ".repochief/artifacts/generate-todo-api/code/";
    ".repochief/artifacts/test-todo-api/code/" ];
  successCriteria := None;
  specificChecks := Some [
    "Code follows best practices";
    "No security vulnerabilities";
    "Proper input validation";
    "Good error handling";
    "Clean code structure" ];
  qualityGates := Some ["eslint"; "test"; "complexity"];
  maxTokens := 20000;
  agentId := id |}.

(** Task 5: Generate frontend *)
Definition task5 (id : string) : TaskSpec := {|
  task_id := "generate-todo-frontend";
  task_type := generation;
  objective := "Create React frontend for TODO app";
  description := None;
  dependencies := Some ["generate-todo-api"];
  context := Some [".repochief/artifacts/generate-todo-api/api-spec.json"];
  successCriteria := Some [
    "React functional components with hooks";
    "Responsive design with Tailwind CSS";
    "API integration with fetch/axios";
    "Error handling and loading states";
    "Add, edit, delete, and complete todos" ];
  specificChecks := None;
  qualityGates := None;
  maxTokens := 40000;
  agentId := id |}.

(** The description of the frontend agent, written inline in
    [createAgents]. *)
Definition frontend_developer : Template :=
  Inline (mkInline "frontend_developer" "gpt-4o"
            ["generation"; "refactoring"]
            (mkConstraints 100000 70 ["React"; "Next.js"; "TypeScript"])).

(** ** The methods *)

Section Methods.
Context {W : Type} `{External W}.

(** The state of the script: the runner object and the process. *)
Record State := mkState { this : Runner; proc : Proc W }.

Definition lift {A} (m : M (Proc W) A) : M State A :=
  fun s => let '(r, p) := m (proc s) in (r, mkState (this s) p).

Definition update (f : Runner -> Runner) : M State unit :=
  modify (fun s => mkState (f (this s)) (proc s)).

Definition set_scenario (v : string) (r : Runner) : Runner :=
  mkRunner v (mockMode r) (budget r) (verbose r) (orchestrator r) (api r) (agents r).
Definition set_mockMode (v : bool) (r : Runner) : Runner :=
  mkRunner (scenario r) v (budget r) (verbose r) (orchestrator r) (api r) (agents r).
Definition set_budget (v : number) (r : Runner) : Runner :=
  mkRunner (scenario r) (mockMode r) v (verbose r) (orchestrator r) (api r) (agents r).
Definition set_orchestrator (v : option unit) (r : Runner) : Runner :=
  mkRunner (scenario r) (mockMode r) (budget r) (verbose r) v (api r) (agents r).
Definition set_api (v : option CloudAPI) (r : Runner) : Runner :=
  mkRunner (scenario r) (mockMode r) (budget r) (verbose r) (orchestrator r) v (agents r).
Definition set_agents (f : Agents -> Agents) (r : Runner) : Runner :=
  mkRunner (scenario r) (mockMode r) (budget r) (verbose r) (orchestrator r) (api r)
           (f (agents r)).

Definition set_analyst (a : Agent) (g : Agents) : Agents :=
  mkAgents (Some a) (developer g) (tester g) (reviewer g) (frontend g).
Definition set_developer (a : Agent) (g : Agents) : Agents :=
  mkAgents (analyst g) (Some a) (tester g) (reviewer g) (frontend g).
Definition set_tester (a : Agent) (g : Agents) : Agents :=
  mkAgents (analyst g) (developer g) (Some a) (reviewer g) (frontend g).
Definition set_reviewer (a : Agent) (g : Agents) : Agents :=
  mkAgents (analyst g) (developer g) (tester g) (Some a) (frontend g).
Definition set_frontend (a : Agent) (g : Agents) : Agents :=
  mkAgents (analyst g) (developer g) (tester g) (reviewer g) (Some a).

(** [this.orchestrator.method(...)]: reading a method of [null] throws. *)
Definition on_orchestrator {A} (method : string) (m : M (Proc W) A) : M State A :=
  o ← gets (fun s => orchestrator (this s));
  match o with
  | Some _ => lift m
  | None =>
      throw (mkError "TypeError"
               ("Cannot read properties of null (reading '" +:+ method +:+ "')"))
  end.

(** [this.agents.slot.id]: reading [id] of a missing agent throws. *)
Definition agent_id_of (slot : Agents -> option Agent) : M State string :=
  a ← gets (fun s => slot (agents (this s)));
  match a with
  | Some a => ret (agent_id a)
  | None => throw (TypeError_undefined "id")
  end.

Definition interactiveSetup : M State unit :=
  answers ← lift (let choices := keys SCENARIOS in
                  perform (Prompt choices) (ext_prompt choices));
  update (set_scenario (ans_scenario answers));;
  update (set_mockMode (ans_mockMode answers));;
  update (set_budget (or_else (ans_budget answers) (Num 10))).

(** [config.name] throws when [SCENARIOS[this.scenario]] is undefined. *)
Definition displayConfig : M State unit :=
  config ← gets (fun s => get SCENARIOS (scenario (this s)));
  match config with
  | Undefined => throw (TypeError_undefined "name")
  | Own _ | Inherited _ => ret tt
  end.

Definition initialize : M State unit :=
  r ← gets this;
  let cfg := mkOrchestratorConfig ("todo-demo-" +:+ scenario r) (budget r) (mockMode r) in
  lift (perform (CreateOrchestrator cfg) (ext_createOrchestrator cfg));;
  update (set_orchestrator (Some tt));;
  on_orchestrator "initialize" (perform Initialize ext_initialize);;
  key ← gets (fun s => getenv (proc s) "REPOCHIEF_API_KEY");
  let cfg := mkApiConfig 3456 (or_else key "demo-key-12345") in
  a ← lift (perform (CreateCloudAPI cfg) (ext_createCloudAPI cfg));
  update (set_api (Some a));;
  lift (perform ApiStart ext_apiStart).

Definition createAgent (name : string) (template : Template) : M State Agent :=
  let cfg := mkAgentConfig name template 2 in
  on_orchestrator "createAgent" (perform (CreateAgent cfg) (ext_createAgent cfg)).

Definition createAgents : M State unit :=
  a ← createAgent "Alice-Analyst" (Preset REQUIREMENTS_ANALYST);
  update (set_agents (set_analyst a));;
  a ← createAgent "Bob-Developer" (Preset SENIOR_DEVELOPER);
  update (set_agents (set_developer a));;
  a ← createAgent "Carol-QA" (Preset QA_ENGINEER);
  update (set_agents (set_tester a));;
  r ← gets this;
  when (negb (String.eqb (scenario r) "basic"))
    (a ← createAgent "David-Reviewer" (Preset CODE_REVIEWER);
     update (set_agents (set_reviewer a));;
     a ← createAgent "Eve-Frontend" frontend_developer;
     update (set_agents (set_frontend a))).

Definition queueTask (taskSpec : TaskSpec) : M State Task :=
  on_orchestrator "queueTask" (perform (QueueTask taskSpec) (ext_queueTask taskSpec)).

Definition queueTasks : M State unit :=
  r ← gets this;
  id ← agent_id_of analyst;
  queueTask (task1 r id);;
  id ← agent_id_of developer;
  queueTask (task2 r id);;
  id ← agent_id_of tester;
  queueTask (task3 id);;
  (* Additional tasks for non-basic scenarios *)
  when (negb (String.eqb (scenario r) "basic"))
    (id ← agent_id_of reviewer;
     queueTask (task4 id);;
     id ← agent_id_of frontend;
     queueTask (task5 id);;
     ret tt).

Definition setupEventHandlers : M State unit :=
  on_orchestrator "on" (perform (On "taskStarted") (ext_on "taskStarted"));;
  on_orchestrator "on" (perform (On "taskProgress") (ext_on "taskProgress"));;
  on_orchestrator "on" (perform (On "taskCompleted") (ext_on "taskCompleted"));;
  on_orchestrator "on" (perform (On "taskFailed") (ext_on "taskFailed"));;
  on_orchestrator "on" (perform (On "qualityGateResult") (ext_on "qualityGateResult"));;
  r ← gets this;
  when (negb (mockMode r))
    (on_orchestrator "on" (perform (On "costUpdate") (ext_on "costUpdate"))).

(** The handlers only print, so the events of the execution are dropped. *)
Definition execute : M State unit :=
  setupEventHandlers;;
  on_orchestrator "startExecution" (perform StartExecution ext_startExecution);;
  on_orchestrator "waitForCompletion" waitForCompletion;;
  ret tt.

Definition displayResults : M State unit :=
  report ← on_orchestrator "getFinalReport" (perform GetFinalReport ext_getFinalReport);
  let success := tasksCompleted report =? totalTasks report in
  lift (log (FinalStatus success)).

Definition cleanup : M State unit :=
  try_catch
    (r ← gets this;
     when (bool_decide (is_Some (orchestrator r)))
       (on_orchestrator "shutdown" (perform Shutdown ext_shutdown));;
     when (match api r with Some a => has_stop a | None => false end)
       (lift (perform ApiStop ext_apiStop));;
     (* Exit cleanly *)
     lift (setTimeout (TimerExit 0) 500);;
     ret tt)
    (fun error => lift (process_exit 1)).

(** The [try] block of [run]. *)
Definition attempt : M State unit :=
  initialize;;
  createAgents;;
  queueTasks;;
  execute;;
  displayResults;;
  cleanup.

(** What [run] does before its [try] block. *)
Definition prelude : M State unit :=
  p ← gets proc;
  when ((length (argv p) <=? 2)%nat && negb (argv_includes p "--non-interactive"))
    interactiveSetup;;
  displayConfig.

Definition run : M State unit :=
  prelude;;
  try_catch attempt
    (fun error =>
       lift (log (DemoFailed (message error)));;
       lift (process_exit 1)).

(** ** The script

    The handler of SIGINT (exit with 0 on Ctrl+C) is left out: the runs
    considered are not interrupted. *)

(** Parse command line options. *)
Definition options (p : Proc W) : Options :=
  {| opt_scenario := Some (or_else (getenv p "DEMO_SCENARIO") "basic");
     opt_mockMode := Some (strict_eq_string (getenv p "MOCK_MODE") "true");
     opt_budget := Some (or_else (Some (parseInt (getenv p "DEMO_BUDGET"))) (Num 10));
     opt_verbose := Some (argv_includes p "--verbose") |}.

(** [new TodoDemoRunner(options)] and [runner.run()], from the process [p]. *)
Definition script (p : Proc W) : result unit * State :=
  let runner := constructor (Some (options p)) in
  run (mkState runner p).

(** [runner.run().catch(console.error)], to the end of the process. *)
Definition main (p : Proc W) : Outcome :=
  let '(r, s) := script p in outcome_of r (proc s).

(** How the [try] block of [cleanup] ends with no timer pending: it returns
    with the exit timer set, or it throws. *)
Definition shutdown_post (x : result unit * State) : Prop :=
  match x with
  | (Ok _, s') => exists h, timers (proc s') = [mkTimer h 500 (TimerExit 0)]
  | (Throw _, _) => True
  | (Halt _, _) => False
  end.

(** How [cleanup] ends with no timer pending: it returns with the exit
    timer set, or it exits with 1; it does not throw. *)
Definition cleanup_post (x : result unit * State) : Prop :=
  match x with
  | (Ok _, s') => exists h, timers (proc s') = [mkTimer h 500 (TimerExit 0)]
  | (Throw _, _) => False
  | (Halt t, _) => t = Exited 1
  end.

(** How the [try] block of [run] ends with no timer pending. *)
Definition attempt_post (x : result unit * State) : Prop :=
  match x with
  | (Ok _, s') => exists h, timers (proc s') = [mkTimer h 500 (TimerExit 0)]
  | (Throw _, _) => True
  | (Halt t, _) => t = Exited 1
  end.

(** From [s], [queueTasks] returns and has queued exactly the tasks [l]. *)
Definition queues (s : State) (l : list TaskSpec) : Prop :=
  exists s1, queueTasks s = (Ok tt, s1)
             /\ queued (calls (proc s1)) = queued (calls (proc s)) ++ l.

End Methods.

Arguments State W : clear implicits.

(** ** The plan of a scenario

    What [queueTasks] hands to the orchestrator, as a list: the slots of
    [this.agents] it reads, and the tasks in the order it queues them. *)

Inductive Role := Analyst | Developer | Tester | Reviewer | Frontend.

Definition slot (ro : Role) : Agents -> option Agent :=
  match ro with
  | Analyst => analyst
  | Developer => developer
  | Tester => tester
  | Reviewer => reviewer
  | Frontend => frontend
  end.

(** [this.agents.<slot>.id], for the slots that are filled. *)
Definition ident_of (g : Agents) (ro : Role) : string :=
  match slot ro g with Some a => agent_id a | None => "" end.

Definition roles (this : Runner) : list Role :=
  [Analyst; Developer; Tester]
  ++ (if negb (String.eqb (scenario this) "basic") then [Reviewer; Frontend] else []).

Definition taskList (this : Runner) (ident : Role -> string) : list TaskSpec :=
  [task1 this (ident Analyst); task2 this (ident Developer); task3 (ident Tester)]
  ++ (if negb (String.eqb (scenario this) "basic")
      then [task4 (ident Reviewer); task5 (ident Frontend)]
      else []).

(** What [createAgents] hands to the orchestrator, in order. *)
Definition swarm (this : Runner) : list AgentConfig :=
  [ mkAgentConfig "Alice-Analyst" (Preset REQUIREMENTS_ANALYST) 2;
    mkAgentConfig "Bob-Developer" (Preset SENIOR_DEVELOPER) 2;
    mkAgentConfig "Carol-QA" (Preset QA_ENGINEER) 2 ]
  ++ (if negb (String.eqb (scenario this) "basic")
      then [ mkAgentConfig "David-Reviewer" (Preset CODE_REVIEWER) 2;
             mkAgentConfig "Eve-Frontend" frontend_developer 2 ]
      else []).

(** The runner of a scenario, built as the script builds it. *)
Definition runner_of (scenario : string) : Runner :=
  constructor (Some (mkOptions (Some scenario) None None None)).

(** ** The dependency graph of a task list *)

(** A missing [dependencies] property is no dependency. *)
Definition deps (t : TaskSpec) : list string := default [] (dependencies t).

(** Every dependency of every task is the id of a task earlier in the
    list; [seen] are the ids defined so far. *)
Fixpoint refs_earlier (seen : list string) (l : list TaskSpec) : bool :=
  match l with
  | [] => true
  | t :: rest =>
      forallb (fun d => existsb (String.eqb d) seen) (deps t)
      && refs_earlier (seen ++ [task_id t]) rest
  end.

(** [t] depends on [u], both tasks of [l]. *)
Definition depends (l : list TaskSpec) (t u : TaskSpec) : Prop :=
  In t l /\ In u l /\ In (task_id u) (deps t).

(** No task reaches itself along dependencies. *)
Definition acyclic (l : list TaskSpec) : Prop :=
  forall t, ~ clos_trans TaskSpec (depends l) t t.

(** The position of the first [x] in [ids], and of a task in [l] by its
    id. *)
Fixpoint rank (x : string) (ids : list string) : nat :=
  match ids with
  | [] => 0%nat
  | y :: rest => if String.eqb x y then 0%nat else Datatypes.S (rank x rest)
  end.

Definition position (l : list TaskSpec) (t : TaskSpec) : nat :=
  rank (task_id t) (map task_id l).

(** [x] is [y] with something appended, when both are present. *)
Definition extends {A} (append : A -> A -> A) (x y : option A) : Prop :=
  match x, y with
  | Some a, Some b => exists more, a = append b more
  | None, None => True
  | _, _ => False
  end.

(** The texts of [e] are those of [f], augmented. *)
Definition augments (e f : TaskSpec) : Prop :=
  extends String.append (description e) (description f)
  /\ extends (@app string) (successCriteria e) (successCriteria f).

(** [x] is [y] with something appended that is not [empty]. *)
Definition grows {A} (append : A -> A -> A) (empty : A) (x y : option A) : Prop :=
  match x, y with
  | Some a, Some b => exists more, a = append b more /\ more <> empty
  | _, _ => False
  end.

(** A task with its two texts erased. *)
Definition structure (t : TaskSpec) : TaskSpec :=
  mkTaskSpec (task_id t) (task_type t) (objective t) None (dependencies t)
             (context t) None (specificChecks t) (qualityGates t) (maxTokens t)
             (agentId t).

(** A task without its agent. *)
Definition content (t : TaskSpec) : TaskSpec :=
  mkTaskSpec (task_id t) (task_type t) (objective t) (description t) (dependencies t)
             (context t) (successCriteria t) (specificChecks t) (qualityGates t)
             (maxTokens t) "".

End RunDemo.

(* ===================================================================== *)
(** * src/index.js                                                        *)
(* ===================================================================== *)

Module Index.

Section Config.
(** [scenarios/config.json] is data: [scenarios] stands for the own
    properties of its [scenarios] object, each of them an object. *)
Variable Config : Type.
Variable scenarios : list (string * Config).

(** What [getScenarioConfig] returns: a scenario of the file, a member that
    every object inherits, or [null]. *)
Inductive ScenarioConfig :=
| config (c : Config)
| member (m : string)
| null.

(** [scenarios.scenarios[scenarioId] || null]. *)
Definition getScenarioConfig (scenarioId : string) : ScenarioConfig :=
  match get scenarios scenarioId with
  | Own c => config c
  | Inherited m => member m
  | Undefined => null
  end.

End Config.

Arguments config {Config} c.
Arguments member {Config} m.
Arguments null {Config}.

Section Listing.
(** A scenario of the file is an object: its own properties in the order
    of the file, with values of the type [V] of the JSON values, among
    which [text] makes the strings. *)
Variable V : Type.
Variable text : string -> V.

(** [getScenarios()]: for each key, in the order of [Object.keys],
    [{ id: key, ...scenarios.scenarios[key] }]. *)
Definition getScenarios (scenarios : list (string * list (string * V)))
  : list (list (string * V)) :=
  map (fun key => spread [("id", text key)] (default [] (own_property scenarios key)))
      (keys scenarios).

End Listing.




End Index.

(* ===================================================================== *)
(** * test-e2e.js                                                         *)
(* ===================================================================== *)

Module TestE2E.

(** An entry of [qualityGateResults]: [{ gate, result, task: task.id }]. *)
Record GateResult := mkGateResult {
  gate : string;
  status : string;        (* result.status *)
  gate_task : string
}.

(** The three handlers, applied to the events of the execution. *)
Definition completedTasks (evs : list Event) : Z :=
  Z.of_nat (length (List.filter (fun e => match e with taskCompleted _ => true | _ => false end) evs)).

Definition failedTasks (evs : list Event) : Z :=
  Z.of_nat (length (List.filter (fun e => match e with taskFailed _ _ => true | _ => false end) evs)).

Definition qualityGateResults (evs : list Event) : list GateResult :=
  omap (fun e => match e with
                 | qualityGateResult g s t => Some (mkGateResult g s (queued_id t))
                 | _ => None
                 end) evs.

(** What [acc[status]] holds once results with that status are counted:
    their number, or, for a status that names a member every object
    inherits, the text of that member with a 1 appended for each of
    them. *)
Inductive Tally :=
| Counted (n : Z)
| Appended (ones : Z).

(** Count quality gate statuses:
    [acc[status] = (acc[status] || 0) + 1], from [{}].  The first read of
    a status that names an inherited member finds the member, which is
    truthy and not a number, so that the sum is a text; and the
    assignment to [__proto__] of what is not an object does nothing. *)
Definition gateStatuses (results : list GateResult) : gmap string Tally :=
  foldl (fun acc r =>
           let k := status r in
           match acc !! k with
           | Some (Counted n) => <[k := Counted (n + 1)]> acc
           | Some (Appended n) => <[k := Appended (n + 1)]> acc
           | None =>
               if String.eqb k "__proto__" then acc
               else if inherited k then <[k := Appended 1]> acc
               else <[k := Counted 1]> acc
           end) ∅ results.

(** [count > 0], where [count] may be undefined or a text that is not a
    number. *)
Definition positive (count : option Tally) : bool :=
  match count with Some (Counted n) => 0 <? n | _ => false end.

Definition hasFailedGates (statuses : gmap string Tally) : bool :=
  positive (statuses !! "failed") || positive (statuses !! "error").

Definition allTestsPassed (report : Report) (tasks : list Task) (evs : list Event) : bool :=
  forallb (fun test => test)
    [ tasksCompleted report =? Z.of_nat (length tasks);
      tasksFailed report =? 0;
      failedTasks evs =? 0;
      completedTasks evs =? Z.of_nat (length tasks);
      0 <? Z.of_nat (length (qualityGateResults evs)) ].

(** Final verdict. *)
Definition testSuccess (report : Report) (tasks : list Task) (evs : list Event)
    (artifactChecks : list bool) : bool :=
  let artifactsCreated := forallb (fun check => check) artifactChecks in
  allTestsPassed report tasks evs
  && artifactsCreated
  && negb (hasFailedGates (gateStatuses (qualityGateResults evs))).

(** The session directory, below the working directory. *)
Definition sessionDir : string := ".repochief/artifacts/e2e-test-todo".

Definition timeout_ms : N := 30000.

Section Test.
Context {W : Type} `{External W}.

(** The state of the script: the variable [api] of [runE2ETest], which its
    [finally] block reads, and the process. *)
Record State := mkState { api : option CloudAPI; proc : Proc W }.

Definition lift {A} (m : M (Proc W) A) : M State A :=
  fun s => let '(r, p) := m (proc s) in (r, mkState (api s) p).

Definition createAgent (name : string) (t : AgentTemplate) (n : Z) : M State Agent :=
  let cfg := mkAgentConfig name (Preset t) n in
  lift (perform (CreateAgent cfg) (ext_createAgent cfg)).

Definition queueTask (spec : TaskSpec) : M State Task :=
  lift (perform (QueueTask spec) (ext_queueTask spec)).

Definition access (file : string) : M State bool :=
  let path := sessionDir +:+ "/artifacts/" +:+ file in
  lift (fun p =>
          let '(b, w) := ext_fsAccess path (world p) in
          (Ok b, mkProc (argv p) (env p) w (calls p ++ [FsAccess path]) (timers p)
                        (next_handle p) (console p))).

(** Steps 1 to 5 of the [try] block, up to [startExecution]: the tasks
    queued. *)
Definition prepare : M State (list Task) :=
  (* 1. Create orchestrator in mock mode *)
  (let cfg := mkOrchestratorConfig "e2e-test-todo" (Num 5) true in
   lift (perform (CreateOrchestrator cfg) (ext_createOrchestrator cfg)));;
  lift (perform Initialize ext_initialize);;
  (* 2. Start cloud API *)
  a ← (let cfg := mkApiConfig 3457 "test-key-12345" in
       lift (perform (CreateCloudAPI cfg) (ext_createCloudAPI cfg)));
  modify (fun s => mkState (Some a) (proc s));;
  lift (perform ApiStart ext_apiStart);;
  (* 3. Create agents *)
  analyst ← createAgent "Test-Analyst" REQUIREMENTS_ANALYST 1;
  developer ← createAgent "Test-Developer" SENIOR_DEVELOPER 2;
  tester ← createAgent "Test-QA" QA_ENGINEER 1;
  (* 4. Queue tasks *)
  t1 ← queueTask {|
    task_id := "e2e-comprehend";
    task_type := comprehension;
    objective := "Analyze TODO API requirements";
    description := Some "Simple TODO API with CRUD operations";
    dependencies := None;
    context := None;
    successCriteria := None;
    specificChecks := None;
    qualityGates := None;
    maxTokens := 10000;
    agentId := agent_id analyst |};
  t2 ← queueTask {|
    task_id := "e2e-generate";
    task_type := generation;
    objective := "Generate TODO API code";
    description := None;
    dependencies := Some ["e2e-comprehend"];
    context := Some [".repochief/artifacts/e2e-comprehend/analysis.md"];
    successCriteria := Some ["Express API"; "CRUD endpoints"];
    specificChecks := None;
    qualityGates := Some ["eslint"; "complexity"];
    maxTokens := 20000;
    agentId := agent_id developer |};
  t3 ← queueTask {|
    task_id := "e2e-test";
    task_type := generation;
    objective := "Generate tests";
    description := None;
    dependencies := Some ["e2e-generate"];
    context := Some [".repochief/artifacts/e2e-generate/code/"];
    successCriteria := Some ["Unit tests"; "Test coverage"];
    specificChecks := None;
    qualityGates := Some ["test"];
    maxTokens := 15000;
    agentId := agent_id tester |};
  let tasks := [t1; t2; t3] in
  (* 5. Track execution *)
  lift (perform (On "taskCompleted") (ext_on "taskCompleted"));;
  lift (perform (On "taskFailed") (ext_on "taskFailed"));;
  lift (perform (On "qualityGateResult") (ext_on "qualityGateResult"));;
  lift (perform StartExecution ext_startExecution);;
  ret tasks.

(** Steps 6 and 7: the verdict, from the tasks queued and the events the
    handlers have seen. *)
Definition verify (tasks : list Task) (evs : list Event) : M State bool :=
  report ← lift (perform GetFinalReport ext_getFinalReport);
  c1 ← access "e2e-comprehend-result.json";
  c2 ← access "e2e-generate-result.json";
  c3 ← access "e2e-test-result.json";
  (* Final verdict *)
  let success := testSuccess report tasks evs [c1; c2; c3] in
  lift (log (if success then TestPassed else TestFailed));;
  ret success.

Definition timeout_error : Error :=
  mkError "Error" "Execution timeout after 30 seconds".

(** The [try] block of [runE2ETest]. *)
Definition body : M State bool :=
  tasks ← prepare;
  (* Wait for completion with timeout *)
  timeout ← lift (setTimeout (TimerThrow timeout_error) timeout_ms);
  evs ← lift waitForCompletion;
  lift (clearTimeout timeout);;
  verify tasks evs.

(** The [finally] block: [api.stop()] with the rejection of its promise
    swallowed, then the exit forced after a second.  The call is not
    guarded: on an API without [stop] it throws.  ([stop], where there is
    one, is the asynchronous method of the cloud API: it returns a
    promise.) *)
Definition finalizer : M State unit :=
  a ← gets api;
  match a with
  | Some a =>
      if has_stop a
      then try_catch (lift (perform ApiStop ext_apiStop)) (fun _ => ret tt)
      else throw (TypeError_not_a_function "api.stop")
  | None => ret tt
  end;;
  lift (setTimeout (TimerExit 0) 1000);;
  ret tt.

(** The [try] block with its [catch]. *)
Definition guarded : M State bool :=
  try_catch body
    (fun error => lift (log (TestError (message error)));; ret false).

Definition runE2ETest : M State bool :=
  try_finally guarded finalizer.

(** Run the test:
    [runE2ETest().then(success => process.exit(success ? 0 : 1))
                 .catch(error => process.exit(1))]. *)
Definition script : M State unit :=
  try_catch
    (success ← runE2ETest;
     lift (process_exit (if (success : bool) then 0 else 1)))
    (fun error => lift (process_exit 1)).

Definition main (p : Proc W) : Outcome :=
  let '(r, s) := script (mkState None p) in outcome_of r (proc s).

(** The state in which the verification starts when the promise of
    [waitForCompletion] is fulfilled before the timer: from [s], the wait
    has been made, the world is [w], and the timer set with the next
    handle has been cleared. *)
Definition after_wait (s : State) (w : W) : State :=
  mkState (api s)
    (mkProc (argv (proc s)) (env (proc s)) w (calls (proc s) ++ [WaitForCompletion])
            [] (Datatypes.S (next_handle (proc s))) (console (proc s))).

End Test.

Arguments State W : clear implicits.

(** The code the script exits with when [runE2ETest] settles as [r]. *)
Definition exit_code (r : result bool) : Z :=
  match r with Ok true => 0 | _ => 1 end.

(** The [finally] block runs to its end: there is no API, or the API has a
    [stop] method. *)
Definition stoppable (a : option CloudAPI) : bool :=
  match a with Some a => has_stop a | None => true end.

(** The code the script exits with when the [try] block of [runE2ETest]
    ends as [r] with the variable [api] holding [a]. *)
Definition final_code (a : option CloudAPI) (r : result bool) : Z :=
  if stoppable a then exit_code r else 1.

End TestE2E.

(* ===================================================================== *)
(** * scripts/record-demo.js                                              *)
(* ===================================================================== *)

Module RecordDemo.

(** The answers of the three questions of [getSettings]. *)
Record Settings := mkSettings {
  scenario : string;
  mockMode : bool;
  withAudio : bool
}.

(** How a child process ends for its parent: the [close] event with the
    exit code ([null] when a signal ended it), or the [error] event when it
    could not be spawned. *)
Inductive Closed :=
| Close (code : option Z)
| SpawnError (e : Error).

(** What the recorder does outside of itself, in order. *)
Inductive Action :=
| Spawn (cmd : string) (args : list string) (env : option (list (string * string)))
| Prompt (choices : list string)
| ExistsSync (path : string)
| MkdirSync (path : string)
| WriteFileSync (path data : string)
| ChmodSync (path mode : string).

(** The host of the recorder: [child_process.spawn] to the end of the
    child, [inquirer.prompt], the four calls of [fs], and [path.join]. *)
Class Host (W : Type) := {
  host_spawn : string -> list string -> option (list (string * string)) -> W -> Closed * W;
  host_prompt : list string -> W -> settled Settings * W;
  host_existsSync : string -> W -> bool * W;
  host_mkdirSync : string -> W -> settled unit * W;
  host_writeFileSync : string -> string -> W -> settled unit * W;
  host_chmodSync : string -> string -> W -> settled unit * W;
  path_join : list string -> string
}.

(** The lines of the console that tell how the recording went; the banner
    and the progress lines are left out, and the block of [showNextSteps]
    is one line, with the line of step 4 apart. *)
Inductive Line :=
| AsciinemaNotFound
| FfmpegNotFound
| RecordingSaved (file : string)
| NextSteps (file : string)
| AudioNarration
| RecordingFailed (message : string).

(** The process: its working directory, [__dirname], the clock as
    [new Date().toISOString()] reads it, the environment, the host, what
    was done and what was printed. *)
Record Proc (W : Type) := mkProc {
  cwd : string;
  dirname : string;
  clock : string;
  env : list (string * string);
  world : W;
  actions : list Action;
  console : list Line
}.
Arguments mkProc {W}.
Arguments cwd {W}.
Arguments dirname {W}.
Arguments clock {W}.
Arguments env {W}.
Arguments world {W}.
Arguments actions {W}.
Arguments console {W}.

Record Recorder := mkRecorder {
  outputDir : string;
  timestamp : string
}.

(** [s.replace(/[:.]/g, '-')]. *)
Fixpoint sanitize (s : string) : string :=
  match s with
  | EmptyString => EmptyString
  | String c rest =>
      String (if Ascii.eqb c ":" || Ascii.eqb c "." then "-"%char else c) (sanitize rest)
  end.

(** [b.toString()]. *)
Definition toString (b : bool) : string := if b then "true" else "false".

(** The exit code in a template literal. *)
Definition show_code (code : option Z) : string :=
  match code with Some n => pretty n | None => "null" end.

Definition nl : string := String (ascii_of_nat 10) EmptyString.
Definition quote : string := String (ascii_of_nat 34) EmptyString.
Definition backslash : string := String (ascii_of_nat 92) EmptyString.

(** The text of the demo script, for the two values of the environment and
    the path of [run-demo.js]. *)
Definition demoScript (demo_scenario mock_mode runner : string) : string :=
  String.concat nl
    [ "#!/bin/bash";
      "set -e";
      EmptyString;
      "# Clear screen and show banner";
      "clear";
      "echo -e " +:+ quote +:+ backslash +:+ "033[1;36m" +:+ quote;
      "figlet -f slant " +:+ quote +:+ "RepoChief" +:+ quote
        +:+ " 2>/dev/null || echo " +:+ quote +:+ "RepoChief" +:+ quote;
      "echo -e " +:+ quote +:+ backslash +:+ "033[0m" +:+ quote;
      "echo " +:+ quote +:+ "AI Agent Orchestration Platform - Demo Recording" +:+ quote;
      "echo " +:+ quote +:+ "================================================" +:+ quote;
      "echo " +:+ quote +:+ quote;
      "sleep 3";
      EmptyString;
      "# Run the demo with enhanced output";
      "DEMO_SCENARIO=" +:+ demo_scenario +:+ " " +:+ backslash;
      "MOCK_MODE=" +:+ mock_mode +:+ " " +:+ backslash;
      "node " +:+ runner +:+ " --verbose";
      EmptyString;
      "echo " +:+ quote +:+ quote;
      "echo " +:+ quote +:+ "Demo completed! Press any key to exit..." +:+ quote;
      "read -n 1";
      EmptyString ].

Section Methods.
Context {W : Type} `{Host W}.

(** One action on the host: it is recorded and the host moves. *)
Definition act {A} (a : Action) (op : W -> A * W) : M (Proc W) A :=
  fun p =>
    let '(x, w) := op (world p) in
    (Ok x, mkProc (cwd p) (dirname p) (clock p) (env p) w (actions p ++ [a]) (console p)).

(** An action that may throw. *)
Definition perform {A} (a : Action) (op : W -> settled A * W) : M (Proc W) A :=
  x ← act a op;
  match x with
  | Fulfilled v => ret v
  | Rejected e => throw e
  end.

Definition log (l : Line) : M (Proc W) unit :=
  modify (fun p => mkProc (cwd p) (dirname p) (clock p) (env p) (world p) (actions p)
                          (console p ++ [l])).

(** [process.env[name] = value]. *)
Definition setenv (name value : string) : M (Proc W) unit :=
  modify (fun p => mkProc (cwd p) (dirname p) (clock p) (assign (env p) name value)
                          (world p) (actions p) (console p)).

(** [process.env.NAME]. *)
Definition getenv (p : Proc W) (name : string) : option string :=
  own_property (env p) name.

(** [process.exit(code)]. *)
Definition process_exit {A} (code : Z) : M (Proc W) A := halt (Exited code).

Definition constructor (p : Proc W) : Recorder :=
  {| outputDir := path_join [cwd p; "recordings"];
     timestamp := sanitize (clock p) |}.

(** [spawn('which', [cmd])] to its [close] event.  The child has no
    listener for [error]: when [which] cannot be spawned, the event is an
    uncaught exception. *)
Definition commandExists (cmd : string) : M (Proc W) bool :=
  c ← act (Spawn "which" [cmd] None) (host_spawn "which" [cmd] None);
  match c with
  | Close code => ret (bool_decide (code = Some 0))
  | SpawnError e => halt (Crashed e)
  end.

Definition checkPrerequisites : M (Proc W) unit :=
  (* Check for asciinema (terminal recorder) *)
  hasAsciinema ← commandExists "asciinema";
  when (negb hasAsciinema)
    (log AsciinemaNotFound;;
     process_exit 1);;
  (* Check for ffmpeg (video converter) *)
  hasFfmpeg ← commandExists "ffmpeg";
  when (negb hasFfmpeg) (log FfmpegNotFound).

Definition getSettings : M (Proc W) Settings :=
  let choices := ["basic"; "fullstack"; "enterprise"] in
  perform (Prompt choices) (host_prompt choices).

Definition prepareRecording (this : Recorder) : M (Proc W) string :=
  (* Create recordings directory *)
  there ← act (ExistsSync (outputDir this)) (host_existsSync (outputDir this));
  when (negb there)
    (perform (MkdirSync (outputDir this)) (host_mkdirSync (outputDir this)));;
  (* Create demo script with visual enhancements *)
  p ← gets (fun p => p);
  let demoScript :=
    demoScript (or_else (getenv p "DEMO_SCENARIO") "basic")
               (or_else (getenv p "MOCK_MODE") "true")
               (path_join [dirname p; ".."; "src"; "run-demo.js"]) in
  let scriptPath := path_join [outputDir this; "demo-script.sh"] in
  perform (WriteFileSync scriptPath demoScript) (host_writeFileSync scriptPath demoScript);;
  perform (ChmodSync scriptPath "755") (host_chmodSync scriptPath "755");;
  ret scriptPath.

Definition showNextSteps (recordingFile : string) (settings : Settings) : M (Proc W) unit :=
  log (NextSteps recordingFile);;
  when (withAudio settings) (log AudioNarration).

(** The file of the recording and the arguments of [asciinema]. *)
Definition outputFile (this : Recorder) (settings : Settings) : string :=
  path_join [ outputDir this;
              "repochief-demo-" +:+ scenario settings +:+ "-" +:+ timestamp this
              +:+ ".cast" ].

Definition recordCmd (this : Recorder) (settings : Settings) : list string :=
  [ "rec";
    outputFile this settings;
    "--title"; "RepoChief " +:+ scenario settings +:+ " Demo";
    "--idle-time-limit"; "2";
    "--command"; path_join [outputDir this; "demo-script.sh"] ].

Definition startRecording (this : Recorder) (settings : Settings) : M (Proc W) unit :=
  (* Set environment *)
  setenv "DEMO_SCENARIO" (scenario settings);;
  setenv "MOCK_MODE" (toString (mockMode settings));;
  (* Start asciinema recording *)
  e ← gets env;
  c ← act (Spawn "asciinema" (recordCmd this settings) (Some e))
          (host_spawn "asciinema" (recordCmd this settings) (Some e));
  match c with
  | Close code =>
      if bool_decide (code = Some 0)
      then log (RecordingSaved (outputFile this settings));;
           showNextSteps (outputFile this settings) settings
      else throw (mkError "Error" ("Recording failed with code " +:+ show_code code))
  | SpawnError e => throw e
  end.

Definition run (this : Recorder) : M (Proc W) unit :=
  (* Check prerequisites *)
  checkPrerequisites;;
  (* Get recording settings *)
  settings ← getSettings;
  (* Prepare recording *)
  prepareRecording this;;
  (* Start recording *)
  startRecording this settings.

(** Run the recorder:
    [recorder.run().catch(error => { ...; process.exit(1) })]. *)
Definition script : M (Proc W) unit :=
  p ← gets (fun p => p);
  let recorder := constructor p in
  try_catch (run recorder)
    (fun error =>
       log (RecordingFailed (message error));;
       process_exit 1).

End Methods.

(** The demo script of a process: the text [prepareRecording] writes when
    the environment is that of [p]. *)
Definition script_text {W} `{Host W} (p : Proc W) : string :=
  demoScript (or_else (getenv p "DEMO_SCENARIO") "basic")
             (or_else (getenv p "MOCK_MODE") "true")
             (path_join [dirname p; ".."; "src"; "run-demo.js"]).

(** The actions of [prepareRecording]; [there] tells whether the directory
    of the recordings exists. *)
Definition prepare_actions {W} `{Host W} (p : Proc W) (there : bool) : list Action :=
  let this := constructor p in
  let scriptPath := path_join [outputDir this; "demo-script.sh"] in
  [ExistsSync (outputDir this)]
  ++ (if there then [] else [MkdirSync (outputDir this)])
  ++ [WriteFileSync scriptPath (script_text p); ChmodSync scriptPath "755"].

(** The environment once the answers [settings] are written to it. *)
Definition recording_env (e : list (string * string)) (settings : Settings)
  : list (string * string) :=
  assign (assign e "DEMO_SCENARIO" (scenario settings))
         "MOCK_MODE" (toString (mockMode settings)).

(** The actions of a recording that runs to the end of [asciinema], with
    the answers [settings]. *)
Definition recording_actions {W} `{Host W} (p : Proc W) (settings : Settings) (there : bool)
  : list Action :=
  [ Spawn "which" ["asciinema"] None;
    Spawn "which" ["ffmpeg"] None;
    Prompt ["basic"; "fullstack"; "enterprise"] ]
  ++ prepare_actions p there
  ++ [ Spawn "asciinema" (recordCmd (constructor p) settings)
         (Some (recording_env (env p) settings)) ].

(** The files of the recorder: the directory of the recordings, and in it
    the demo script, with the text of the process [p] and the mode 755. *)
Definition own_files {W} `{Host W} (p : Proc W) (a : Action) : Prop :=
  let this := constructor p in
  let scriptPath := path_join [outputDir this; "demo-script.sh"] in
  match a with
  | MkdirSync path => path = outputDir this
  | WriteFileSync path data => path = scriptPath /\ data = script_text p
  | ChmodSync path mode => path = scriptPath /\ mode = "755"
  | _ => True
  end.

(** A studio to run the recorder in: the commands installed, the answers
    of the prompt, the directories there are, the exit code of
    [asciinema], and the files written. *)
Record Studio := mkStudio {
  installed : list string;
  answers : Settings;
  directories : list string;
  exit_code : option Z;
  written : list (string * string)
}.

#[global] Instance studio : Host Studio := {
  host_spawn cmd args _ w :=
    if String.eqb cmd "which"
    then (Close (Some (if forallb (fun a => existsb (String.eqb a) (installed w)) args
                       then 0 else 1)), w)
    else (Close (exit_code w), w);
  host_prompt _ w := (Fulfilled (answers w), w);
  host_existsSync path w := (existsb (String.eqb path) (directories w), w);
  host_mkdirSync path w :=
    (Fulfilled tt,
     mkStudio (installed w) (answers w) (directories w ++ [path]) (exit_code w) (written w));
  host_writeFileSync path data w :=
    (Fulfilled tt,
     mkStudio (installed w) (answers w) (directories w) (exit_code w)
              (assign (written w) path data));
  host_chmodSync _ _ w := (Fulfilled tt, w);
  path_join := String.concat "/"
}.

(** A process of the package at [/pkg], with the environment [e]. *)
Definition studio_process (e : list (string * string)) (w : Studio) : Proc Studio :=
  mkProc "/pkg" "/pkg/scripts" "2025-01-31T09:15:42.123Z" e w [] [].

(** A studio with both commands, where the prompt is answered with the
    enterprise scenario in real mode with audio, and [asciinema] ends with
    [code]; one without [asciinema]. *)
Definition ready (code : option Z) : Studio :=
  mkStudio ["asciinema"; "ffmpeg"] (mkSettings "enterprise" false true) [] code [].

Definition bare : Studio :=
  mkStudio ["ffmpeg"] (mkSettings "basic" true false) [] (Some 0) [].

End RecordDemo.

(* ===================================================================== *)
(** * A scripted world, to run the scripts on concrete inputs             *)
(* ===================================================================== *)

Module Scripted.

(** What the external components answer in one run. *)
Record Script := mkScript {
  prompt_answers : Answers;
  initialize_result : settled unit;
  execution : Execution;
  report : Report;
  shutdown_result : settled unit;
  files : list string;          (* the paths that exist *)
  api_object : CloudAPI
}.

(** The world: the script and what the orchestrator knows so far. *)
Record World := mkWorld {
  script : Script;
  agent_ids : list string;
  task_ids : list string
}.

Definition role_of (t : Template) : string :=
  match t with
  | Preset REQUIREMENTS_ANALYST => "requirements_analyst"
  | Preset SENIOR_DEVELOPER => "senior_developer"
  | Preset QA_ENGINEER => "qa_engineer"
  | Preset CODE_REVIEWER => "code_reviewer"
  | Inline t => role t
  end.

Definition mem (x : string) (l : list string) : bool := existsb (String.eqb x) l.

Definition constant {A} (a : settled A) : World -> settled A * World :=
  fun w => (a, w).

(** Agents get the identifier [agent-<name>]; a task is refused when its
    agent or one of its dependencies is unknown to the orchestrator. *)
#[global] Instance scripted : External World := {
  ext_prompt _ w := (Fulfilled (prompt_answers (script w)), w);
  ext_createOrchestrator _ := constant (Fulfilled tt);
  ext_initialize w := (initialize_result (script w), w);
  ext_createCloudAPI _ w := (Fulfilled (api_object (script w)), w);
  ext_apiStart := constant (Fulfilled tt);
  ext_createAgent cfg w :=
    let a := mkAgent ("agent-" +:+ cfg_name cfg) (cfg_name cfg) (role_of (cfg_template cfg)) in
    (Fulfilled a, mkWorld (script w) (agent_ids w ++ [agent_id a]) (task_ids w));
  ext_queueTask spec w :=
    if mem (agentId spec) (agent_ids w)
       && forallb (fun d => mem d (task_ids w)) (default [] (dependencies spec))
    then (Fulfilled (mkTask (task_id spec) (objective spec)),
          mkWorld (script w) (agent_ids w) (task_ids w ++ [task_id spec]))
    else (Rejected (mkError "Error" ("Cannot queue task " +:+ task_id spec)), w);
  ext_on _ := constant (Fulfilled tt);
  ext_startExecution := constant (Fulfilled tt);
  ext_waitForCompletion w := (execution (script w), w);
  ext_getFinalReport w := (Fulfilled (report (script w)), w);
  ext_shutdown w := (shutdown_result (script w), w);
  ext_apiStop := constant (Fulfilled tt);
  ext_fsAccess path w := (mem path (files (script w)), w)
}.

(** A process that starts in the world of script [s]. *)
Definition process (argv : list string) (env : list (string * string)) (s : Script)
  : Proc World :=
  mkProc argv env (mkWorld s [] []) [] [] 0%nat [].

(** A script in which everything succeeds: [n] tasks, all completed. *)
Definition all_pass (n : Z) : Script :=
  {| prompt_answers := mkAnswers "basic" true None;
     initialize_result := Fulfilled tt;
     execution := mkExecution [] 1000 (Fulfilled tt);
     report := mkReport n n 0;
     shutdown_result := Fulfilled tt;
     files := [];
     api_object := mkCloudAPI true |}.

Definition with_report (r : Report) (s : Script) : Script :=
  mkScript (prompt_answers s) (initialize_result s) (execution s) r
           (shutdown_result s) (files s) (api_object s).

Definition with_execution (x : Execution) (s : Script) : Script :=
  mkScript (prompt_answers s) (initialize_result s) x (report s)
           (shutdown_result s) (files s) (api_object s).

Definition with_files (l : list string) (s : Script) : Script :=
  mkScript (prompt_answers s) (initialize_result s) (execution s) (report s)
           (shutdown_result s) l (api_object s).

Definition with_initialize (r : settled unit) (s : Script) : Script :=
  mkScript (prompt_answers s) r (execution s) (report s)
           (shutdown_result s) (files s) (api_object s).

(** A run of the basic demo in which the third task fails: the promise of
    [waitForCompletion] is fulfilled all the same, and the report counts
    two tasks completed out of three. *)
Definition one_task_fails : Script :=
  let t1 := mkTask "comprehend-todo-api" "Analyze requirements for a RESTful TODO API" in
  let t2 := mkTask "generate-todo-api" "Implement TODO API with Express.js" in
  let t3 := mkTask "test-todo-api" "Write comprehensive tests for TODO API" in
  with_report (mkReport 2 3 1)
    (with_execution
       (mkExecution [taskCompleted t1; taskCompleted t2;
                     taskFailed t3 (mkError "Error" "tests could not be generated")]
                    1000 (Fulfilled tt))
       (all_pass 3)).

(** A run in which the orchestrator does not initialize. *)
Definition initialize_rejects : Script :=
  with_initialize (Rejected (mkError "Error" "Missing API key")) (all_pass 3).

(** The end-to-end check on a run where the three result files exist, the
    three tasks complete, and the gates report the status [eslint] for
    eslint, skipped for complexity and pass for test, after [ms]
    milliseconds. *)
Definition e2e_files : list string :=
  [ ".repochief/artifacts/e2e-test-todo/artifacts/e2e-comprehend-result.json";
    ".repochief/artifacts/e2e-test-todo/artifacts/e2e-generate-result.json";
    ".repochief/artifacts/e2e-test-todo/artifacts/e2e-test-result.json" ].

Definition e2e_events (eslint : string) : list Event :=
  let t1 := mkTask "e2e-comprehend" "Analyze TODO API requirements" in
  let t2 := mkTask "e2e-generate" "Generate TODO API code" in
  let t3 := mkTask "e2e-test" "Generate tests" in
  [ taskCompleted t1;
    qualityGateResult "eslint" eslint t2;
    qualityGateResult "complexity" "skipped" t2;
    taskCompleted t2;
    qualityGateResult "test" "pass" t3;
    taskCompleted t3 ].

Definition e2e_run (eslint : string) (ms : N) : Script :=
  with_files e2e_files
    (with_execution (mkExecution (e2e_events eslint) ms (Fulfilled tt)) (all_pass 3)).

Definition e2e_process (s : Script) : Proc World :=
  process ["node"; "test-e2e.js"] [] s.

(** The tasks the scripted orchestrator returns to the end-to-end check,
    and the state of the check once the execution has started. *)
Definition e2e_tasks : list Task :=
  [ mkTask "e2e-comprehend" "Analyze TODO API requirements";
    mkTask "e2e-generate" "Generate TODO API code";
    mkTask "e2e-test" "Generate tests" ].

Definition e2e_started (s : Script) : TestE2E.State World :=
  (TestE2E.prepare (TestE2E.mkState None (e2e_process s))).2.

(** The arguments of a run that does not prompt. *)
Definition non_interactive : list string := ["node"; "run-demo.js"; "--non-interactive"].

(** The demo of scenario [sc], once [initialize] has run, and once
    [createAgents] has run after it. *)
Definition initialized (sc : string) : RunDemo.State World :=
  (RunDemo.initialize
     (RunDemo.mkState (RunDemo.runner_of sc) (process non_interactive [] (all_pass 5)))).2.

Definition staffed (sc : string) : RunDemo.State World :=
  (RunDemo.createAgents (initialized sc)).2.

(** The plan of scenario [sc] with the agents of the scripted world. *)
Definition scripted_plan (sc : string) : list TaskSpec :=
  RunDemo.taskList (RunDemo.runner_of sc)
    (RunDemo.ident_of (RunDemo.agents (RunDemo.this (staffed sc)))).

(** The same demo once [queueTasks] has run. *)
Definition planned (sc : string) : RunDemo.State World :=
  (RunDemo.queueTasks (staffed sc)).2.

End Scripted.


(* ===================================================================== *)
(** * Traces of the runner: what a computation calls and what it keeps    *)
(* ===================================================================== *)

Module Traces.
Import RunDemo.

(** [m] adds to the calls made so far only calls that satisfy [Q]; [pr]
    reads the process in the state. *)
Definition emits {W S A} (pr : S -> Proc W) (Q : Call -> Prop) (m : M S A) : Prop :=
  forall s r s', m s = (r, s') ->
    exists cs, calls (pr s') = calls (pr s) ++ cs /\ Forall Q cs.

(** [m] leaves the part [f] of the runner as it is. *)
Definition keeps {W A B} (f : Runner -> B) (m : M (State W) A) : Prop :=
  forall s r s', m s = (r, s') -> f (this s') = f (this s).

(** [s1] is [s] after the external call [c] and nothing else: the runner,
    the arguments, the environment, the timers and the console are those
    of [s]. *)
Definition called {W} (c : Call) (s s1 : State W) : Prop :=
  this s1 = this s
  /\ calls (proc s1) = calls (proc s) ++ [c]
  /\ env (proc s1) = env (proc s)
  /\ argv (proc s1) = argv (proc s)
  /\ timers (proc s1) = timers (proc s)
  /\ console (proc s1) = console (proc s).

(** The events [setupEventHandlers] subscribes to, in order. *)
Definition handlers (mock : bool) : list string :=
  ["taskStarted"; "taskProgress"; "taskCompleted"; "taskFailed"; "qualityGateResult"]
  ++ (if mock then [] else ["costUpdate"]).

(** A call that releases what [initialize] has started. *)
Definition releases (c : Call) : Prop := c = Shutdown \/ c = ApiStop.

Section Runner.
Context {W : Type} `{External W}.

(** The steps of the [try] block of [run] that come before [cleanup]. *)
Definition front : M (State W) unit :=
  initialize;;
  createAgents;;
  queueTasks;;
  execute;;
  displayResults.

(** The calls of [initialize], for the runner [r], the cloud API key of the
    environment and the process. *)
Definition initialize_calls (r : Runner) (key : option string) : list Call :=
  [ CreateOrchestrator
      (mkOrchestratorConfig ("todo-demo-" +:+ scenario r) (budget r) (mockMode r));
    Initialize;
    CreateCloudAPI (mkApiConfig 3456 (or_else key "demo-key-12345"));
    ApiStart ].

(** The calls of a [try] block of [run] that returns: [r] is the runner it
    starts with, [key] the API key of the environment, [a] the cloud API it
    got and [g] the agents it got. *)
Definition attempt_calls (r : Runner) (key : option string) (a : CloudAPI) (g : Agents)
  : list Call :=
  initialize_calls r key
  ++ map CreateAgent (swarm r)
  ++ map QueueTask (taskList r (ident_of g))
  ++ map On (handlers (mockMode r))
  ++ [StartExecution; WaitForCompletion; GetFinalReport; Shutdown]
  ++ (if has_stop a then [ApiStop] else []).

(** [queueTasks] as a loop: for each entry, in order, read the agent of
    the slot, then queue the task made for it. *)
Fixpoint queue_all (l : list (Role * (string -> TaskSpec))) : M (State W) unit :=
  match l with
  | [] => ret tt
  | (ro, task) :: rest =>
      id ← agent_id_of (slot ro);
      queueTask (task id);;
      queue_all rest
  end.

End Runner.

(** The slots and the tasks of [queueTasks], in its order. *)
Definition entries (r : Runner) : list (Role * (string -> TaskSpec)) :=
  [ (Analyst, task1 r); (Developer, task2 r); (Tester, task3) ]
  ++ (if negb (String.eqb (scenario r) "basic")
      then [ (Reviewer, task4); (Frontend, task5) ]
      else []).

(** A call that gives the orchestrator a budget gives it a number other
    than 0 and NaN. *)
Definition funded (c : Call) : Prop :=
  match c with
  | CreateOrchestrator cfg => truthy (totalBudget cfg) = true
  | _ => True
  end.

(** From [s], [m] ends with a usable budget in the runner and has made
    funded calls only. *)
Definition sound {W A} (m : M (State W) A) (s : State W) : Prop :=
  forall r s', m s = (r, s') ->
    truthy (budget (this s')) = true
    /\ exists cs, calls (proc s') = calls (proc s) ++ cs /\ Forall funded cs.

(** The task of an entry, for the agents [g]. *)
Definition task_of (g : Agents) (e : Role * (string -> TaskSpec)) : TaskSpec :=
  e.2 (ident_of g e.1).

End Traces.

(* ===================================================================== *)
(** * More runs on the scripted world                                     *)
(* ===================================================================== *)

Module Samples.
Import Scripted.

(** The demo of scenario [sc] in real mode, before [initialize]. *)
Definition fresh (sc : string) (s : Script) : RunDemo.State World :=
  RunDemo.mkState
    (RunDemo.constructor
       (Some (RunDemo.mkOptions (Some sc) (Some false) (Some (Num 25)) None)))
    (process non_interactive [("REPOCHIEF_API_KEY", "key-1")] s).

(** A run in which the execution fails as a whole: the promise of
    [waitForCompletion] is rejected. *)
Definition execution_rejects : Script :=
  with_execution (mkExecution [] 2000 (Rejected (mkError "Error" "Budget exceeded")))
    (all_pass 3).

(** An orchestrator with a cap on the token budget of a task: it is the
    scripted one, except that it rejects a task whose [maxTokens] is above
    the cap. *)
Record Capped := mkCapped { cap : Z; inner : World }.

Definition under {A} (f : World -> A * World) (w : Capped) : A * Capped :=
  let '(a, w') := f (inner w) in (a, mkCapped (cap w) w').

#[global] Instance capped : External Capped := {
  ext_prompt choices := under (ext_prompt choices);
  ext_createOrchestrator cfg := under (ext_createOrchestrator cfg);
  ext_initialize := under ext_initialize;
  ext_createCloudAPI cfg := under (ext_createCloudAPI cfg);
  ext_apiStart := under ext_apiStart;
  ext_createAgent cfg := under (ext_createAgent cfg);
  ext_queueTask spec w :=
    if maxTokens spec <=? cap w
    then under (ext_queueTask spec) w
    else (Rejected (mkError "Error" ("Token budget exceeded by " +:+ task_id spec)), w);
  ext_on event := under (ext_on event);
  ext_startExecution := under ext_startExecution;
  ext_waitForCompletion := under ext_waitForCompletion;
  ext_getFinalReport := under ext_getFinalReport;
  ext_shutdown := under ext_shutdown;
  ext_apiStop := under ext_apiStop;
  ext_fsAccess path := under (ext_fsAccess path)
}.

(** The demo of scenario [sc] under a cap of [n] tokens, once the agents
    are created. *)
Definition capped_fresh (sc : string) (n : Z) : RunDemo.State Capped :=
  RunDemo.mkState (RunDemo.runner_of sc)
    (mkProc non_interactive [] (mkCapped n (mkWorld (all_pass 5) [] [])) [] [] 0%nat []).

Definition capped_initialized (sc : string) (n : Z) : RunDemo.State Capped :=
  (RunDemo.initialize (capped_fresh sc n)).2.

(** A start of the script without arguments, with an environment that asks
    for an unknown scenario and a budget of 0, and a prompt answered with
    the basic scenario in mock mode. *)
Definition prompted : Proc World :=
  process ["node"; "run-demo.js"]
    [("DEMO_SCENARIO", "staging"); ("DEMO_BUDGET", "0"); ("MOCK_MODE", "false")]
    (all_pass 3).

Definition capped_staffed (sc : string) (n : Z) : RunDemo.State Capped :=
  (RunDemo.createAgents (capped_initialized sc n)).2.

(** The end-to-end check that passes, on a cloud API without a [stop]
    method. *)
Definition no_stop : Script :=
  let s := e2e_run "pass" 1000 in
  mkScript (prompt_answers s) (initialize_result s) (execution s) (report s)
           (shutdown_result s) (files s) (mkCloudAPI false).

End Samples.

(** ** Frames of the end-to-end check *)

Module CheckTraces.
Import TestE2E.

(** [m] leaves the variable [api] of the check as it is and adds to the
    calls made so far only calls that satisfy [Q]. *)
Definition holds {W A} (Q : Call -> Prop) (m : M (State W) A) : Prop :=
  forall s r s', m s = (r, s') ->
    api s' = api s
    /\ exists cs, calls (proc s') = calls (proc s) ++ cs /\ Forall Q cs.

(** What [runE2ETest] resolves with when its [try] block ends as [r]. *)
Definition resolution (r : result bool) : bool :=
  match r with Ok b => b | _ => false end.

(** The path of a result file of the session. *)
Definition artifact (file : string) : string :=
  sessionDir +:+ "/artifacts/" +:+ file.

End CheckTraces.

(* ===================================================================== *)
(** * Properties                                                          *)
(* ===================================================================== *)

(** ** Stepping through a computation *)

Section Stepping.
Context {S : Type}.

Lemma bind_Ok {A B} (m : M S A) (k : A -> M S B) s b s2 :
  (m ≫= k) s = (Ok b, s2) ->
  exists a s1, m s = (Ok a, s1) /\ k a s1 = (Ok b, s2).
Proof.
  unfold mbind, M_bind, bind. destruct (m s) as [[a|e|t] s1]; intros E.
  - exists a, s1. split; [reflexivity | exact E].
  - discriminate.
  - discriminate.
Qed.

Lemma bind_step {A B} (m : M S A) (k : A -> M S B) s a s1 :
  m s = (Ok a, s1) -> (m ≫= k) s = k a s1.
Proof. intros E. unfold mbind, M_bind, bind. rewrite E. reflexivity. Qed.

Lemma bind_Throw {A B} (m : M S A) (k : A -> M S B) s e s1 :
  m s = (Throw e, s1) -> (m ≫= k) s = (Throw e, s1).
Proof. intros E. unfold mbind, M_bind, bind. rewrite E. reflexivity. Qed.

Lemma bind_Halt {A B} (m : M S A) (k : A -> M S B) s t s1 :
  m s = (Halt t, s1) -> (m ≫= k) s = (Halt t, s1).
Proof. intros E. unfold mbind, M_bind, bind. rewrite E. reflexivity. Qed.

Lemma try_catch_Ok {A} (body : M S A) h s a s1 :
  body s = (Ok a, s1) -> try_catch body h s = (Ok a, s1).
Proof. intros E. unfold try_catch. rewrite E. reflexivity. Qed.

Lemma try_catch_Throw {A} (body : M S A) h s e s1 :
  body s = (Throw e, s1) -> try_catch body h s = h e s1.
Proof. intros E. unfold try_catch. rewrite E. reflexivity. Qed.

Lemma try_catch_Halt {A} (body : M S A) h s t s1 :
  body s = (Halt t, s1) -> try_catch body h s = (Halt t, s1).
Proof. intros E. unfold try_catch. rewrite E. reflexivity. Qed.

Lemma try_finally_Ok {A} (body : M S A) final s a s1 s2 :
  body s = (Ok a, s1) -> final s1 = (Ok tt, s2) ->
  try_finally body final s = (Ok a, s2).
Proof. intros E F. unfold try_finally. rewrite E, F. reflexivity. Qed.

Lemma try_finally_Halt {A} (body : M S A) final s t s1 :
  body s = (Halt t, s1) -> try_finally body final s = (Halt t, s1).
Proof. intros E. unfold try_finally. rewrite E. reflexivity. Qed.

Lemma gets_run {A} (f : S -> A) s : gets f s = (Ok (f s), s).
Proof. reflexivity. Qed.

Lemma when_true (m : M S unit) : when true m = m.
Proof. reflexivity. Qed.

Lemma when_false (m : M S unit) s : when false m s = (Ok tt, s).
Proof. reflexivity. Qed.

End Stepping.

(** ** What [createAgents] and [queueTasks] hand to the orchestrator *)

Module PlanFacts.
Import RunDemo.

Lemma queued_app (cs ds : list Call) : queued (cs ++ ds) = queued cs ++ queued ds.
Proof. apply omap_app. Qed.

Lemma created_app (cs ds : list Call) : created (cs ++ ds) = created cs ++ created ds.
Proof. apply omap_app. Qed.

Lemma queued_map (l : list TaskSpec) : queued (map QueueTask l) = l.
Proof. induction l as [|x xs IH]; [reflexivity|]. cbn. f_equal. exact IH. Qed.

Section Refinement.
Context {W : Type} `{External W}.

Lemma agent_id_of_Ok (sl : Agents -> option Agent) (s s1 : State W) id :
  agent_id_of sl s = (Ok id, s1) ->
  s1 = s /\ exists a, sl (agents (this s)) = Some a /\ id = agent_id a.
Proof.
  unfold agent_id_of. intros E. apply bind_Ok in E as (a & s0 & E0 & E1).
  rewrite gets_run in E0. injection E0 as <- <-.
  destruct (sl (agents (this s))) as [a|]; [|discriminate].
  injection E1 as <- <-. split; [reflexivity|]. exists a. split; reflexivity.
Qed.

(** A method of the orchestrator that returns has made its call, and
    nothing else. *)
Lemma on_orchestrator_perform_Ok {A} method c (op : W -> settled A * W)
    (s s1 : State W) a :
  on_orchestrator method (perform c op) s = (Ok a, s1) ->
  this s1 = this s /\ calls (proc s1) = calls (proc s) ++ [c].
Proof.
  unfold on_orchestrator. intros E.
  apply bind_Ok in E as (o & s0 & E0 & E1).
  rewrite gets_run in E0. injection E0 as <- <-.
  destruct (orchestrator (this s)); [|discriminate].
  unfold lift, perform in E1.
  destruct (op (world (proc s))) as [[a'|e] w]; [|discriminate].
  injection E1 as <- <-. split; reflexivity.
Qed.

Lemma queueTask_Ok spec (s s1 : State W) t :
  queueTask spec s = (Ok t, s1) ->
  this s1 = this s /\ calls (proc s1) = calls (proc s) ++ [QueueTask spec].
Proof. apply on_orchestrator_perform_Ok. Qed.

Lemma createAgent_Ok name template (s s1 : State W) a :
  createAgent name template s = (Ok a, s1) ->
  this s1 = this s
  /\ calls (proc s1) = calls (proc s) ++ [CreateAgent (mkAgentConfig name template 2)].
Proof. apply on_orchestrator_perform_Ok. Qed.

Lemma update_run f (s : State W) : update f s = (Ok tt, mkState (f (this s)) (proc s)).
Proof. reflexivity. Qed.

(** When [createAgents] returns, it has asked for the swarm of the runner
    and filled a slot with each agent it got. *)
Lemma createAgents_calls (s s1 : State W) :
  createAgents s = (Ok tt, s1) ->
  scenario (this s1) = scenario (this s)
  /\ calls (proc s1) = calls (proc s) ++ map CreateAgent (swarm (this s))
  /\ Forall (fun ro => is_Some (slot ro (agents (this s1)))) (roles (this s)).
Proof.
  unfold createAgents. intros E.
  apply bind_Ok in E as (a & sa & E0 & E). apply createAgent_Ok in E0 as (Ta & Ca).
  apply bind_Ok in E as ([] & s0 & E0 & E). rewrite update_run in E0. injection E0 as <-.
  apply bind_Ok in E as (d & sd & E0 & E). apply createAgent_Ok in E0 as (Td & Cd).
  apply bind_Ok in E as ([] & s0 & E0 & E). rewrite update_run in E0. injection E0 as <-.
  apply bind_Ok in E as (t & st & E0 & E). apply createAgent_Ok in E0 as (Tt & Ct).
  apply bind_Ok in E as ([] & s0 & E0 & E). rewrite update_run in E0. injection E0 as <-.
  apply bind_Ok in E as (r & s0 & E0 & E). rewrite gets_run in E0. injection E0 as <- <-.
  cbn [this proc] in *. rewrite Tt in *. cbn [this proc] in *. rewrite Td in *.
  cbn [this proc] in *. rewrite Ta in *.
  unfold swarm, roles. cbn [scenario set_agents] in E |- *.
  destruct (negb (String.eqb (scenario (this s)) "basic")).
  - rewrite when_true in E.
    apply bind_Ok in E as (v & sv & E0 & E). apply createAgent_Ok in E0 as (Tv & Cv).
    apply bind_Ok in E as ([] & s0 & E0 & E). rewrite update_run in E0. injection E0 as <-.
    apply bind_Ok in E as (f & sf & E0 & E). apply createAgent_Ok in E0 as (Tf & Cf).
    rewrite update_run in E. injection E as <-.
    cbn [this proc] in *. rewrite Tf. cbn [this proc] in *. rewrite Tv.
    cbn. split; [reflexivity|]. split.
    + rewrite Cf. cbn [proc]. rewrite Cv. cbn [proc]. rewrite Ct, Cd, Ca.
      rewrite <- !app_assoc. reflexivity.
    + repeat constructor; eexists; reflexivity.
  - rewrite when_false in E. injection E as <-.
    cbn. split; [reflexivity|]. split.
    + rewrite Ct, Cd, Ca. rewrite <- !app_assoc. reflexivity.
    + repeat constructor; eexists; reflexivity.
Qed.

(** When [queueTasks] returns, the calls it has made are the plan of the
    runner, with the identifiers of the agents in its slots, and these
    slots are filled. *)
Lemma queueTasks_calls (s s1 : State W) :
  queueTasks s = (Ok tt, s1) ->
  this s1 = this s
  /\ calls (proc s1)
     = calls (proc s) ++ map QueueTask (taskList (this s) (ident_of (agents (this s))))
  /\ Forall (fun ro => is_Some (slot ro (agents (this s)))) (roles (this s)).
Proof.
  unfold queueTasks. intros E.
  apply bind_Ok in E as (r & s0 & E0 & E). rewrite gets_run in E0. injection E0 as <- <-.
  apply bind_Ok in E as (ia & s0 & E0 & E).
  apply agent_id_of_Ok in E0 as (-> & a & Ha & ->).
  apply bind_Ok in E as (t1 & sa & E0 & E). apply queueTask_Ok in E0 as (Ta & Qa).
  apply bind_Ok in E as (id & s0 & E0 & E).
  apply agent_id_of_Ok in E0 as (-> & d & Hd & ->). rewrite Ta in Hd.
  apply bind_Ok in E as (t2 & sd & E0 & E). apply queueTask_Ok in E0 as (Td & Qd).
  apply bind_Ok in E as (it & s0 & E0 & E).
  apply agent_id_of_Ok in E0 as (-> & t & Ht & ->). rewrite Td, Ta in Ht.
  apply bind_Ok in E as (t3 & st & E0 & E). apply queueTask_Ok in E0 as (Tt & Qt).
  unfold taskList, roles, ident_of. cbn [slot]. rewrite Ha, Hd, Ht.
  destruct (negb (String.eqb (scenario (this s)) "basic")).
  - rewrite when_true in E.
    apply bind_Ok in E as (iv & s0 & E0 & E).
    apply agent_id_of_Ok in E0 as (-> & v & Hv & ->). rewrite Tt, Td, Ta in Hv.
    apply bind_Ok in E as (t4 & sv & E0 & E). apply queueTask_Ok in E0 as (Tv & Qv).
    apply bind_Ok in E as (ifr & s0 & E0 & E).
    apply agent_id_of_Ok in E0 as (-> & f & Hf & ->). rewrite Tv, Tt, Td, Ta in Hf.
    apply bind_Ok in E as (t5 & sf & E0 & E). apply queueTask_Ok in E0 as (Tf & Qf).
    injection E as <-.
    rewrite Hv, Hf. split; [congruence|]. split.
    + rewrite Qf, Qv, Qt, Qd, Qa. cbn [map app]. rewrite <- !app_assoc. reflexivity.
    + repeat constructor; eexists; eassumption.
  - rewrite when_false in E. injection E as <-.
    split; [congruence|]. split.
    + rewrite Qt, Qd, Qa. cbn [map app]. rewrite <- !app_assoc. reflexivity.
    + repeat constructor; eexists; eassumption.
Qed.

(** The tasks a returning [queueTasks] has queued are its plan. *)
Lemma queues_plan (s : State W) l :
  queues s l ->
  l = taskList (this s) (ident_of (agents (this s)))
  /\ Forall (fun ro => is_Some (slot ro (agents (this s)))) (roles (this s)).
Proof.
  intros (s1 & E & Q). apply queueTasks_calls in E as (_ & C & F).
  split; [|exact F].
  rewrite C, queued_app, queued_map in Q. apply app_inv_head in Q.
  symmetry. exact Q.
Qed.

(** Conversely [queueTasks] returns when the orchestrator is there, the
    slots of the scenario are filled and the orchestrator accepts every
    task. *)
Lemma agent_id_of_run (sl : Agents -> option Agent) (s : State W) a :
  sl (agents (this s)) = Some a -> agent_id_of sl s = (Ok (agent_id a), s).
Proof.
  intros E. unfold agent_id_of. erewrite bind_step by apply gets_run.
  rewrite E. reflexivity.
Qed.

Lemma queueTask_run spec (s : State W) :
  orchestrator (this s) = Some tt ->
  (forall spec w, exists t w', ext_queueTask spec w = (Fulfilled t, w')) ->
  exists t s1, queueTask spec s = (Ok t, s1) /\ this s1 = this s.
Proof.
  intros Ho Hacc. destruct (Hacc spec (world (proc s))) as (t & w' & E).
  unfold queueTask, on_orchestrator. erewrite bind_step by apply gets_run.
  rewrite Ho. unfold lift, perform. rewrite E. eexists _, _. split; reflexivity.
Qed.

Lemma queueTasks_returns (s : State W) :
  orchestrator (this s) = Some tt ->
  Forall (fun ro => is_Some (slot ro (agents (this s)))) (roles (this s)) ->
  (forall spec w, exists t w', ext_queueTask spec w = (Fulfilled t, w')) ->
  exists s1, queueTasks s = (Ok tt, s1).
Proof.
  intros Ho Hslots Hacc. unfold roles in Hslots.
  apply Forall_app in Hslots as [Hcore Hmore].
  apply Forall_cons_1 in Hcore as [[a Ha] Hcore].
  apply Forall_cons_1 in Hcore as [[d Hd] Hcore].
  apply Forall_cons_1 in Hcore as [[t Ht] _]. cbn [slot] in Ha, Hd, Ht.
  unfold queueTasks. erewrite bind_step by apply gets_run.
  erewrite bind_step by (apply agent_id_of_run; exact Ha).
  destruct (queueTask_run (task1 (this s) (agent_id a)) s Ho Hacc) as (q1 & s1 & E1 & T1).
  erewrite bind_step by exact E1.
  erewrite bind_step by (apply agent_id_of_run; rewrite T1; exact Hd).
  destruct (queueTask_run (task2 (this s) (agent_id d)) s1 ltac:(congruence) Hacc)
    as (q2 & s2 & E2 & T2).
  erewrite bind_step by exact E2.
  erewrite bind_step by (apply agent_id_of_run; rewrite T2, T1; exact Ht).
  destruct (queueTask_run (task3 (agent_id t)) s2 ltac:(congruence) Hacc)
    as (q3 & s3 & E3 & T3).
  erewrite bind_step by exact E3.
  destruct (negb (String.eqb (scenario (this s)) "basic")).
  - apply Forall_cons_1 in Hmore as [[v Hv] Hmore].
    apply Forall_cons_1 in Hmore as [[f Hf] _]. cbn [slot] in Hv, Hf.
    rewrite when_true.
    erewrite bind_step by (apply agent_id_of_run; rewrite T3, T2, T1; exact Hv).
    destruct (queueTask_run (task4 (agent_id v)) s3 ltac:(congruence) Hacc)
      as (q4 & s4 & E4 & T4).
    erewrite bind_step by exact E4.
    erewrite bind_step by (apply agent_id_of_run; rewrite T4, T3, T2, T1; exact Hf).
    destruct (queueTask_run (task5 (agent_id f)) s4 ltac:(congruence) Hacc)
      as (q5 & s5 & E5 & T5).
    erewrite bind_step by exact E5. eexists. reflexivity.
  - rewrite when_false. eexists. reflexivity.
Qed.

End Refinement.

End PlanFacts.

(** ** Task lists whose dependencies point backwards have no cycle *)

Module GraphFacts.
Import RunDemo.

Lemma rank_in x pre rest : In x pre -> (rank x (pre ++ rest) < length pre)%nat.
Proof.
  induction pre as [|y pre IH]; cbn; [tauto|]. intros [->|Hin].
  - rewrite String.eqb_refl. lia.
  - destruct (String.eqb x y); [lia|]. specialize (IH Hin). lia.
Qed.

Lemma rank_first x pre post : ~ In x pre -> rank x (pre ++ x :: post) = length pre.
Proof.
  induction pre as [|y pre IH]; cbn; intros Hn.
  - rewrite String.eqb_refl. reflexivity.
  - destruct (String.eqb_spec x y) as [->|_]; [tauto|].
    rewrite IH; [reflexivity|tauto].
Qed.

Lemma existsb_eqb_In d (l : list string) :
  existsb (String.eqb d) l = true -> In d l.
Proof.
  rewrite existsb_exists. intros (x & Hin & E).
  apply String.eqb_eq in E. subst. exact Hin.
Qed.

(** What [refs_earlier] checks: the dependencies of a task are among the
    ids seen before it. *)
Lemma refs_earlier_spec l : forall seen,
  refs_earlier seen l = true ->
  forall pre t post, l = pre ++ t :: post ->
  forall d, In d (deps t) -> In d (seen ++ map task_id pre).
Proof.
  induction l as [|x l IH]; intros seen Hr pre t post E d Hd.
  - destruct pre; discriminate.
  - cbn in Hr. apply andb_prop in Hr as [Hx Hl].
    destruct pre as [|y pre]; cbn in E; injection E as -> ->.
    + cbn. rewrite app_nil_r. rewrite forallb_forall in Hx.
      apply existsb_eqb_In, Hx, Hd.
    + specialize (IH _ Hl pre t post eq_refl d Hd).
      cbn. rewrite <- app_assoc in IH. exact IH.
Qed.

Section Ranked.
Variable l : list TaskSpec.
Hypothesis unique : List.NoDup (map task_id l).
Hypothesis backward : refs_earlier [] l = true.

Lemma depends_decreases t u : depends l t u -> (position l u < position l t)%nat.
Proof.
  intros (Ht & _ & Hd). apply in_split in Ht as (pre & post & E).
  pose proof (refs_earlier_spec l [] backward pre t post E _ Hd) as Hin.
  cbn in Hin. unfold position. rewrite E in unique |- *.
  rewrite map_app in unique |- *. cbn [map] in unique |- *.
  apply NoDup_remove_2 in unique.
  rewrite (rank_first (task_id t)).
  - apply rank_in. exact Hin.
  - intros Hp. apply unique. apply in_or_app. left. exact Hp.
Qed.

Lemma reach_decreases t u :
  clos_trans TaskSpec (depends l) t u -> (position l u < position l t)%nat.
Proof.
  induction 1 as [t u Hd | t v u _ IH1 _ IH2].
  - apply depends_decreases. exact Hd.
  - lia.
Qed.

Lemma backward_acyclic : acyclic l.
Proof. intros t Hc. apply reach_decreases in Hc. lia. Qed.

End Ranked.

End GraphFacts.

(** ** The scenario task planner *)

Module Planner.
Import RunDemo PlanFacts GraphFacts.

(** The plan reads the runner through its scenario only. *)
Lemma taskList_scenario (r1 r2 : Runner) ident :
  scenario r1 = scenario r2 -> taskList r1 ident = taskList r2 ident.
Proof.
  intros E. unfold taskList, task1, task2, getRequirementsDescription,
    getApiSuccessCriteria.
  rewrite E. reflexivity.
Qed.

Lemma roles_scenario (r1 r2 : Runner) :
  scenario r1 = scenario r2 -> roles r1 = roles r2.
Proof. intros E. unfold roles. rewrite E. reflexivity. Qed.

Lemma swarm_scenario (r1 r2 : Runner) :
  scenario r1 = scenario r2 -> swarm r1 = swarm r2.
Proof. intros E. unfold swarm. rewrite E. reflexivity. Qed.

Lemma scenario_runner_of sc : sc <> "" -> scenario (runner_of sc) = sc.
Proof. destruct sc; [congruence|reflexivity]. Qed.

(** Every task of a plan goes to the agent of its slot. *)
Lemma taskList_agents r ident : map agentId (taskList r ident) = map ident (roles r).
Proof.
  unfold taskList, roles.
  destruct (negb (String.eqb (scenario r) "basic")); reflexivity.
Qed.

(** The agent aside, a plan does not depend on the identifiers. *)
Lemma taskList_content r ident1 ident2 :
  map content (taskList r ident1) = map content (taskList r ident2).
Proof.
  unfold taskList.
  destruct (negb (String.eqb (scenario r) "basic")); reflexivity.
Qed.

Section Runs.
Context {W : Type} `{External W}.

(** Reduce the tasks queued from [s] to the plan of a known scenario. *)
Lemma queues_scenario (s : State W) l sc :
  queues s l -> scenario (this s) = sc -> sc <> "" ->
  l = taskList (runner_of sc) (ident_of (agents (this s))).
Proof.
  intros Q E Hsc. apply queues_plan in Q as [-> _].
  apply taskList_scenario. rewrite scenario_runner_of by exact Hsc. exact E.
Qed.


End Runs.


Lemma taskList_ident r ident1 ident2 :
  (forall ro, In ro (roles r) -> ident1 ro = ident2 ro) ->
  taskList r ident1 = taskList r ident2.
Proof.
  unfold taskList, roles. intros E.
  destruct (negb (String.eqb (scenario r) "basic")); cbn in E |- *.
  - rewrite (E Analyst), (E Developer), (E Tester), (E Reviewer), (E Frontend)
      by tauto. reflexivity.
  - rewrite (E Analyst), (E Developer), (E Tester) by tauto. reflexivity.
Qed.

Section Scenarios.
Context {W : Type} `{External W}.

(** C4. For the enterprise scenario a [queueTasks] that returns has queued
    exactly five tasks; validate-todo-api depends on exactly
    generate-todo-api and test-todo-api, and generate-todo-frontend on
    exactly generate-todo-api. *)
Theorem enterprise_five_tasks (s : State W) (l : list TaskSpec) :
  scenario (this s) = "enterprise" ->
  queues s l ->
  length l = 5%nat
  /\ map (fun t => (task_id t, dependencies t)) l
     = [ ("comprehend-todo-api", None);
         ("generate-todo-api", Some ["comprehend-todo-api"]);
         ("test-todo-api", Some ["generate-todo-api"]);
         ("validate-todo-api", Some ["generate-todo-api"; "test-todo-api"]);
         ("generate-todo-frontend", Some ["generate-todo-api"]) ].
Proof.
  intros Hs Q.
  apply (queues_scenario _ _ "enterprise") in Q; [|exact Hs|discriminate].
  subst l. split; reflexivity.
Qed.

(** The plans of the three scenarios are well formed, whatever the
    identifiers of the agents. *)
Lemma taskList_well_formed sc ident :
  In sc ["basic"; "fullstack"; "enterprise"] ->
  let l := taskList (runner_of sc) ident in
  l <> []
  /\ List.NoDup (map task_id l)
  /\ refs_earlier [] l = true.
Proof.
  intros Hin l. subst l.
  destruct Hin as [<-|[<-|[<-|[]]]];
    (split; [discriminate|]; split; [|reflexivity];
     repeat constructor; cbn; intuition discriminate).
Qed.

(** C5. For each of the three scenarios, the task list a returning
    [queueTasks] has queued is not empty, its task ids are pairwise
    distinct, every dependency of every task is the id of a task earlier in
    the list, and no task reaches itself along dependencies. *)
Theorem plan_well_formed (s : State W) (l : list TaskSpec) :
  In (scenario (this s)) ["basic"; "fullstack"; "enterprise"] ->
  queues s l ->
  l <> []
  /\ List.NoDup (map task_id l)
  /\ (forall pre t post d,
        l = pre ++ t :: post -> In d (deps t) -> In d (map task_id pre))
  /\ acyclic l.
Proof.
  intros Hin Q.
  assert (Hne : scenario (this s) <> "")
    by (destruct Hin as [<-|[<-|[<-|[]]]]; discriminate).
  apply (queues_scenario _ _ _ Q eq_refl) in Hne. subst l.
  destruct (taskList_well_formed _ (ident_of (agents (this s))) Hin)
    as (Hnil & Hdup & Hback).
  split; [exact Hnil|]. split; [exact Hdup|]. split.
  - intros pre t post d E Hd.
    exact (refs_earlier_spec _ [] Hback pre t post E d Hd).
  - apply backward_acyclic; assumption.
Qed.

(** C2. The task ids of the basic list are task ids of the fullstack list.
    The enterprise list has the ids and the dependency lists of the
    fullstack list, task by task; agents aside, its tasks differ from the
    fullstack ones only in the description and the success criteria, and
    only on comprehend-todo-api and generate-todo-api, which are both in
    the list: the description of comprehend-todo-api is the fullstack one
    with a text that is not empty appended, and the success criteria of
    generate-todo-api are the fullstack ones with criteria appended, at
    least one. *)
Theorem scenario_extension (sb sf se : State W) (lb lf le : list TaskSpec) :
  scenario (this sb) = "basic" ->
  scenario (this sf) = "fullstack" ->
  scenario (this se) = "enterprise" ->
  queues sb lb -> queues sf lf -> queues se le ->
  incl (map task_id lb) (map task_id lf)
  /\ map task_id le = map task_id lf
  /\ map dependencies le = map dependencies lf
  /\ Forall2 (fun e f =>
                structure (content e) = structure (content f)
                /\ augments e f
                /\ (task_id e = "comprehend-todo-api" ->
                    grows String.append EmptyString (description e) (description f)
                    /\ successCriteria e = successCriteria f)
                /\ (task_id e = "generate-todo-api" ->
                    grows (@app string) [] (successCriteria e) (successCriteria f)
                    /\ description e = description f)
                /\ (task_id e <> "comprehend-todo-api" ->
                    task_id e <> "generate-todo-api" ->
                    content e = content f)) le lf
  /\ In "comprehend-todo-api" (map task_id le)
  /\ In "generate-todo-api" (map task_id le)
  /\ map content le <> map content lf.
Proof.
  intros Hb Hf He Qb Qf Qe.
  apply (queues_scenario _ _ "basic") in Qb; [|exact Hb|discriminate].
  apply (queues_scenario _ _ "fullstack") in Qf; [|exact Hf|discriminate].
  apply (queues_scenario _ _ "enterprise") in Qe; [|exact He|discriminate].
  subst lb lf le. split.
  { intros x. cbn. tauto. }
  split; [reflexivity|]. split; [reflexivity|].
  split; [|split; [cbn; tauto|split; [cbn; tauto|discriminate]]].
  repeat (apply List.Forall2_cons || apply List.Forall2_nil);
    (split; [reflexivity|]);
    (split; [split; cbn; try exact I; eexists; reflexivity|]);
    (split; [cbn [task_id task1 task2 task3 task4 task5]; intros E;
             try discriminate E;
             (split; [cbn; eexists; split; [reflexivity|vm_compute; discriminate]
                     |reflexivity])|]);
    (split; [cbn [task_id task1 task2 task3 task4 task5]; intros E;
             try discriminate E;
             (split; [cbn; eexists; split; [reflexivity|vm_compute; discriminate]
                     |reflexivity])|]);
    cbn; intros; first [congruence|reflexivity].
Qed.

End Scenarios.

(** C6. The tasks queued are a function of the scenario: two runs of
    [queueTasks] that return, in any two worlds and from any two states
    with the same scenario, have queued the same tasks (ids, types,
    objectives, descriptions, dependencies, context, criteria, checks,
    gates and token budgets), given in both runs to the agents of the same
    slots; with the same agents in these slots the two lists are equal. *)
Theorem plan_deterministic {W1 W2 : Type} `{External W1} `{External W2}
    (s1 : State W1) (s2 : State W2) (l1 l2 : list TaskSpec) :
  scenario (this s1) = scenario (this s2) ->
  queues s1 l1 -> queues s2 l2 ->
  map content l1 = map content l2
  /\ roles (this s1) = roles (this s2)
  /\ map agentId l1 = map (ident_of (agents (this s1))) (roles (this s1))
  /\ map agentId l2 = map (ident_of (agents (this s2))) (roles (this s2))
  /\ ((forall ro, In ro (roles (this s1)) ->
         ident_of (agents (this s1)) ro = ident_of (agents (this s2)) ro) ->
      l1 = l2).
Proof.
  intros E Q1 Q2.
  apply queues_plan in Q1 as [-> _]. apply queues_plan in Q2 as [-> _].
  split.
  { rewrite (taskList_scenario _ _ _ E). apply taskList_content. }
  split; [apply roles_scenario, E|].
  split; [apply taskList_agents|]. split; [apply taskList_agents|].
  intros Hid. rewrite (taskList_scenario _ _ _ E).
  apply taskList_ident. intros ro Hro. apply Hid.
  rewrite (roles_scenario _ _ E). exact Hro.
Qed.

(** ** The three demos on the scripted world *)

Lemma scripted_queues_basic : queues (Scripted.staffed "basic") (Scripted.scripted_plan "basic").
Proof. eexists. split; vm_compute; reflexivity. Defined.

Lemma scripted_queues_fullstack :
  queues (Scripted.staffed "fullstack") (Scripted.scripted_plan "fullstack").
Proof. eexists. split; vm_compute; reflexivity. Defined.

Lemma scripted_queues_enterprise :
  queues (Scripted.staffed "enterprise") (Scripted.scripted_plan "enterprise").
Proof. eexists. split; vm_compute; reflexivity. Defined.

(** A second [queueTasks], after the first, queues the same tasks again. *)
Lemma scripted_queues_again :
  queues (Scripted.planned "enterprise") (Scripted.scripted_plan "enterprise").
Proof. eexists. split; vm_compute; reflexivity. Defined.

Lemma enterprise_five_tasks_witness :
  length (Scripted.scripted_plan "enterprise") = 5%nat
  /\ map (fun t => (task_id t, dependencies t)) (Scripted.scripted_plan "enterprise")
     = [ ("comprehend-todo-api", None);
         ("generate-todo-api", Some ["comprehend-todo-api"]);
         ("test-todo-api", Some ["generate-todo-api"]);
         ("validate-todo-api", Some ["generate-todo-api"; "test-todo-api"]);
         ("generate-todo-frontend", Some ["generate-todo-api"]) ].
Proof.
  apply (enterprise_five_tasks (Scripted.staffed "enterprise")).
  - vm_compute; reflexivity.
  - exact scripted_queues_enterprise.
Defined.

Lemma plan_well_formed_witness :
  Scripted.scripted_plan "fullstack" <> []
  /\ List.NoDup (map task_id (Scripted.scripted_plan "fullstack"))
  /\ (forall pre t post d,
        Scripted.scripted_plan "fullstack" = pre ++ t :: post ->
        In d (deps t) -> In d (map task_id pre))
  /\ acyclic (Scripted.scripted_plan "fullstack").
Proof.
  apply (plan_well_formed (Scripted.staffed "fullstack")).
  - vm_compute. right. left. reflexivity.
  - exact scripted_queues_fullstack.
Defined.

Lemma scenario_extension_witness :
  incl (map task_id (Scripted.scripted_plan "basic")) (map task_id (Scripted.scripted_plan "fullstack"))
  /\ map task_id (Scripted.scripted_plan "enterprise") = map task_id (Scripted.scripted_plan "fullstack")
  /\ map dependencies (Scripted.scripted_plan "enterprise")
     = map dependencies (Scripted.scripted_plan "fullstack").
Proof.
  destruct (scenario_extension
              (Scripted.staffed "basic") (Scripted.staffed "fullstack")
              (Scripted.staffed "enterprise")
              (Scripted.scripted_plan "basic") (Scripted.scripted_plan "fullstack")
              (Scripted.scripted_plan "enterprise"))
    as (Hincl & Hids & Hdeps & _).
  - vm_compute; reflexivity.
  - vm_compute; reflexivity.
  - vm_compute; reflexivity.
  - exact scripted_queues_basic.
  - exact scripted_queues_fullstack.
  - exact scripted_queues_enterprise.
  - split; [exact Hincl|]. split; [exact Hids|exact Hdeps].
Defined.

Lemma plan_deterministic_witness :
  map agentId (Scripted.scripted_plan "enterprise")
  = [ "agent-Alice-Analyst"; "agent-Bob-Developer"; "agent-Carol-QA";
      "agent-David-Reviewer"; "agent-Eve-Frontend" ]
  /\ Scripted.scripted_plan "enterprise" = Scripted.scripted_plan "enterprise".
Proof.
  destruct (plan_deterministic (Scripted.staffed "enterprise")
              (Scripted.planned "enterprise")
              (Scripted.scripted_plan "enterprise") (Scripted.scripted_plan "enterprise"))
    as (_ & _ & Hagents & _ & Hsame).
  - vm_compute; reflexivity.
  - exact scripted_queues_enterprise.
  - exact scripted_queues_again.
  - split.
    + rewrite Hagents. vm_compute. reflexivity.
    + apply Hsame. intros ro _. destruct ro; vm_compute; reflexivity.
Defined.

End Planner.

(** ** The options of the runner *)

Module Defaults.
Import RunDemo.

(** C10. A property missing from the options of the constructor takes its
    default: scenario basic, mock mode on, budget 10, not verbose; a call
    without options is a call with no property; a budget of 0 is replaced
    by 10.  The script passes [MOCK_MODE === 'true'] for the mock mode, so
    that with [MOCK_MODE] unset the runner of the script is in real mode,
    where the constructor alone defaults to mock mode. *)
Theorem constructor_defaults :
  (forall m b v, scenario (constructor (Some (mkOptions None m b v))) = "basic")
  /\ (forall sc b v, mockMode (constructor (Some (mkOptions sc None b v))) = true)
  /\ (forall sc m v, budget (constructor (Some (mkOptions sc m None v))) = Num 10)
  /\ (forall sc m b, verbose (constructor (Some (mkOptions sc m b None))) = false)
  /\ constructor None = constructor (Some no_options)
  /\ (forall sc m v,
        budget (constructor (Some (mkOptions sc m (Some (Num 0)) v))) = Num 10)
  /\ (forall W (p : Proc W),
        mockMode (constructor (Some (options p)))
        = strict_eq_string (getenv p "MOCK_MODE") "true")
  /\ (forall W (p : Proc W),
        getenv p "MOCK_MODE" = None ->
        mockMode (constructor (Some (options p))) = false
        /\ mockMode (constructor None) = true).
Proof.
  repeat match goal with |- _ /\ _ => split end; try reflexivity.
  intros W p Hunset. cbn. rewrite Hunset. split; reflexivity.
Qed.

(** The script with no variable set: real mode, where [new
    TodoDemoRunner()] is in mock mode. *)
Lemma constructor_defaults_witness :
  mockMode (constructor (Some (options (Scripted.process Scripted.non_interactive []
                                          (Scripted.all_pass 3)))))
  = false
  /\ mockMode (constructor None) = true.
Proof.
  destruct constructor_defaults as (_ & _ & _ & _ & _ & _ & _ & Hunset).
  apply Hunset. reflexivity.
Defined.

(** The budget of the script: [parseInt(DEMO_BUDGET) || 10]. *)
Example budget_from_env :
  let budget_of v :=
    budget (constructor (Some (options (Scripted.process Scripted.non_interactive
                                          [("DEMO_BUDGET", v)] (Scripted.all_pass 3))))) in
  budget_of "15" = Num 15
  /\ budget_of "0" = Num 10
  /\ budget_of "abc" = Num 10
  /\ budget_of " 25 dollars" = Num 25
  /\ budget_of "0x1f" = Num 31
  /\ budget_of "-3" = Num (-3).
Proof. cbn zeta. repeat split; reflexivity. Qed.

End Defaults.

(** ** Selecting a scenario *)

Module Selection.
Import RunDemo.

Lemma unknown_not_own id :
  ~ In id ["basic"; "fullstack"; "enterprise"] -> own_property SCENARIOS id = None.
Proof.
  intros Hn. unfold SCENARIOS. cbn [own_property].
  destruct (String.eqb_spec "basic" id) as [<-|_]; [cbn [In] in Hn; tauto|].
  destruct (String.eqb_spec "fullstack" id) as [<-|_]; [cbn [In] in Hn; tauto|].
  destruct (String.eqb_spec "enterprise" id) as [<-|_]; [cbn [In] in Hn; tauto|].
  reflexivity.
Qed.

Section Run.
Context {W : Type} `{External W}.

(** C1, as the code has it.  A scenario identifier outside basic,
    fullstack and enterprise that is not empty and is not the name of a
    member every object inherits is kept by the constructor as it is, and a
    run of the script that does not prompt fails for it before anything is
    created or queued: [run] rejects with the TypeError of reading [name]
    of undefined, which is not a ConfigurationError; and [getScenarioConfig]
    returns null for it when the configuration file has no such scenario. *)
Theorem unknown_scenario_rejected (p : Proc W) (id : string) :
  ~ In id ["basic"; "fullstack"; "enterprise"] ->
  id <> "" ->
  inherited id = false ->
  getenv p "DEMO_SCENARIO" = Some id ->
  (length (argv p) <=? 2)%nat && negb (argv_includes p "--non-interactive") = false ->
  timers p = [] ->
  let runner := constructor (Some (options p)) in
  scenario runner = id
  /\ script p = (Throw (TypeError_undefined "name"), mkState runner p)
  /\ main p = Logged (TypeError_undefined "name")
  /\ name (TypeError_undefined "name") <> "ConfigurationError"
  /\ (forall (Config : Type) (scenarios : list (string * Config)),
        own_property scenarios id = None ->
        Index.getScenarioConfig Config scenarios id = Index.null).
Proof.
  intros Hn Hne Hinh Henv Hni Ht runner.
  assert (Hsc : scenario runner = id).
  { subst runner. unfold constructor, options. cbn. rewrite Henv.
    destruct id; [congruence|reflexivity]. }
  assert (Hrun : script p = (Throw (TypeError_undefined "name"), mkState runner p)).
  { unfold script. fold runner. unfold run, prelude.
    rewrite (bind_Throw _ _ _ (TypeError_undefined "name") (mkState runner p));
      [reflexivity|].
    erewrite bind_step by apply gets_run. cbn [proc].
    rewrite Hni. erewrite bind_step by apply when_false.
    unfold displayConfig. erewrite bind_step by apply gets_run.
    cbn [this]. rewrite Hsc. unfold get.
    rewrite (unknown_not_own id Hn), Hinh. reflexivity. }
  split; [exact Hsc|]. split; [exact Hrun|]. split.
  { unfold main. rewrite Hrun. cbn. rewrite Ht. reflexivity. }
  split; [discriminate|].
  intros Config scenarios Hown. unfold Index.getScenarioConfig, get.
  rewrite Hown, Hinh. reflexivity.
Qed.

End Run.

Lemma unknown_scenario_rejected_witness :
  let p := Scripted.process Scripted.non_interactive [("DEMO_SCENARIO", "staging")]
             (Scripted.all_pass 3) in
  main p = Logged (TypeError_undefined "name") /\ calls (proc (script p).2) = [].
Proof.
  intros p.
  destruct (unknown_scenario_rejected p "staging") as (_ & Hrun & Hmain & _).
  - cbn. intuition discriminate.
  - discriminate.
  - reflexivity.
  - reflexivity.
  - reflexivity.
  - reflexivity.
  - split; [exact Hmain|]. rewrite Hrun. reflexivity.
Defined.

(** C1, as the claim has it, fails: the empty identifier is outside the
    three scenarios, and the script replaces it by basic, runs the basic
    task list and exits with 0; the identifier staging makes [run] reject
    with a TypeError, not a ConfigurationError, and [getScenarioConfig]
    answers null instead of failing. *)
Lemma unknown_scenario_counterexample :
  let known := ["basic"; "fullstack"; "enterprise"] in
  let empty := Scripted.process Scripted.non_interactive [("DEMO_SCENARIO", "")]
                 (Scripted.all_pass 3) in
  let staging := Scripted.process Scripted.non_interactive [("DEMO_SCENARIO", "staging")]
                   (Scripted.all_pass 3) in
  ~ In "" known /\ ~ In "staging" known
  /\ (script empty).1 = Ok tt
  /\ scenario (this (script empty).2) = "basic"
  /\ map task_id (queued (calls (proc (script empty).2)))
     = ["comprehend-todo-api"; "generate-todo-api"; "test-todo-api"]
  /\ main empty = Terminated (Exited 0)
  /\ (exists e, (script staging).1 = Throw e /\ name e = "TypeError")
  /\ Index.getScenarioConfig unit [("basic", tt); ("fullstack", tt); ("enterprise", tt)]
       "staging" = Index.null.
Proof.
  cbn zeta. split; [cbn; intuition discriminate|]. split; [cbn; intuition discriminate|].
  split; [vm_compute; reflexivity|]. split; [vm_compute; reflexivity|].
  split; [vm_compute; reflexivity|]. split; [vm_compute; reflexivity|].
  split; [|vm_compute; reflexivity].
  eexists. split; vm_compute; reflexivity.
Qed.

(** An identifier that names an inherited member passes [displayConfig]:
    the run goes on with the five agents and the five tasks of a scenario
    that is not basic. *)
Example inherited_name_runs_fullstack :
  let p := Scripted.process Scripted.non_interactive [("DEMO_SCENARIO", "constructor")]
             (Scripted.all_pass 5) in
  main p = Terminated (Exited 0)
  /\ queued (calls (proc (script p).2)) = Scripted.scripted_plan "fullstack".
Proof. split; vm_compute; reflexivity. Qed.

End Selection.

(** ** Computations that leave the timers alone *)

Module Frame.

Section Generic.
Context {W : Type} `{External W} {S : Type} (pr : S -> Proc W).

Lemma quiet_ret {A} (a : A) : quiet pr (mret a : M S A).
Proof. intros s r s' E. injection E as <- <-. split; [reflexivity|discriminate]. Qed.

Lemma quiet_throw {A} e : quiet pr (throw e : M S A).
Proof. intros s r s' E. injection E as <- <-. split; [reflexivity|discriminate]. Qed.

Lemma quiet_gets {A} (f : S -> A) : quiet pr (gets f).
Proof. intros s r s' E. injection E as <- <-. split; [reflexivity|discriminate]. Qed.

Lemma quiet_modify (f : S -> S) : (forall s, pr (f s) = pr s) -> quiet pr (modify f).
Proof.
  intros Hf s r s' E. injection E as <- <-. rewrite Hf.
  split; [reflexivity|discriminate].
Qed.

Lemma quiet_bind {A B} (m : M S A) (k : A -> M S B) :
  quiet pr m -> (forall a, quiet pr (k a)) -> quiet pr (m ≫= k).
Proof.
  intros Hm Hk s r s' E. unfold mbind, M_bind, bind in E.
  destruct (m s) as [[a|e|t] s1] eqn:Em; destruct (Hm _ _ _ Em) as [Ht Hh].
  - destruct (Hk a _ _ _ E) as [Ht' Hh']. split; [congruence|].
    intros Hnil. apply Hh'. congruence.
  - injection E as <- <-. split; [exact Ht|discriminate].
  - injection E as <- <-. split; [exact Ht|].
    intros Hnil. destruct (Hh Hnil t eq_refl).
Qed.

Lemma quiet_when c (m : M S unit) : quiet pr m -> quiet pr (when c m).
Proof. destruct c; [tauto|]. intros _. apply (quiet_ret tt). Qed.

Lemma quiet_try_catch {A} (body : M S A) handler :
  quiet pr body -> (forall e, quiet pr (handler e)) -> quiet pr (try_catch body handler).
Proof.
  intros Hb Hh s r s' E. unfold try_catch in E.
  destruct (body s) as [[a|e|t] s1] eqn:Eb; destruct (Hb _ _ _ Eb) as [Ht Hn].
  - injection E as <- <-. split; [exact Ht|exact Hn].
  - destruct (Hh e _ _ _ E) as [Ht' Hn']. split; [congruence|].
    intros Hnil. apply Hn'. congruence.
  - injection E as <- <-. split; [exact Ht|exact Hn].
Qed.

(** After a quiet computation, with no timer pending, what follows decides
    the result. *)
Lemma quiet_then {A B} (m : M S A) (k : A -> M S B) (Post : result B * S -> Prop) :
  quiet pr m ->
  (forall a s1, timers (pr s1) = [] -> Post (k a s1)) ->
  (forall e s1, Post (Throw e, s1)) ->
  forall s, timers (pr s) = [] -> Post ((m ≫= k) s).
Proof.
  intros Hm Hk Hthrow s Hnil. unfold mbind, M_bind, bind.
  destruct (m s) as [[a|e|t] s1] eqn:Em; destruct (Hm _ _ _ Em) as [Ht Hh].
  - apply Hk. congruence.
  - apply Hthrow.
  - destruct (Hh Hnil t eq_refl).
Qed.

End Generic.

Section Process.
Context {W : Type} `{External W}.

Lemma quiet_perform {A} c (op : W -> settled A * W) : quiet (fun p => p) (perform c op).
Proof.
  intros p r p' E. unfold perform in E.
  destruct (op (world p)) as [[a|e] w]; injection E as <- <-;
    (split; [reflexivity|discriminate]).
Qed.

Lemma quiet_log l : quiet (fun p : Proc W => p) (log l).
Proof. intros p r p' E. injection E as <- <-. split; [reflexivity|discriminate]. Qed.

Lemma quiet_waitForCompletion : quiet (fun p : Proc W => p) waitForCompletion.
Proof.
  intros p r p' E. unfold waitForCompletion in E.
  destruct (ext_waitForCompletion (world p)) as [x w].
  destruct (first_timer _) as [t|] eqn:Ef.
  - injection E as <- <-. split; [reflexivity|].
    intros Hnil. rewrite Hnil in Ef. discriminate.
  - destruct (completion x); injection E as <- <-;
      (split; [reflexivity|discriminate]).
Qed.

End Process.

End Frame.

(** ** The exit status of the demo *)

Module ExitStatus.
Import RunDemo Frame.

Section Run.
Context {W : Type} `{External W}.

Lemma quiet_lift {A} (m : M (Proc W) A) :
  quiet (fun p => p) m -> quiet (@proc W) (lift m).
Proof.
  intros Hm s r s' E. unfold lift in E.
  destruct (m (proc s)) as [r0 p'] eqn:Em. injection E as <- <-.
  exact (Hm _ _ _ Em).
Qed.

Lemma quiet_update f : quiet (@proc W) (update f).
Proof. apply quiet_modify. reflexivity. Qed.

Lemma quiet_on_orchestrator {A} method (m : M (Proc W) A) :
  quiet (fun p => p) m -> quiet (@proc W) (on_orchestrator method m).
Proof.
  intros Hm. unfold on_orchestrator. apply quiet_bind; [apply quiet_gets|].
  intros [o|]; [apply quiet_lift, Hm|apply quiet_throw].
Qed.

Lemma quiet_agent_id_of sl : quiet (@proc W) (agent_id_of sl).
Proof.
  unfold agent_id_of. apply quiet_bind; [apply quiet_gets|].
  intros [a|]; [apply (quiet_ret (@proc W))|apply quiet_throw].
Qed.

Ltac quiet_step :=
  first
    [ apply quiet_on_orchestrator
    | apply quiet_agent_id_of
    | apply quiet_update
    | apply quiet_when
    | apply quiet_bind; [|intros ?]
    | apply quiet_lift
    | apply quiet_perform
    | apply quiet_log
    | apply quiet_waitForCompletion
    | apply quiet_gets
    | apply (quiet_ret (@proc W)) ].

Lemma quiet_interactiveSetup : quiet (@proc W) interactiveSetup.
Proof. unfold interactiveSetup. repeat quiet_step. Qed.

Lemma quiet_displayConfig : quiet (@proc W) displayConfig.
Proof.
  unfold displayConfig. apply quiet_bind; [apply quiet_gets|].
  intros [c|m|]; [apply (quiet_ret (@proc W))|apply (quiet_ret (@proc W))|apply quiet_throw].
Qed.

Lemma quiet_prelude : quiet (@proc W) prelude.
Proof.
  unfold prelude. apply quiet_bind; [apply quiet_gets|]. intros p.
  apply quiet_bind; [|intros; apply quiet_displayConfig].
  apply quiet_when, quiet_interactiveSetup.
Qed.

Lemma quiet_initialize : quiet (@proc W) initialize.
Proof. unfold initialize. repeat quiet_step. Qed.

Lemma quiet_createAgents : quiet (@proc W) createAgents.
Proof. unfold createAgents, createAgent. repeat quiet_step. Qed.

Lemma quiet_queueTasks : quiet (@proc W) queueTasks.
Proof. unfold queueTasks, queueTask. repeat quiet_step. Qed.

Lemma quiet_execute : quiet (@proc W) execute.
Proof. unfold execute, setupEventHandlers. repeat quiet_step. Qed.

Lemma quiet_displayResults : quiet (@proc W) displayResults.
Proof. unfold displayResults. repeat quiet_step. Qed.

(** Whatever the report says, [displayResults] returns, having printed
    whether every task completed. *)
Lemma displayResults_returns (s : State W) report w :
  orchestrator (this s) = Some tt ->
  ext_getFinalReport (world (proc s)) = (Fulfilled report, w) ->
  exists s', displayResults s = (Ok tt, s')
             /\ console (proc s')
                = console (proc s)
                  ++ [FinalStatus (tasksCompleted report =? totalTasks report)].
Proof.
  intros Ho Er. unfold displayResults, on_orchestrator.
  eexists. split.
  - erewrite bind_step; [|erewrite bind_step by apply gets_run; rewrite Ho;
                           unfold lift, perform; rewrite Er; reflexivity].
    reflexivity.
  - reflexivity.
Qed.

Lemma cleanup_ends (s : State W) : timers (proc s) = [] -> cleanup_post (cleanup s).
Proof.
  intros Hnil. unfold cleanup, try_catch.
  match goal with |- cleanup_post (match ?b s with _ => _ end) =>
    assert (Hb : shutdown_post (b s));
    [|destruct (b s) as [[[]|e|t] s']; cbn in *; [exact Hb|reflexivity|destruct Hb]]
  end.
  revert s Hnil.
  apply (quiet_then (@proc W)); [apply quiet_gets| |intros; exact I]. intros r.
  apply (quiet_then (@proc W));
    [apply quiet_when, quiet_on_orchestrator, quiet_perform| |intros; exact I].
  intros _.
  apply (quiet_then (@proc W));
    [apply quiet_when, quiet_lift, quiet_perform| |intros; exact I].
  intros _ s Hnil.
  unfold shutdown_post, mbind, M_bind, bind, lift, setTimeout, ret. cbn [proc timers].
  rewrite Hnil. eexists. reflexivity.
Qed.

Lemma attempt_ends (s : State W) : timers (proc s) = [] -> attempt_post (attempt s).
Proof.
  revert s. unfold attempt.
  apply (quiet_then (@proc W)); [apply quiet_initialize| |intros; exact I]. intros _.
  apply (quiet_then (@proc W)); [apply quiet_createAgents| |intros; exact I]. intros _.
  apply (quiet_then (@proc W)); [apply quiet_queueTasks| |intros; exact I]. intros _.
  apply (quiet_then (@proc W)); [apply quiet_execute| |intros; exact I]. intros _.
  apply (quiet_then (@proc W)); [apply quiet_displayResults| |intros; exact I].
  intros _ s Hnil. pose proof (cleanup_ends s Hnil) as Hc.
  destruct (cleanup s) as [[[]|e|t] s']; cbn in *; tauto.
Qed.

(** C7, as the code has it.  Once the configuration is displayed, the demo
    process exits with code 1 when a step of the [try] block of [run]
    (initialize, createAgents, queueTasks, execute, displayResults, cleanup)
    raises, and with code 0 when none does, whether or not every queued
    task completed: whatever the final report counts, [displayResults]
    returns normally and only prints whether the run succeeded. *)
Theorem exit_status_of_demo (p : Proc W) (s0 : State W) :
  timers p = [] ->
  prelude (mkState (constructor (Some (options p))) p) = (Ok tt, s0) ->
  main p = Terminated (Exited (match (attempt s0).1 with Ok _ => 0 | _ => 1 end))
  /\ (forall (s : State W) report w,
        orchestrator (this s) = Some tt ->
        ext_getFinalReport (world (proc s)) = (Fulfilled report, w) ->
        exists s', displayResults s = (Ok tt, s')
                   /\ console (proc s')
                      = console (proc s)
                        ++ [FinalStatus (tasksCompleted report =? totalTasks report)]).
Proof.
  intros Hnil Hpre. split; [|apply displayResults_returns].
  assert (Hs0 : timers (proc s0) = []).
  { destruct (quiet_prelude _ _ _ Hpre) as [Ht _]. cbn in Ht. congruence. }
  pose proof (attempt_ends s0 Hs0) as Ha.
  unfold main, script, run. erewrite bind_step by exact Hpre.
  unfold try_catch. destruct (attempt s0) as [[[]|e|t] s1]; cbn in Ha |- *.
  - destruct Ha as [h ->]. reflexivity.
  - reflexivity.
  - rewrite Ha. reflexivity.
Qed.

End Run.

(** A failed task leaves the exit code at 0; a rejected [initialize] makes
    it 1. *)
Lemma exit_status_of_demo_witness :
  main (Scripted.process Scripted.non_interactive [] Scripted.one_task_fails)
  = Terminated (Exited 0)
  /\ main (Scripted.process Scripted.non_interactive [] Scripted.initialize_rejects)
     = Terminated (Exited 1).
Proof.
  split.
  - destruct (exit_status_of_demo
                (Scripted.process Scripted.non_interactive [] Scripted.one_task_fails)
                (mkState (constructor
                            (Some (options (Scripted.process Scripted.non_interactive []
                                              Scripted.one_task_fails))))
                         (Scripted.process Scripted.non_interactive []
                            Scripted.one_task_fails)))
      as [Hmain _].
    + reflexivity.
    + vm_compute; reflexivity.
    + rewrite Hmain. vm_compute. reflexivity.
  - destruct (exit_status_of_demo
                (Scripted.process Scripted.non_interactive [] Scripted.initialize_rejects)
                (mkState (constructor
                            (Some (options (Scripted.process Scripted.non_interactive []
                                              Scripted.initialize_rejects))))
                         (Scripted.process Scripted.non_interactive []
                            Scripted.initialize_rejects)))
      as [Hmain _].
    + reflexivity.
    + vm_compute; reflexivity.
    + rewrite Hmain. vm_compute. reflexivity.
Defined.

(** C7, as the claim has it, fails.  With a task failed (two completed out
    of three) the demo prints a failed status and exits with code 0; and
    the error raised for an unknown scenario, before the [try] block, is
    only printed: no exit with a non-zero code is made. *)
Lemma exit_status_counterexample :
  let failing := Scripted.process Scripted.non_interactive [] Scripted.one_task_fails in
  let unknown := Scripted.process Scripted.non_interactive [("DEMO_SCENARIO", "staging")]
                   (Scripted.all_pass 3) in
  tasksCompleted (Scripted.report Scripted.one_task_fails)
  < totalTasks (Scripted.report Scripted.one_task_fails)
  /\ console (proc (script failing).2) = [FinalStatus false]
  /\ main failing = Terminated (Exited 0)
  /\ exit_status (main failing) = 0
  /\ main unknown = Logged (TypeError_undefined "name")
  /\ exit_status (main unknown) = 0.
Proof. cbn zeta. repeat split; vm_compute; reflexivity. Qed.

End ExitStatus.

(** ** The end-to-end check *)

Module EndToEnd.
Import TestE2E Frame.

(** *** The verdict on the quality gates *)

(** What [gateStatuses] holds under a key, from an accumulator [acc]. *)
Lemma gateStatuses_fold (rs : list GateResult) : forall (acc : gmap string Tally) k,
  foldl (fun acc r =>
           let k := status r in
           match acc !! k with
           | Some (Counted n) => <[k := Counted (n + 1)]> acc
           | Some (Appended n) => <[k := Appended (n + 1)]> acc
           | None =>
               if String.eqb k "__proto__" then acc
               else if inherited k then <[k := Appended 1]> acc
               else <[k := Counted 1]> acc
           end) acc rs !! k
  = let n := Z.of_nat (length (List.filter (fun r => String.eqb (status r) k) rs)) in
    if n =? 0 then acc !! k
    else match acc !! k with
         | Some (Counted m) => Some (Counted (m + n))
         | Some (Appended m) => Some (Appended (m + n))
         | None =>
             if String.eqb k "__proto__" then None
             else if inherited k then Some (Appended n) else Some (Counted n)
         end.
Proof.
  induction rs as [|r rs IH]; intros acc k; [reflexivity|].
  cbn [foldl List.filter]. rewrite IH. cbn zeta.
  set (c := length (List.filter (fun r0 => String.eqb (status r0) k) rs)).
  destruct (String.eqb_spec (status r) k) as [E|Hne].
  - rewrite E. cbn [length]. fold c.
    assert (Hs : (Z.of_nat (Datatypes.S c) =? 0) = false) by (apply Z.eqb_neq; lia).
    rewrite Hs.
    destruct (acc !! k) as [[m|m]|] eqn:Ea.
    + rewrite lookup_insert_eq.
      destruct (Z.eqb_spec (Z.of_nat c) 0) as [E0|_];
        do 2 f_equal; lia.
    + rewrite lookup_insert_eq.
      destruct (Z.eqb_spec (Z.of_nat c) 0) as [E0|_];
        do 2 f_equal; lia.
    + destruct (String.eqb k "__proto__") eqn:Ep.
      * rewrite Ea. destruct (Z.of_nat c =? 0); reflexivity.
      * destruct (inherited k); rewrite lookup_insert_eq;
          (destruct (Z.eqb_spec (Z.of_nat c) 0) as [E0|_];
           do 2 f_equal; lia).
  - assert (Hk : (match acc !! status r with
                  | Some (Counted n) => <[status r := Counted (n + 1)]> acc
                  | Some (Appended n) => <[status r := Appended (n + 1)]> acc
                  | None =>
                      if String.eqb (status r) "__proto__" then acc
                      else if inherited (status r) then <[status r := Appended 1]> acc
                      else <[status r := Counted 1]> acc
                  end) !! k = acc !! k).
    { destruct (acc !! status r) as [[m|m]|];
        [rewrite lookup_insert_ne by exact Hne; reflexivity
        |rewrite lookup_insert_ne by exact Hne; reflexivity|].
      destruct (String.eqb (status r) "__proto__"); [reflexivity|].
      destruct (inherited (status r)); rewrite lookup_insert_ne by exact Hne; reflexivity. }
    rewrite Hk. reflexivity.
Qed.

(** Under a key that is not the name of an inherited member, the count is
    positive exactly when a result has that status. *)
Lemma positive_gateStatuses rs k :
  inherited k = false ->
  positive (gateStatuses rs !! k) = existsb (fun r => String.eqb (status r) k) rs.
Proof.
  intros Hk. unfold gateStatuses. rewrite gateStatuses_fold. cbn zeta.
  rewrite lookup_empty, Hk.
  assert (Hp : String.eqb k "__proto__" = false).
  { destruct (String.eqb_spec k "__proto__") as [->|]; [discriminate|reflexivity]. }
  rewrite Hp.
  induction rs as [|r rs IH]; [reflexivity|].
  cbn [List.filter existsb].
  set (c := length (List.filter (fun r0 => String.eqb (status r0) k) rs)) in *.
  destruct (String.eqb (status r) k); cbn [orb length]; [|exact IH]. fold c.
  destruct (Z.eqb_spec (Z.of_nat (Datatypes.S c)) 0); [lia|].
  cbn [positive]. apply Z.ltb_lt. lia.
Qed.

(** The gates fail the check exactly when one of them reports the status
    [failed] or the status [error]; no other status does, [fail] included. *)
Lemma hasFailedGates_iff rs :
  hasFailedGates (gateStatuses rs) = true
  <-> exists r, In r rs /\ (status r = "failed" \/ status r = "error").
Proof.
  unfold hasFailedGates.
  rewrite !positive_gateStatuses by reflexivity.
  rewrite orb_true_iff, !existsb_exists.
  split.
  - intros [(r & Hin & E)|(r & Hin & E)]; apply String.eqb_eq in E; eauto.
  - intros (r & Hin & [E|E]); [left|right]; exists r; (split; [exact Hin|]);
      rewrite E; reflexivity.
Qed.

(** C9, on the code.  With every task completed, every file written and the
    gates reporting fail, skipped and pass, the check passes and the
    process exits with code 0; had the gate reported [failed] instead, the
    check would fail with code 1. *)
Theorem fail_status_passes :
  let run := Scripted.e2e_process (Scripted.e2e_run "fail" 1000) in
  let r := script (mkState None run) in
  r.1 = Halt (Exited 0)
  /\ console (proc r.2) = [TestPassed]
  /\ main run = Terminated (Exited 0)
  /\ main (Scripted.e2e_process (Scripted.e2e_run "failed" 1000)) = Terminated (Exited 1)
  /\ main (Scripted.e2e_process (Scripted.e2e_run "error" 1000)) = Terminated (Exited 1)
  /\ main (Scripted.e2e_process (Scripted.e2e_run "skipped" 1000)) = Terminated (Exited 0).
Proof. cbn zeta. repeat split; vm_compute; reflexivity. Qed.

(** *** The timer and the completion *)

Section Race.
Context {W : Type} `{External W}.

Lemma quiet_lift_check {A} (m : M (Proc W) A) :
  quiet (fun p => p) m -> quiet (@proc W) (lift m).
Proof.
  intros Hm s r s' E. unfold lift in E.
  destruct (m (proc s)) as [r0 p'] eqn:Em. injection E as <- <-.
  exact (Hm _ _ _ Em).
Qed.

Lemma quiet_access file : quiet (@proc W) (access file).
Proof.
  unfold access. apply quiet_lift_check. intros p r p' E.
  destruct (ext_fsAccess _ (world p)) as [b w]. injection E as <- <-.
  split; [reflexivity|discriminate].
Qed.

Ltac quiet_step :=
  first
    [ apply quiet_access
    | apply quiet_lift_check
    | apply quiet_perform
    | apply quiet_log
    | apply quiet_modify; reflexivity
    | apply quiet_bind; [|intros ?]
    | apply (quiet_ret (@proc W)) ].

Lemma quiet_prepare : quiet (@proc W) prepare.
Proof. unfold prepare, createAgent, queueTask. repeat quiet_step. Qed.

Lemma quiet_verify tasks evs : quiet (@proc W) (verify tasks evs).
Proof. unfold verify. repeat quiet_step. Qed.

(** The [finally] block: it stops the API when there is one, whatever the
    promise of [api.stop()] settles as, and sets the timer of the exit; on
    an API without [stop] it throws before either. *)
Lemma finalizer_cases (s : State W) :
  if stoppable (api s)
  then exists s', finalizer s = (Ok tt, s')
         /\ api s' = api s
         /\ calls (proc s')
            = calls (proc s) ++ (match api s with Some _ => [ApiStop] | None => [] end)
         /\ console (proc s') = console (proc s)
         /\ timers (proc s')
            = timers (proc s) ++ [mkTimer (next_handle (proc s)) 1000 (TimerExit 0)]
  else finalizer s = (Throw (TypeError_not_a_function "api.stop"), s).
Proof.
  unfold finalizer, stoppable, mbind, M_bind, bind, gets, try_catch, lift, perform,
    setTimeout, throw.
  destruct (api s) as [a|] eqn:Ea.
  - destruct (has_stop a) eqn:Hs; [|reflexivity]. cbn.
    destruct (ext_apiStop (world (proc s))) as [[[]|e] w]; cbn; eexists;
      (split; [reflexivity|]); cbn; rewrite ?Ea; auto.
  - eexists. split; [reflexivity|]. cbn. rewrite Ea, app_nil_r. auto.
Qed.

(** What [try { ... } catch] of [runE2ETest] makes of its [try] block. *)
Lemma guarded_of_body (s s1 : State W) r :
  body s = (r, s1) ->
  guarded s
  = match r with
    | Throw e =>
        (Ok false,
         mkState (api s1)
           (mkProc (argv (proc s1)) (env (proc s1)) (world (proc s1)) (calls (proc s1))
                   (timers (proc s1)) (next_handle (proc s1))
                   (console (proc s1) ++ [TestError (message e)])))
    | _ => (r, s1)
    end.
Proof.
  intros Eb. unfold guarded, try_catch. rewrite Eb. destruct r; reflexivity.
Qed.

(** From the [try] block to the settling of [runE2ETest], when no timer
    has ended the process. *)
Lemma runE2ETest_of_body (s s1 : State W) (r : result bool) :
  body s = (r, s1) -> (forall t, r <> Halt t) ->
  exists s2,
    console (proc s2)
    = console (proc s1) ++ (match r with Throw e => [TestError (message e)] | _ => [] end)
    /\ api s2 = api s1
    /\ if stoppable (api s1)
       then runE2ETest s = (Ok (match r with Ok b => b | _ => false end), s2)
            /\ calls (proc s2)
               = calls (proc s1) ++ (match api s1 with Some _ => [ApiStop] | None => [] end)
            /\ timers (proc s2)
               = timers (proc s1) ++ [mkTimer (next_handle (proc s1)) 1000 (TimerExit 0)]
       else runE2ETest s = (Throw (TypeError_not_a_function "api.stop"), s2)
            /\ calls (proc s2) = calls (proc s1)
            /\ timers (proc s2) = timers (proc s1).
Proof.
  intros Eb Hh. pose proof (guarded_of_body _ _ _ Eb) as Eg.
  unfold runE2ETest, try_finally. rewrite Eg.
  destruct r as [b|e|t]; [| |destruct (Hh t eq_refl)].
  - pose proof (finalizer_cases s1) as Hf.
    destruct (stoppable (api s1)).
    + destruct Hf as (s2 & Ef & Ha & Hc & Hl & Ht). exists s2. rewrite Ef.
      rewrite app_nil_r. auto 10.
    + exists s1. rewrite Hf, app_nil_r. auto 10.
  - set (s1' := mkState (api s1) _).
    pose proof (finalizer_cases s1') as Hf. change (api s1') with (api s1) in Hf.
    destruct (stoppable (api s1)).
    + destruct Hf as (s2 & Ef & Ha & Hc & Hl & Ht). exists s2. rewrite Ef. auto 10.
    + exists s1'. rewrite Hf. auto 10.
Qed.

(** From the [try] block to the end of the script: a timer callback that
    throws ends the process there and then; otherwise the script exits
    with the code of the verdict, or with 1 when the block has thrown or
    the [finally] block throws. *)
Lemma script_of_body (s s1 : State W) r :
  body s = (r, s1) ->
  match r with
  | Halt t => script s = (Halt t, s1)
  | _ => exists s2, script s = (Halt (Exited (final_code (api s1) r)), s2)
  end.
Proof.
  intros Eb. destruct r as [b|e|t].
  - destruct (runE2ETest_of_body _ _ _ Eb) as (s2 & _ & _ & Hr); [discriminate|].
    unfold script, final_code. destruct (stoppable (api s1)).
    + destruct Hr as (Er & _). eexists. apply try_catch_Halt.
      erewrite bind_step by exact Er. destruct b; reflexivity.
    + destruct Hr as (Er & _). eexists.
      erewrite try_catch_Throw by (apply bind_Throw; exact Er). reflexivity.
  - destruct (runE2ETest_of_body _ _ _ Eb) as (s2 & _ & _ & Hr); [discriminate|].
    unfold script, final_code. destruct (stoppable (api s1)).
    + destruct Hr as (Er & _). eexists. apply try_catch_Halt.
      erewrite bind_step by exact Er. reflexivity.
    + destruct Hr as (Er & _). eexists.
      erewrite try_catch_Throw by (apply bind_Throw; exact Er). reflexivity.
  - unfold script. apply try_catch_Halt. unfold runE2ETest.
    apply bind_Halt. apply try_finally_Halt.
    rewrite (guarded_of_body _ _ _ Eb). reflexivity.
Qed.

Lemma main_of_body (p : Proc W) s1 r :
  body (mkState None p) = (r, s1) ->
  main p = Terminated (match r with
                       | Halt t => t
                       | _ => Exited (final_code (api s1) r)
                       end).
Proof.
  intros Eb. apply script_of_body in Eb. unfold main.
  destruct r as [b|e|t].
  - destruct Eb as [s2 ->]. reflexivity.
  - destruct Eb as [s2 ->]. reflexivity.
  - rewrite Eb. reflexivity.
Qed.

(** [verify] leaves the variable [api] as it is. *)
Lemma verify_api tasks evs (s s' : State W) r :
  verify tasks evs s = (r, s') -> api s' = api s.
Proof.
  unfold verify, access, lift, perform, log, mbind, M_bind, bind.
  destruct (ext_getFinalReport (world (proc s))) as [[rep|e] w1]; cbn;
    [|intros E; injection E as <- <-; reflexivity].
  destruct (ext_fsAccess _ w1) as [c1 w2]; cbn.
  destruct (ext_fsAccess _ w2) as [c2 w3]; cbn.
  destruct (ext_fsAccess _ w3) as [c3 w4]; cbn.
  intros E. injection E as <- <-. reflexivity.
Qed.

(** The [try] block once the execution has started, in the three orders
    of the timer and the promise. *)
Lemma body_from_wait (s s1 : State W) tasks x w :
  prepare s = (Ok tasks, s1) ->
  timers (proc s1) = [] ->
  ext_waitForCompletion (world (proc s1)) = (x, w) ->
  body s
  = if (timeout_ms <? elapsed x)%N
    then (Halt (Crashed timeout_error),
          mkState (api s1)
            (mkProc (argv (proc s1)) (env (proc s1)) w
                    (calls (proc s1) ++ [WaitForCompletion])
                    [mkTimer (next_handle (proc s1)) timeout_ms (TimerThrow timeout_error)]
                    (Datatypes.S (next_handle (proc s1))) (console (proc s1))))
    else match completion x with
         | Fulfilled _ => verify tasks (events x) (after_wait s1 w)
         | Rejected e =>
             (Throw e,
              mkState (api s1)
                (mkProc (argv (proc s1)) (env (proc s1)) w
                        (calls (proc s1) ++ [WaitForCompletion])
                        [mkTimer (next_handle (proc s1)) timeout_ms
                                 (TimerThrow timeout_error)]
                        (Datatypes.S (next_handle (proc s1))) (console (proc s1))))
         end.
Proof.
  intros Ep Hnil Ew. unfold body. erewrite bind_step by exact Ep.
  unfold mbind, M_bind, bind, lift, setTimeout, waitForCompletion, clearTimeout.
  cbn [proc api world timers next_handle argv env calls console].
  rewrite Ew, Hnil. cbn [app List.filter delay].
  destruct (timeout_ms <? elapsed x)%N; cbn [first_timer fire action].
  - reflexivity.
  - destruct (completion x) as [[]|e]; [|reflexivity].
    cbn [proc api world timers next_handle argv env calls console List.filter handle].
    rewrite Nat.eqb_refl. cbn [negb]. reflexivity.
Qed.

(** C8.  In the end-to-end check a timer of 30 seconds is pending while
    the script waits for completion.  When the timer is due first, its
    callback throws the timeout error outside of every handler: the
    process ends there, with exit status 1, and no verdict is printed.
    When the promise settles first, the timer is cleared and has no
    effect: what follows runs with no timer pending, and the script exits
    with the code that the verdict and the [finally] block give (the code
    of the verdict, and 1 when the API has no [stop] method), or with 1
    when the promise was rejected. *)
Theorem timeout_race (p : Proc W) (tasks : list Task) (s1 : State W)
    (x : Execution) (w : W) :
  timers p = [] ->
  prepare (mkState None p) = (Ok tasks, s1) ->
  ext_waitForCompletion (world (proc s1)) = (x, w) ->
  timeout_ms = 30000%N
  /\ ((timeout_ms < elapsed x)%N ->
      main p = Terminated (Crashed timeout_error)
      /\ exit_status (main p) = 1
      /\ console (proc (script (mkState None p)).2) = console (proc s1))
  /\ ((elapsed x < timeout_ms)%N ->
      main p
      = Terminated (Exited (match completion x with
                            | Fulfilled _ =>
                                final_code (api s1)
                                  (verify tasks (events x) (after_wait s1 w)).1
                            | Rejected _ => 1
                            end))
      /\ timers (proc (after_wait s1 w)) = []).
Proof.
  intros Hnil Ep Ew.
  assert (Hs1 : timers (proc s1) = []).
  { destruct (quiet_prepare _ _ _ Ep) as [Ht _]. cbn in Ht. congruence. }
  pose proof (body_from_wait _ _ _ _ _ Ep Hs1 Ew) as Eb.
  split; [reflexivity|]. split.
  - intros Hlate. apply N.ltb_lt in Hlate. rewrite Hlate in Eb.
    pose proof (main_of_body _ _ _ Eb) as Em. cbn in Em.
    split; [exact Em|]. split; [rewrite Em; reflexivity|].
    apply script_of_body in Eb. rewrite Eb. reflexivity.
  - intros Hearly. split; [|reflexivity].
    assert (Hnot : (timeout_ms <? elapsed x)%N = false) by (apply N.ltb_ge; lia).
    rewrite Hnot in Eb. destruct (completion x) as [[]|e].
    + destruct (verify tasks (events x) (after_wait s1 w)) as [r s2] eqn:Ev.
      pose proof (main_of_body _ _ _ Eb) as Em. rewrite Em. cbn [fst].
      rewrite (verify_api _ _ _ _ _ Ev). cbn [after_wait api].
      destruct r as [b|e|t]; try reflexivity.
      destruct (quiet_verify _ _ _ _ _ Ev) as [_ Hh].
      destruct (Hh eq_refl t eq_refl).
    + rewrite (main_of_body _ _ _ Eb). cbn [api].
      unfold final_code, exit_code. destruct (stoppable (api s1)); reflexivity.
Qed.

End Race.

(** The scripted check that completes after one second passes; the one
    that takes 45 seconds is ended by the timer. *)
Lemma timeout_race_witness :
  main (Scripted.e2e_process (Scripted.e2e_run "pass" 45000))
  = Terminated (Crashed timeout_error)
  /\ main (Scripted.e2e_process (Scripted.e2e_run "pass" 1000)) = Terminated (Exited 0).
Proof.
  split.
  - destruct (timeout_race (Scripted.e2e_process (Scripted.e2e_run "pass" 45000))
                Scripted.e2e_tasks
                (Scripted.e2e_started (Scripted.e2e_run "pass" 45000))
                (Scripted.execution (Scripted.e2e_run "pass" 45000))
                (world (proc (Scripted.e2e_started (Scripted.e2e_run "pass" 45000)))))
      as (_ & Hlate & _).
    + reflexivity.
    + vm_compute; reflexivity.
    + vm_compute; reflexivity.
    + apply Hlate. vm_compute. reflexivity.
  - destruct (timeout_race (Scripted.e2e_process (Scripted.e2e_run "pass" 1000))
                Scripted.e2e_tasks
                (Scripted.e2e_started (Scripted.e2e_run "pass" 1000))
                (Scripted.execution (Scripted.e2e_run "pass" 1000))
                (world (proc (Scripted.e2e_started (Scripted.e2e_run "pass" 1000)))))
      as (_ & _ & Hearly).
    + reflexivity.
    + vm_compute; reflexivity.
    + vm_compute; reflexivity.
    + destruct Hearly as [Hmain _]; [vm_compute; reflexivity|].
      rewrite Hmain. vm_compute. reflexivity.
Defined.

End EndToEnd.

(** ** The calls of a run, in order *)

Module TraceFacts.
Import RunDemo Traces PlanFacts.

Section Keeps.
Context {W : Type} `{External W}.

Lemma keeps_ret {A B} (f : Runner -> B) (a : A) : keeps f (mret a : M (State W) A).
Proof. intros s r s' E. injection E as <- <-. reflexivity. Qed.

Lemma keeps_throw {A B} (f : Runner -> B) e : keeps f (throw e : M (State W) A).
Proof. intros s r s' E. injection E as <- <-. reflexivity. Qed.

Lemma keeps_gets {A B} (f : Runner -> B) (g : State W -> A) : keeps f (gets g).
Proof. intros s r s' E. injection E as <- <-. reflexivity. Qed.

Lemma keeps_lift {A B} (f : Runner -> B) (m : M (Proc W) A) : keeps f (lift m).
Proof.
  intros s r s' E. unfold lift in E. destruct (m (proc s)) as [r0 p].
  injection E as <- <-. reflexivity.
Qed.

Lemma keeps_update {B} (f : Runner -> B) g :
  (forall r, f (g r) = f r) -> keeps f (update g : M (State W) unit).
Proof. intros Hg s r s' E. injection E as <- <-. apply Hg. Qed.

Lemma keeps_bind {A C B} (f : Runner -> B) (m : M (State W) A) (k : A -> M (State W) C) :
  keeps f m -> (forall a, keeps f (k a)) -> keeps f (m ≫= k).
Proof.
  intros Hm Hk s r s' E. unfold mbind, M_bind, bind in E.
  destruct (m s) as [[a|e|t] s1] eqn:Em; pose proof (Hm _ _ _ Em) as E1.
  - rewrite (Hk a _ _ _ E). exact E1.
  - injection E as <- <-. exact E1.
  - injection E as <- <-. exact E1.
Qed.

Lemma keeps_when {B} (f : Runner -> B) c (m : M (State W) unit) :
  keeps f m -> keeps f (when c m).
Proof. destruct c; [tauto|]. intros _. apply (keeps_ret f tt). Qed.

Lemma keeps_try_catch {A B} (f : Runner -> B) (body : M (State W) A) handler :
  keeps f body -> (forall e, keeps f (handler e)) -> keeps f (try_catch body handler).
Proof.
  intros Hb Hh s r s' E. unfold try_catch in E.
  destruct (body s) as [[a|e|t] s1] eqn:Eb; pose proof (Hb _ _ _ Eb) as E1.
  - injection E as <- <-. exact E1.
  - rewrite (Hh e _ _ _ E). exact E1.
  - injection E as <- <-. exact E1.
Qed.

Lemma keeps_on_orchestrator {A B} (f : Runner -> B) method (m : M (Proc W) A) :
  keeps f (on_orchestrator method m).
Proof.
  unfold on_orchestrator. apply keeps_bind; [apply keeps_gets|].
  intros [o|]; [apply keeps_lift|apply keeps_throw].
Qed.

Lemma keeps_agent_id_of {B} (f : Runner -> B) sl : keeps f (agent_id_of (W:=W) sl).
Proof.
  unfold agent_id_of. apply keeps_bind; [apply keeps_gets|].
  intros [a|]; [apply (keeps_ret f)|apply keeps_throw].
Qed.

Ltac keeps_step :=
  first
    [ apply keeps_on_orchestrator
    | apply keeps_agent_id_of
    | apply keeps_lift
    | apply keeps_gets
    | apply keeps_when
    | apply keeps_try_catch; [|intros ?]
    | apply keeps_bind; [|intros ?]
    | apply (keeps_ret _) ].

(** [createAgents] writes the agents and nothing else of the runner. *)
Lemma keeps_createAgents {B} (f : Runner -> B) :
  (forall g r, f (set_agents g r) = f r) -> keeps f (createAgents (W:=W)).
Proof.
  intros Hf. unfold createAgents, createAgent.
  repeat first [apply keeps_update; intros ?; apply Hf | keeps_step].
Qed.

Lemma keeps_queueTasks {B} (f : Runner -> B) : keeps f (queueTasks (W:=W)).
Proof. unfold queueTasks, queueTask. repeat keeps_step. Qed.

Lemma keeps_execute {B} (f : Runner -> B) : keeps f (execute (W:=W)).
Proof. unfold execute, setupEventHandlers. repeat keeps_step. Qed.

Lemma keeps_displayResults {B} (f : Runner -> B) : keeps f (displayResults (W:=W)).
Proof. unfold displayResults. repeat keeps_step. Qed.

Lemma keeps_cleanup {B} (f : Runner -> B) : keeps f (cleanup (W:=W)).
Proof. unfold cleanup. repeat keeps_step. Qed.

(** [initialize] writes the orchestrator and the cloud API and nothing else
    of the runner. *)
Lemma keeps_initialize {B} (f : Runner -> B) :
  (forall v r, f (set_orchestrator v r) = f r) ->
  (forall v r, f (set_api v r) = f r) ->
  keeps f (initialize (W:=W)).
Proof.
  intros Ho Ha. unfold initialize.
  repeat first [ apply keeps_update; intros ?; first [apply Ho|apply Ha] | keeps_step ].
Qed.

End Keeps.

Section Called.
Context {W : Type} `{External W}.

(** A call that returns has been made, and nothing else has changed. *)
Lemma lift_perform_Ok {A} c (op : W -> settled A * W) (s s1 : State W) a :
  lift (perform c op) s = (Ok a, s1) ->
  called c s s1 /\ op (world (proc s)) = (Fulfilled a, world (proc s1)).
Proof.
  unfold lift, perform. intros E.
  destruct (op (world (proc s))) as [[a'|e] w]; [|discriminate].
  injection E as <- <-. repeat split.
Qed.

Lemma on_orchestrator_Ok {A} method c (op : W -> settled A * W) (s s1 : State W) a :
  on_orchestrator method (perform c op) s = (Ok a, s1) ->
  called c s s1 /\ is_Some (orchestrator (this s)).
Proof.
  unfold on_orchestrator. intros E.
  apply bind_Ok in E as (o & s0 & E0 & E1).
  rewrite gets_run in E0. injection E0 as <- <-.
  destruct (orchestrator (this s)) as [o|]; [|discriminate].
  apply lift_perform_Ok in E1 as [Hc _]. split; [exact Hc|eauto].
Qed.

Lemma called_this c (s s1 : State W) : called c s s1 -> this s1 = this s.
Proof. intros Hc. apply Hc. Qed.

Lemma called_calls c (s s1 : State W) :
  called c s s1 -> calls (proc s1) = calls (proc s) ++ [c].
Proof. intros Hc. apply Hc. Qed.

Lemma update_Ok f (s s1 : State W) u :
  update f s = (Ok u, s1) -> s1 = mkState (f (this s)) (proc s).
Proof. intros E. inversion E. reflexivity. Qed.

(** [initialize], when it returns. *)
Lemma initialize_Ok (s s1 : State W) :
  initialize s = (Ok tt, s1) ->
  exists a,
    this s1 = set_api (Some a) (set_orchestrator (Some tt) (this s))
    /\ calls (proc s1)
       = calls (proc s)
         ++ initialize_calls (this s) (getenv (proc s) "REPOCHIEF_API_KEY")
    /\ timers (proc s1) = timers (proc s)
    /\ console (proc s1) = console (proc s).
Proof.
  unfold initialize. intros E.
  apply bind_Ok in E as (r & s0 & E0 & E). rewrite gets_run in E0. injection E0 as <- <-.
  apply bind_Ok in E as ([] & sa & E0 & E).
  apply lift_perform_Ok in E0 as [(Ta & Ca & Ea & _ & Ma & Oa) _].
  apply bind_Ok in E as ([] & s0 & E0 & E). apply update_Ok in E0. subst s0.
  apply bind_Ok in E as ([] & sb & E0 & E).
  apply on_orchestrator_Ok in E0 as [(Tb & Cb & Eb & _ & Mb & Ob) _].
  cbn [this proc] in Tb, Cb, Eb, Mb, Ob.
  apply bind_Ok in E as (key & s0 & E0 & E). rewrite gets_run in E0. injection E0 as <- <-.
  apply bind_Ok in E as (a & sc & E0 & E).
  apply lift_perform_Ok in E0 as [(Tc & Cc & Ec & _ & Mc & Oc) _].
  apply bind_Ok in E as ([] & s0 & E0 & E). apply update_Ok in E0. subst s0.
  apply lift_perform_Ok in E as [(Td & Cd & Ed & _ & Md & Od) _].
  cbn [this proc] in Td, Cd, Ed, Md, Od.
  exists a. split; [rewrite Td, Tc, Tb, Ta; reflexivity|]. split.
  - rewrite Cd, Cc, Cb, Ca. unfold initialize_calls, getenv. rewrite Eb, Ea.
    rewrite <- !app_assoc. reflexivity.
  - split; congruence.
Qed.

(** [setupEventHandlers] and [execute], when they return. *)
Lemma setupEventHandlers_Ok (s s1 : State W) :
  setupEventHandlers s = (Ok tt, s1) ->
  this s1 = this s
  /\ calls (proc s1) = calls (proc s) ++ map On (handlers (mockMode (this s))).
Proof.
  unfold setupEventHandlers. intros E.
  apply bind_Ok in E as ([] & s01 & E0 & E). apply on_orchestrator_Ok in E0 as [(T1 & C1 & _) _].
  apply bind_Ok in E as ([] & s02 & E0 & E). apply on_orchestrator_Ok in E0 as [(T2 & C2 & _) _].
  apply bind_Ok in E as ([] & s03 & E0 & E). apply on_orchestrator_Ok in E0 as [(T3 & C3 & _) _].
  apply bind_Ok in E as ([] & s04 & E0 & E). apply on_orchestrator_Ok in E0 as [(T4 & C4 & _) _].
  apply bind_Ok in E as ([] & s05 & E0 & E). apply on_orchestrator_Ok in E0 as [(T5 & C5 & _) _].
  apply bind_Ok in E as (r & s0 & E0 & E). rewrite gets_run in E0. injection E0 as <- <-.
  assert (T : this s05 = this s) by congruence. rewrite T in E.
  unfold handlers. destruct (mockMode (this s)); cbn [negb] in E.
  - rewrite when_false in E. injection E as <-. split; [exact T|].
    rewrite C5, C4, C3, C2, C1, <- !app_assoc. reflexivity.
  - rewrite when_true in E. apply on_orchestrator_Ok in E as [(T6 & C6 & _) _].
    split; [congruence|].
    rewrite C6, C5, C4, C3, C2, C1, <- !app_assoc. reflexivity.
Qed.

Lemma lift_waitForCompletion_Ok (s s1 : State W) evs :
  lift waitForCompletion s = (Ok evs, s1) ->
  this s1 = this s /\ calls (proc s1) = calls (proc s) ++ [WaitForCompletion].
Proof.
  unfold lift, waitForCompletion. intros E.
  destruct (ext_waitForCompletion (world (proc s))) as [x w].
  destruct (first_timer _); [discriminate|].
  destruct (completion x); [|discriminate].
  injection E as <- <-. split; reflexivity.
Qed.

Lemma execute_Ok (s s1 : State W) :
  execute s = (Ok tt, s1) ->
  this s1 = this s
  /\ calls (proc s1)
     = calls (proc s) ++ map On (handlers (mockMode (this s)))
       ++ [StartExecution; WaitForCompletion].
Proof.
  unfold execute. intros E.
  apply bind_Ok in E as ([] & sa & E0 & E). apply setupEventHandlers_Ok in E0 as (Ta & Ca).
  apply bind_Ok in E as ([] & sb & E0 & E). apply on_orchestrator_Ok in E0 as [(Tb & Cb & _) _].
  apply bind_Ok in E as (evs & sc & E0 & E). injection E as <-.
  unfold on_orchestrator in E0. apply bind_Ok in E0 as (o & s0 & E0 & E1).
  rewrite gets_run in E0. injection E0 as <- <-.
  destruct (orchestrator (this sb)); [|discriminate].
  apply lift_waitForCompletion_Ok in E1 as (Tc & Cc).
  split; [congruence|]. rewrite Cc, Cb, Ca, <- !app_assoc. reflexivity.
Qed.

Lemma displayResults_Ok (s s1 : State W) :
  displayResults s = (Ok tt, s1) ->
  this s1 = this s /\ calls (proc s1) = calls (proc s) ++ [GetFinalReport].
Proof.
  unfold displayResults. intros E.
  apply bind_Ok in E as (report & sa & E0 & E).
  apply on_orchestrator_Ok in E0 as [(Ta & Ca & _) _].
  unfold lift, log in E. injection E as <-. split; [exact Ta|exact Ca].
Qed.

(** [cleanup], when it returns: the orchestrator is shut down, then the
    cloud API is stopped if it can be. *)
Lemma cleanup_Ok (s s1 : State W) a :
  cleanup s = (Ok tt, s1) ->
  orchestrator (this s) = Some tt ->
  api (this s) = Some a ->
  this s1 = this s
  /\ calls (proc s1)
     = calls (proc s) ++ [Shutdown] ++ (if has_stop a then [ApiStop] else []).
Proof.
  unfold cleanup, try_catch. intros E Ho Ha.
  match type of E with (match ?b s with _ => _ end) = _ =>
    destruct (b s) as [[[]|e|t] s2] eqn:Eb end; [|discriminate|discriminate].
  injection E as <-.
  apply bind_Ok in Eb as (r & s0 & E0 & E). rewrite gets_run in E0. injection E0 as <- <-.
  rewrite Ho, Ha in E. rewrite bool_decide_true in E by eauto. rewrite when_true in E.
  apply bind_Ok in E as ([] & sa & E0 & E). apply on_orchestrator_Ok in E0 as [(Ta & Ca & _) _].
  destruct (has_stop a).
  - rewrite when_true in E.
    apply bind_Ok in E as ([] & sb & E0 & E). apply lift_perform_Ok in E0 as [(Tb & Cb & _) _].
    apply bind_Ok in E as (h & sc & E0 & E). injection E as <-.
    unfold lift, setTimeout in E0. injection E0 as _ <-. cbn [this proc calls].
    split; [congruence|]. rewrite Cb, Ca, <- !app_assoc. reflexivity.
  - apply bind_Ok in E as ([] & sb & E0 & E). rewrite when_false in E0. injection E0 as <-.
    apply bind_Ok in E as (h & sc & E0 & E). injection E as <-.
    unfold lift, setTimeout in E0. injection E0 as _ <-. cbn [this proc calls].
    split; [congruence|]. rewrite Ca, app_nil_r. reflexivity.
Qed.

End Called.

Section Attempt.
Context {W : Type} `{External W}.

(** The calls of a run that succeeds, in order.  When the [try] block of
    [run] returns, it has created the orchestrator with the session name,
    the budget and the mode of the runner, initialized it, created and
    started the cloud API, created every agent of the scenario before
    queueing any task, queued the whole plan before subscribing to the
    events, subscribed before starting the execution, asked for the report
    after the completion, and shut the orchestrator down before stopping
    the cloud API, which it stops only if the API has a [stop] method. *)
Theorem successful_run_calls (s s' : State W) :
  attempt s = (Ok tt, s') ->
  exists a,
    api (this s') = Some a
    /\ calls (proc s')
       = calls (proc s)
         ++ attempt_calls (this s) (getenv (proc s) "REPOCHIEF_API_KEY") a
              (agents (this s')).
Proof.
  unfold attempt. intros E.
  apply bind_Ok in E as ([] & s1 & E1 & E).
  pose proof (initialize_Ok _ _ E1) as (a & T1 & C1 & _).
  apply bind_Ok in E as ([] & s2 & E2 & E).
  pose proof (createAgents_calls _ _ E2) as (Sc2 & C2 & _).
  pose proof (keeps_createAgents api (fun _ _ => eq_refl) _ _ _ E2) as A2.
  pose proof (keeps_createAgents orchestrator (fun _ _ => eq_refl) _ _ _ E2) as O2.
  pose proof (keeps_createAgents mockMode (fun _ _ => eq_refl) _ _ _ E2) as M2.
  apply bind_Ok in E as ([] & s3 & E3 & E).
  pose proof (queueTasks_calls _ _ E3) as (T3 & C3 & _).
  apply bind_Ok in E as ([] & s4 & E4 & E).
  pose proof (execute_Ok _ _ E4) as (T4 & C4).
  apply bind_Ok in E as ([] & s5 & E5 & E).
  pose proof (displayResults_Ok _ _ E5) as (T5 & C5).
  assert (Ha : api (this s5) = Some a) by (rewrite T5, T4, T3, A2, T1; reflexivity).
  assert (Ho : orchestrator (this s5) = Some tt) by (rewrite T5, T4, T3, O2, T1; reflexivity).
  pose proof (cleanup_Ok _ _ a E Ho Ha) as (T6 & C6).
  exists a. split; [rewrite T6; exact Ha|].
  assert (Sc1 : scenario (this s1) = scenario (this s)) by (rewrite T1; reflexivity).
  rewrite C6, C5, C4, C3, C2, C1. unfold attempt_calls.
  rewrite T6, T5, T4, T3.
  rewrite (Planner.taskList_scenario (this s2) (this s)) by congruence.
  rewrite (Planner.swarm_scenario (this s1) (this s)) by exact Sc1.
  replace (mockMode (this s2)) with (mockMode (this s))
    by (rewrite M2, T1; reflexivity).
  rewrite <- !app_assoc. reflexivity.
Qed.

End Attempt.

(** The enterprise demo in real mode on the scripted world makes 4 calls to
    start, creates 5 agents, queues 5 tasks, subscribes to 6 events and
    makes 5 calls to finish. *)
Lemma successful_run_calls_witness :
  map (fun c => match c with
                | CreateAgent _ => "agent"
                | QueueTask _ => "task"
                | On _ => "on"
                | _ => "-"
                end)
      (calls (proc (attempt (Samples.fresh "enterprise" (Scripted.all_pass 5))).2))
  = ["-"; "-"; "-"; "-"; "agent"; "agent"; "agent"; "agent"; "agent";
     "task"; "task"; "task"; "task"; "task";
     "on"; "on"; "on"; "on"; "on"; "on"; "-"; "-"; "-"; "-"; "-"].
Proof.
  destruct (successful_run_calls
              (Samples.fresh "enterprise" (Scripted.all_pass 5))
              (attempt (Samples.fresh "enterprise" (Scripted.all_pass 5))).2)
    as (a & Ha & Hcalls).
  - vm_compute. reflexivity.
  - assert (Ea : a = mkCloudAPI true) by (vm_compute in Ha; congruence).
    rewrite Hcalls, Ea. vm_compute. reflexivity.
Defined.

Section Emits.
Context {W : Type} `{External W} {S : Type} (pr : S -> Proc W) (Q : Call -> Prop).

Lemma emits_nothing {A} (m : M S A) :
  (forall s r s', m s = (r, s') -> calls (pr s') = calls (pr s)) -> emits pr Q m.
Proof.
  intros Hm s r s' E. exists []. rewrite app_nil_r. split; [eauto|constructor].
Qed.

Lemma emits_ret {A} (a : A) : emits pr Q (mret a : M S A).
Proof. apply emits_nothing. intros s r s' E. injection E as <- <-. reflexivity. Qed.

Lemma emits_throw {A} e : emits pr Q (throw e : M S A).
Proof. apply emits_nothing. intros s r s' E. injection E as <- <-. reflexivity. Qed.

Lemma emits_gets {A} (f : S -> A) : emits pr Q (gets f).
Proof. apply emits_nothing. intros s r s' E. injection E as <- <-. reflexivity. Qed.

Lemma emits_modify (f : S -> S) : (forall s, pr (f s) = pr s) -> emits pr Q (modify f).
Proof.
  intros Hf. apply emits_nothing. intros s r s' E. injection E as <- <-.
  rewrite Hf. reflexivity.
Qed.

Lemma emits_bind {A B} (m : M S A) (k : A -> M S B) :
  emits pr Q m -> (forall a, emits pr Q (k a)) -> emits pr Q (m ≫= k).
Proof.
  intros Hm Hk s r s' E. unfold mbind, M_bind, bind in E.
  destruct (m s) as [[a|e|t] s1] eqn:Em; destruct (Hm _ _ _ Em) as (cs & C & F).
  - destruct (Hk a _ _ _ E) as (ds & D & G). exists (cs ++ ds).
    split; [rewrite D, C, app_assoc; reflexivity|apply Forall_app; split; assumption].
  - injection E as <- <-. eauto.
  - injection E as <- <-. eauto.
Qed.

Lemma emits_when c (m : M S unit) : emits pr Q m -> emits pr Q (when c m).
Proof. destruct c; [tauto|]. intros _. apply (emits_ret tt). Qed.

End Emits.

Section EmitsProcess.
Context {W : Type} `{External W} (Q : Call -> Prop).

Lemma emits_perform {A} c (op : W -> settled A * W) :
  Q c -> emits (fun p => p) Q (perform c op).
Proof.
  intros Hc p r p' E. unfold perform in E. exists [c].
  destruct (op (world p)) as [[a|e] w]; injection E as <- <-;
    (split; [reflexivity|repeat constructor; exact Hc]).
Qed.

Lemma emits_log l : emits (fun p : Proc W => p) Q (log l).
Proof. apply emits_nothing. intros p r p' E. injection E as <- <-. reflexivity. Qed.

Lemma emits_waitForCompletion :
  Q WaitForCompletion -> emits (fun p : Proc W => p) Q waitForCompletion.
Proof.
  intros Hc p r p' E. unfold waitForCompletion in E. exists [WaitForCompletion].
  destruct (ext_waitForCompletion (world p)) as [x w].
  destruct (first_timer _); [|destruct (completion x)]; injection E as <- <-;
    (split; [reflexivity|repeat constructor; exact Hc]).
Qed.

Lemma emits_lift {A} (m : M (Proc W) A) :
  emits (fun p => p) Q m -> emits (@proc W) Q (lift m).
Proof.
  intros Hm s r s' E. unfold lift in E.
  destruct (m (proc s)) as [r0 p'] eqn:Em. injection E as <- <-.
  exact (Hm _ _ _ Em).
Qed.

Lemma emits_update f : emits (@proc W) Q (update f).
Proof. apply emits_modify. reflexivity. Qed.

Lemma emits_on_orchestrator {A} method (m : M (Proc W) A) :
  emits (fun p => p) Q m -> emits (@proc W) Q (on_orchestrator method m).
Proof.
  intros Hm. unfold on_orchestrator. apply emits_bind; [apply emits_gets|].
  intros [o|]; [apply emits_lift, Hm|apply emits_throw].
Qed.

Lemma emits_agent_id_of sl : emits (@proc W) Q (agent_id_of sl).
Proof.
  unfold agent_id_of. apply emits_bind; [apply emits_gets|].
  intros [a|]; [apply (emits_ret (@proc W))|apply emits_throw].
Qed.

End EmitsProcess.

Ltac emits_step :=
  first
    [ apply emits_on_orchestrator
    | apply emits_agent_id_of
    | apply emits_update
    | apply emits_lift
    | apply emits_perform
    | apply emits_waitForCompletion
    | apply emits_log
    | apply emits_gets
    | apply emits_when
    | apply emits_bind; [|intros ?]
    | apply (emits_ret _) ].

Section Failure.
Context {W : Type} `{External W}.

(** The steps before [cleanup] never shut the orchestrator down and never
    stop the cloud API. *)
Lemma front_holds_on : emits (@proc W) (fun c => ~ releases c) front.
Proof.
  unfold front, initialize, createAgents, createAgent, queueTasks, queueTask, execute,
    setupEventHandlers, displayResults.
  repeat emits_step; intros [?|?]; discriminate.
Qed.

Lemma attempt_front (s : State W) : attempt s = (front ≫= fun _ => cleanup) s.
Proof.
  unfold attempt, front, mbind, M_bind, bind.
  destruct (initialize s) as [[[]|?|?] s1]; [|reflexivity|reflexivity].
  destruct (createAgents s1) as [[[]|?|?] s2]; [|reflexivity|reflexivity].
  destruct (queueTasks s2) as [[[]|?|?] s3]; [|reflexivity|reflexivity].
  destruct (execute s3) as [[[]|?|?] s4]; [|reflexivity|reflexivity].
  destruct (displayResults s4) as [[[]|?|?] s5]; reflexivity.
Qed.

(** [cleanup] does not throw: an exception in it is an exit with 1. *)
Lemma cleanup_no_throw (s s' : State W) e : cleanup s <> (Throw e, s').
Proof.
  unfold cleanup, try_catch.
  match goal with |- (match ?b s with _ => _ end) <> _ =>
    destruct (b s) as [[[]|e'|t] s2] end; discriminate.
Qed.

(** A failed run leaves what it has started.  When a step of the [try]
    block of [run] throws, the script prints the message of the error and
    exits with 1 at once: of the calls made since the configuration was
    displayed, none shuts the orchestrator down and none stops the cloud
    API. *)
Theorem failed_run_skips_cleanup (p : Proc W) (s0 s1 : State W) e :
  prelude (mkState (constructor (Some (options p))) p) = (Ok tt, s0) ->
  attempt s0 = (Throw e, s1) ->
  exists s2,
    script p = (Halt (Exited 1), s2)
    /\ console (proc s2) = console (proc s1) ++ [DemoFailed (message e)]
    /\ calls (proc s2) = calls (proc s1)
    /\ exists cs, calls (proc s1) = calls (proc s0) ++ cs
                  /\ Forall (fun c => ~ releases c) cs.
Proof.
  intros Hpre Ha. eexists. split; [|split; [|split]].
  - unfold script, run. erewrite bind_step by exact Hpre.
    erewrite try_catch_Throw by exact Ha. reflexivity.
  - reflexivity.
  - reflexivity.
  - rewrite attempt_front in Ha. unfold mbind, M_bind, bind in Ha.
    destruct (front s0) as [[[]|e'|t] s'] eqn:Ef.
    + destruct (cleanup_no_throw _ _ _ Ha).
    + injection Ha as <- <-. exact (front_holds_on _ _ _ Ef).
    + discriminate.
Qed.

End Failure.

(** The basic demo whose execution is rejected exits with 1 after 17
    calls, the last of them [waitForCompletion]. *)
Lemma failed_run_skips_cleanup_witness :
  let p := Scripted.process Scripted.non_interactive [] Samples.execution_rejects in
  (script p).1 = Halt (Exited 1)
  /\ console (proc (script p).2) = [DemoFailed "Budget exceeded"]
  /\ last (calls (proc (script p).2)) = Some WaitForCompletion.
Proof.
  intros p.
  destruct (failed_run_skips_cleanup p
              (prelude (mkState (constructor (Some (options p))) p)).2
              (attempt (prelude (mkState (constructor (Some (options p))) p)).2).2
              (mkError "Error" "Budget exceeded"))
    as (s2 & Hs & Hc & Hcalls & _).
  - vm_compute. reflexivity.
  - vm_compute. reflexivity.
  - rewrite Hs. split; [reflexivity|]. cbn [snd]. rewrite Hc, Hcalls.
    split; vm_compute; reflexivity.
Defined.

Section Queueing.
Context {W : Type} `{External W}.

Lemma queueTasks_loop (s : State W) : queueTasks s = queue_all (entries (this s)) s.
Proof.
  unfold queueTasks. erewrite bind_step by apply gets_run. unfold entries.
  destruct (negb (String.eqb (scenario (this s)) "basic")); reflexivity.
Qed.

Lemma taskList_entries r g : taskList r (ident_of g) = map (task_of g) (entries r).
Proof.
  unfold taskList, entries.
  destruct (negb (String.eqb (scenario r) "basic")); reflexivity.
Qed.

Lemma roles_entries r : roles r = map fst (entries r).
Proof.
  unfold roles, entries.
  destruct (negb (String.eqb (scenario r) "basic")); reflexivity.
Qed.

(** How one [queueTask] ends: without a call when there is no orchestrator,
    or with the call made and the answer of the orchestrator. *)
Lemma queueTask_cases spec (s s1 : State W) r :
  queueTask spec s = (r, s1) ->
  this s1 = this s
  /\ ((orchestrator (this s) = None /\ s1 = s /\ exists e, r = Throw e)
      \/ (calls (proc s1) = calls (proc s) ++ [QueueTask spec]
          /\ ((exists t, r = Ok t)
              \/ (exists e w, r = Throw e
                              /\ ext_queueTask spec (world (proc s)) = (Rejected e, w))))).
Proof.
  unfold queueTask, on_orchestrator. erewrite bind_step by apply gets_run.
  destruct (orchestrator (this s)) as [o|].
  - unfold lift, perform.
    destruct (ext_queueTask spec (world (proc s))) as [[t|e] w] eqn:Ew;
      intros E; injection E as <- <-; (split; [reflexivity|]); right;
      (split; [reflexivity|]); eauto.
  - intros E. injection E as <- <-. split; [reflexivity|]. left. eauto.
Qed.

Lemma agent_id_of_cases (sl : Agents -> option Agent) (s s1 : State W) r :
  agent_id_of sl s = (r, s1) ->
  s1 = s
  /\ ((exists a, sl (agents (this s)) = Some a /\ r = Ok (agent_id a))
      \/ (sl (agents (this s)) = None /\ exists e, r = Throw e)).
Proof.
  unfold agent_id_of. erewrite bind_step by apply gets_run.
  destruct (sl (agents (this s))) as [a|]; intros E; injection E as <- <-;
    (split; [reflexivity|]); eauto.
Qed.

Lemma bind_cases {S A B} (m : M S A) (k : A -> M S B) s r s2 :
  (m ≫= k) s = (r, s2) ->
  (exists a s1, m s = (Ok a, s1) /\ k a s1 = (r, s2))
  \/ (exists e, m s = (Throw e, s2) /\ r = Throw e)
  \/ (exists t, m s = (Halt t, s2) /\ r = Halt t).
Proof.
  unfold mbind, M_bind, bind. destruct (m s) as [[a|e|t] s1]; intros E.
  - left. eauto.
  - injection E as <- <-. right. left. eauto.
  - injection E as <- <-. right. right. eauto.
Qed.

(** The loop hands the tasks over in order and stops at the first one it
    cannot queue: [k] tasks were handed over, the last of them rejected
    when the loop throws for a rejection; else it throws before it hands
    over the next one, for want of an orchestrator or of the agent of the
    slot. *)
Lemma queue_all_prefix l : forall (s s1 : State W) r,
  queue_all l s = (r, s1) ->
  this s1 = this s
  /\ (forall t, r <> Halt t)
  /\ exists k,
       calls (proc s1)
       = calls (proc s) ++ map QueueTask (take k (map (task_of (agents (this s))) l))
       /\ (k <= length l)%nat
       /\ match r with
          | Ok _ => k = length l
          | Throw e =>
              (exists spec w w',
                 last (take k (map (task_of (agents (this s))) l)) = Some spec
                 /\ ext_queueTask spec w = (Rejected e, w'))
              \/ ((k < length l)%nat
                  /\ (orchestrator (this s) = None
                      \/ exists ro task,
                           l !! k = Some (ro, task)
                           /\ slot ro (agents (this s)) = None))
          | Halt _ => False
          end.
Proof.
  induction l as [|[ro task] rest IH]; intros s s1 r E.
  - injection E as <- <-. split; [reflexivity|]. split; [discriminate|].
    exists 0%nat. cbn. rewrite app_nil_r. auto.
  - cbn [queue_all] in E.
    apply bind_cases in E as [(id & s0 & E0 & E)|[(e & E0 & ->)|(t & E0 & ->)]];
      apply agent_id_of_cases in E0 as (-> & [(a & Ha & Er)|(Ha & e' & Er)]);
      try discriminate.
    + injection Er as ->.
      apply bind_cases in E as [(q & s2 & E0 & E)|[(e & E0 & ->)|(t & E0 & ->)]];
        apply queueTask_cases in E0 as (T & [(Ho & -> & e' & Er)|(C & [(q' & Er)|(e' & w & Er & Ew)])]);
        try discriminate.
      * destruct (IH _ _ _ E) as (T' & Hh & k & C' & Hk & Hend).
        split; [congruence|]. split; [exact Hh|]. exists (Datatypes.S k).
        split; [|split; [cbn; lia|]].
        -- rewrite C', C, T. cbn [map take]. unfold task_of at 2, ident_of. cbn [fst snd].
           rewrite Ha. rewrite <- app_assoc. reflexivity.
        -- rewrite T in Hend. destruct r as [u|e|t]; [cbn [length]; lia| |exact Hend].
           destruct Hend as [(spec & w & w' & Hl & Hw)|(Hlt & Hwhy)].
           ++ left. exists spec, w, w'. split; [|exact Hw].
              cbn [map take]. rewrite last_cons, Hl. reflexivity.
           ++ right. split; [cbn [length]; lia|exact Hwhy].
      * injection Er as <-. split; [reflexivity|]. split; [discriminate|]. exists 0%nat.
        cbn [take map length]. rewrite app_nil_r. split; [reflexivity|]. split; [lia|].
        right. split; [lia|]. left. exact Ho.
      * injection Er as <-. split; [exact T|]. split; [discriminate|]. exists 1%nat.
        split; [|split; [cbn; lia|]].
        -- rewrite C. cbn [map take]. unfold task_of, ident_of. cbn [fst snd].
           rewrite Ha. destruct (map _ rest); reflexivity.
        -- left. exists (task (agent_id a)), (world (proc s)), w.
           split; [|exact Ew]. cbn [map take]. unfold task_of, ident_of. cbn [fst snd].
           rewrite Ha. destruct (map _ rest); reflexivity.
    + injection Er as <-. split; [reflexivity|]. split; [discriminate|]. exists 0%nat.
      cbn [take map length]. rewrite app_nil_r. split; [reflexivity|]. split; [lia|].
      right. split; [lia|]. right. exists ro, task. split; [reflexivity|exact Ha].
Qed.

(** With the orchestrator there and the slots filled, the loop can only
    throw what the orchestrator answers to one of its tasks. *)
Lemma queue_all_throws l : forall (s s1 : State W) e,
  queue_all l s = (Throw e, s1) ->
  orchestrator (this s) = Some tt ->
  Forall (fun ro => is_Some (slot ro (agents (this s)))) (map fst l) ->
  exists spec w w',
    In spec (map (task_of (agents (this s))) l)
    /\ ext_queueTask spec w = (Rejected e, w').
Proof.
  induction l as [|[ro task] rest IH]; intros s s1 e E Ho Hs; [discriminate|].
  cbn [queue_all] in E. cbn [map fst] in Hs. apply Forall_cons_1 in Hs as [[a Ha] Hs].
  apply bind_cases in E as [(id & s0 & E0 & E)|[(e0 & E0 & Ee)|(t & E0 & Ee)]];
    try discriminate;
    apply agent_id_of_cases in E0 as (-> & [(a' & Ha' & Er)|(Ha' & e' & Er)]);
    try discriminate; try congruence.
  injection Er as ->.
  apply bind_cases in E as [(q & s2 & E0 & E)|[(e0 & E0 & Ee)|(t & E0 & Ee)]];
    try discriminate;
    apply queueTask_cases in E0 as (T & [(Ho' & _)|(C & [(q' & Er)|(e' & w & Er & Ew)])]);
    try discriminate; try congruence.
  - destruct (IH _ _ _ E) as (spec & w & w' & Hin & Hw).
    + congruence.
    + rewrite T. exact Hs.
    + exists spec, w, w'. split; [|exact Hw]. rewrite T in Hin. right. exact Hin.
  - injection Ee as ->. injection Er as ->. eexists _, _, _. split; [|exact Ew].
    left. unfold task_of, ident_of. cbn [fst snd]. rewrite Ha'. reflexivity.
Qed.

End Queueing.

Section QueueTasks.
Context {W : Type} `{External W}.

(** Whatever happens in [queueTasks], the tasks it has handed to the
    orchestrator are the first [k] tasks of the plan, in the order of the
    plan, and the process is not ended there.  When it returns, the whole
    plan was handed over.  When it throws, either the last task handed
    over is the one the orchestrator rejected, with that error, or the
    next task of the plan was not handed over, for want of an orchestrator
    or of the agent of its slot. *)
Theorem queueTasks_prefix (s s1 : State W) (r : result unit) :
  queueTasks s = (r, s1) ->
  let plan := taskList (this s) (ident_of (agents (this s))) in
  this s1 = this s
  /\ (forall t, r <> Halt t)
  /\ exists k,
       (k <= length plan)%nat
       /\ queued (calls (proc s1)) = queued (calls (proc s)) ++ take k plan
       /\ match r with
          | Ok _ => k = length plan
          | Throw e =>
              (exists spec w w',
                 last (take k plan) = Some spec
                 /\ ext_queueTask spec w = (Rejected e, w'))
              \/ ((k < length plan)%nat
                  /\ (orchestrator (this s) = None
                      \/ exists ro,
                           roles (this s) !! k = Some ro
                           /\ slot ro (agents (this s)) = None))
          | Halt _ => False
          end.
Proof.
  intros E plan. subst plan. rewrite queueTasks_loop in E.
  apply queue_all_prefix in E as (T & Hh & k & C & Hk & Hend).
  rewrite taskList_entries. split; [exact T|]. split; [exact Hh|].
  exists k. rewrite length_map. split; [exact Hk|]. split.
  - rewrite C, queued_app, queued_map. reflexivity.
  - destruct r as [u|e|t]; [exact Hend| |exact Hend].
    destruct Hend as [Hrej|(Hlt & [Ho|(ro & task & Hl & Hslot)])]; [left; exact Hrej| |].
    + right. split; [exact Hlt|]. left. exact Ho.
    + right. split; [exact Hlt|]. right. exists ro. split; [|exact Hslot].
      rewrite roles_entries, list_lookup_fmap, Hl. reflexivity.
Qed.

(** After a [createAgents] that returns, [queueTasks] reads no missing
    agent and no missing orchestrator: if it throws, the error is the
    rejection the orchestrator answered to one of the tasks of the plan. *)
Theorem queueTasks_throws_rejection (s s0 s1 : State W) (e : Error) :
  createAgents s = (Ok tt, s0) ->
  queueTasks s0 = (Throw e, s1) ->
  exists spec w w',
    In spec (taskList (this s0) (ident_of (agents (this s0))))
    /\ ext_queueTask spec w = (Rejected e, w').
Proof.
  intros Ec Eq.
  pose proof (createAgents_calls _ _ Ec) as (Sc & _ & Hslots).
  pose proof (keeps_createAgents orchestrator (fun _ _ => eq_refl) _ _ _ Ec) as Ho.
  assert (Hs : is_Some (orchestrator (this s))).
  { unfold createAgents in Ec. apply bind_Ok in Ec as (a & sa & E0 & _).
    apply on_orchestrator_Ok in E0 as [_ Hs]. exact Hs. }
  destruct Hs as [[] Hs].
  rewrite queueTasks_loop in Eq. rewrite taskList_entries.
  apply (queue_all_throws _ _ _ _ Eq); [congruence|].
  rewrite <- roles_entries, (Planner.roles_scenario _ (this s)) by exact Sc.
  exact Hslots.
Qed.

End QueueTasks.

(** Under a cap of 40000 tokens the second task of the fullstack plan is
    rejected: two tasks were handed over, and nothing after them. *)
Lemma queueTasks_prefix_witness :
  map task_id (queued (calls (proc (queueTasks (Samples.capped_staffed "fullstack" 40000)).2)))
  = ["comprehend-todo-api"; "generate-todo-api"].
Proof.
  destruct (queueTasks_prefix (Samples.capped_staffed "fullstack" 40000)
              (queueTasks (Samples.capped_staffed "fullstack" 40000)).2
              (queueTasks (Samples.capped_staffed "fullstack" 40000)).1)
    as (_ & _ & k & Hk & Hq & _).
  - destruct (queueTasks (Samples.capped_staffed "fullstack" 40000)). reflexivity.
  - vm_compute. reflexivity.
Defined.

Lemma queueTasks_throws_rejection_witness :
  exists spec w w',
    In spec (taskList (this (Samples.capped_staffed "basic" 40000))
               (ident_of (agents (this (Samples.capped_staffed "basic" 40000)))))
    /\ ext_queueTask spec w
       = (Rejected (mkError "Error" "Token budget exceeded by generate-todo-api"), w').
Proof.
  apply (queueTasks_throws_rejection
           (Samples.capped_initialized "basic" 40000)
           (Samples.capped_staffed "basic" 40000)
           (queueTasks (Samples.capped_staffed "basic" 40000)).2).
  - vm_compute. reflexivity.
  - vm_compute. reflexivity.
Defined.

Section EmitsMore.
Context {W : Type} `{External W} (Q : Call -> Prop).

Lemma emits_try_catch {S A} (pr : S -> Proc W) (body : M S A) handler :
  emits pr Q body -> (forall e, emits pr Q (handler e)) ->
  emits pr Q (try_catch body handler).
Proof.
  intros Hb Hh s r s' E. unfold try_catch in E.
  destruct (body s) as [[a|e|t] s1] eqn:Eb; destruct (Hb _ _ _ Eb) as (cs & C & F).
  - injection E as <- <-. eauto.
  - destruct (Hh e _ _ _ E) as (ds & D & G). exists (cs ++ ds).
    split; [rewrite D, C, app_assoc; reflexivity|apply Forall_app; split; assumption].
  - injection E as <- <-. eauto.
Qed.

Lemma emits_setTimeout a ms : emits (fun p : Proc W => p) Q (setTimeout a ms).
Proof. apply emits_nothing. intros p r p' E. injection E as <- <-. reflexivity. Qed.

Lemma emits_process_exit {A} code :
  emits (fun p : Proc W => p) Q (process_exit code : M (Proc W) A).
Proof. apply emits_nothing. intros p r p' E. injection E as <- <-. reflexivity. Qed.

End EmitsMore.

Ltac keeps_steps :=
  repeat first
    [ apply keeps_update; intros ?; reflexivity
    | apply keeps_on_orchestrator
    | apply keeps_agent_id_of
    | apply keeps_lift
    | apply keeps_gets
    | apply keeps_when
    | apply keeps_try_catch; [|intros ?]
    | apply keeps_bind; [|intros ?]
    | apply (keeps_ret _) ].

Ltac funded_steps :=
  repeat first
    [ apply emits_setTimeout
    | apply emits_process_exit
    | apply emits_try_catch; [|intros ?]
    | emits_step ];
  try exact I.

Section Budget.
Context {W : Type} `{External W}.

Lemma or_else_truthy {A} `{Truthy A} (x : option A) (d : A) :
  truthy d = true -> truthy (or_else x d) = true.
Proof.
  intros Hd. unfold or_else. destruct x as [a|]; [|exact Hd].
  destruct (truthy a) eqn:Ea; [exact Ea|exact Hd].
Qed.

Lemma constructor_budget o : truthy (budget (constructor o)) = true.
Proof. unfold constructor. cbn [budget]. apply or_else_truthy. reflexivity. Qed.

(** A computation that keeps the budget and makes funded calls is sound
    from every state with a usable budget. *)
Lemma sound_frame {A} (m : M (State W) A) s :
  keeps budget m -> emits (@proc W) funded m ->
  truthy (budget (this s)) = true -> sound m s.
Proof.
  intros Hk He Hb r s' E. split; [rewrite (Hk _ _ _ E); exact Hb|].
  exact (He _ _ _ E).
Qed.

Lemma sound_bind {A B} (m : M (State W) A) (k : A -> M (State W) B) s :
  sound m s -> (forall a s1, m s = (Ok a, s1) -> sound (k a) s1) -> sound (m ≫= k) s.
Proof.
  intros Hm Hk r s' E. unfold mbind, M_bind, bind in E.
  destruct (m s) as [[a|e|t] s1] eqn:Em; destruct (Hm _ _ Em) as (Hb & cs & C & F).
  - destruct (Hk a s1 eq_refl _ _ E) as (Hb' & ds & D & G). split; [exact Hb'|].
    exists (cs ++ ds). split; [rewrite D, C, app_assoc; reflexivity|].
    apply Forall_app. split; assumption.
  - injection E as <- <-. eauto.
  - injection E as <- <-. eauto.
Qed.

Lemma sound_try_catch {A} (body : M (State W) A) handler s :
  sound body s -> (forall e s1, body s = (Throw e, s1) -> sound (handler e) s1) ->
  sound (try_catch body handler) s.
Proof.
  intros Hb Hh r s' E. unfold try_catch in E.
  destruct (body s) as [[a|e|t] s1] eqn:Eb; destruct (Hb _ _ Eb) as (Hbud & cs & C & F).
  - injection E as <- <-. eauto.
  - destruct (Hh e s1 eq_refl _ _ E) as (Hb' & ds & D & G). split; [exact Hb'|].
    exists (cs ++ ds). split; [rewrite D, C, app_assoc; reflexivity|].
    apply Forall_app. split; assumption.
  - injection E as <- <-. eauto.
Qed.

(** The budget after a sound computation. *)
Lemma sound_budget {A} (m : M (State W) A) s r s' :
  sound m s -> m s = (r, s') -> truthy (budget (this s')) = true.
Proof. intros Hm E. apply (Hm _ _ E). Qed.

(** [interactiveSetup] replaces the budget by the answer, or by 10 when the
    answer is missing, 0 or NaN. *)
Lemma sound_interactiveSetup (s : State W) :
  truthy (budget (this s)) = true -> sound interactiveSetup s.
Proof.
  intros Hb r s' E. revert E.
  unfold interactiveSetup, mbind, M_bind, bind, lift, perform, update, modify.
  destruct (ext_prompt (keys SCENARIOS) (world (proc s))) as [[a|e] w];
    intros E; injection E as <- <-; cbn [this proc calls budget set_budget].
  - split; [apply or_else_truthy; reflexivity|].
    eexists. split; [reflexivity|repeat constructor].
  - split; [exact Hb|]. eexists. split; [reflexivity|repeat constructor].
Qed.

Lemma sound_prelude (s : State W) :
  truthy (budget (this s)) = true -> sound prelude s.
Proof.
  intros Hb. unfold prelude.
  apply sound_bind; [apply sound_frame; [keeps_steps|funded_steps|exact Hb]|].
  intros p s1 E. rewrite gets_run in E. injection E as <- <-.
  apply sound_bind.
  - destruct (_ && _); [apply sound_interactiveSetup, Hb|].
    apply sound_frame; [apply (keeps_ret _)|apply (emits_ret _)|exact Hb].
  - intros [] s1 E.
    apply sound_frame.
    + unfold displayConfig. apply keeps_bind; [apply keeps_gets|].
      intros [c|m|]; [apply (keeps_ret _)|apply (keeps_ret _)|apply keeps_throw].
    + unfold displayConfig. apply emits_bind; [apply emits_gets|].
      intros [c|m|]; [apply (emits_ret _)|apply (emits_ret _)|apply emits_throw].
    + destruct (_ && _).
      * exact (sound_budget _ _ _ _ (sound_interactiveSetup s Hb) E).
      * rewrite when_false in E. injection E as <-. exact Hb.
Qed.

Lemma sound_initialize (s : State W) :
  truthy (budget (this s)) = true -> sound initialize s.
Proof.
  intros Hb. unfold initialize.
  apply sound_bind; [apply sound_frame; [keeps_steps|funded_steps|exact Hb]|].
  intros r s1 E. rewrite gets_run in E. injection E as <- <-. cbn zeta.
  apply sound_bind.
  - apply sound_frame; [keeps_steps| |exact Hb].
    apply emits_lift, emits_perform. exact Hb.
  - intros [] s1 E.
    apply sound_frame; [keeps_steps|funded_steps|].
    rewrite (keeps_lift budget _ _ _ _ E). exact Hb.
Qed.

Lemma sound_attempt (s : State W) :
  truthy (budget (this s)) = true -> sound attempt s.
Proof.
  intros Hb. unfold attempt.
  apply sound_bind; [apply sound_initialize, Hb|].
  intros [] s1 E.
  apply sound_frame.
  - apply keeps_bind; [apply keeps_createAgents; reflexivity|intros ?].
    apply keeps_bind; [apply keeps_queueTasks|intros ?].
    apply keeps_bind; [apply keeps_execute|intros ?].
    apply keeps_bind; [apply keeps_displayResults|intros ?].
    apply keeps_cleanup.
  - unfold createAgents, createAgent, queueTasks, queueTask, execute,
      setupEventHandlers, displayResults, cleanup.
    funded_steps.
  - exact (sound_budget _ _ _ _ (sound_initialize s Hb) E).
Qed.

(** The budget is always usable.  Whatever the environment, the arguments,
    the answers of the prompt and the outcome, the budget of the runner at
    the end of the script is a number other than 0 and NaN (a missing,
    zero or unreadable budget has become 10), and so is the budget of
    every orchestrator the script has created. *)
Theorem budget_always_usable (p : Proc W) (r : result unit) (s : State W) :
  script p = (r, s) ->
  truthy (budget (this s)) = true
  /\ exists cs, calls (proc s) = calls p ++ cs /\ Forall funded cs.
Proof.
  unfold script, run. revert r s.
  change (sound (prelude ≫= fun _ =>
            try_catch attempt
              (fun error => lift (log (DemoFailed (message error)));;
                            lift (process_exit 1)))
            (mkState (constructor (Some (options p))) p)).
  apply sound_bind; [apply sound_prelude, constructor_budget|].
  intros [] s0 E.
  pose proof (sound_budget _ _ _ _
                (sound_prelude (mkState (constructor (Some (options p))) p)
                   (constructor_budget _)) E) as Hb.
  apply sound_try_catch; [apply sound_attempt, Hb|].
  intros e s1 Ea.
  apply sound_frame; [keeps_steps|funded_steps|].
  exact (sound_budget _ _ _ _ (sound_attempt _ Hb) Ea).
Qed.

End Budget.

(** With [DEMO_BUDGET=0] and no prompt, the orchestrator is created with a
    budget of 10. *)
Lemma budget_always_usable_witness :
  let p := Scripted.process Scripted.non_interactive [("DEMO_BUDGET", "0")]
             (Scripted.all_pass 3) in
  truthy (budget (this (script p).2)) = true
  /\ head (calls (proc (script p).2))
     = Some (CreateOrchestrator (mkOrchestratorConfig "todo-demo-basic" (Num 10) false)).
Proof.
  intros p. split.
  - apply (budget_always_usable p (script p).1 (script p).2).
    destruct (script p). reflexivity.
  - vm_compute. reflexivity.
Defined.

Lemma created_map (l : list AgentConfig) : created (map CreateAgent l) = l.
Proof. induction l as [|x xs IH]; [reflexivity|]. cbn. f_equal. exact IH. Qed.

Section Scenario.
Context {W : Type} `{External W}.

(** Every scenario that is neither basic nor enterprise is fullstack.  For
    such an identifier, known or not, [createAgents] asks for the five
    agents of the fullstack scenario and a [queueTasks] that returns has
    queued the five fullstack tasks, texts included. *)
Theorem other_scenarios_run_fullstack (s s0 : State W) (l : list TaskSpec) :
  scenario (this s) <> "basic" ->
  scenario (this s) <> "enterprise" ->
  createAgents s = (Ok tt, s0) ->
  queues s0 l ->
  created (calls (proc s0))
  = created (calls (proc s)) ++ swarm (runner_of "fullstack")
  /\ l = taskList (runner_of "fullstack") (ident_of (agents (this s0)))
  /\ length l = 5%nat.
Proof.
  intros Hb He Ec Q.
  apply createAgents_calls in Ec as (Sc & C & _).
  apply queues_plan in Q as [-> _].
  apply String.eqb_neq in Hb, He.
  assert (Hl : forall ident,
             taskList (this s0) ident = taskList (runner_of "fullstack") ident).
  { intros ident. unfold taskList, task1, task2, getRequirementsDescription,
      getApiSuccessCriteria. rewrite Sc, Hb, He. reflexivity. }
  split; [|split; [apply Hl|rewrite Hl; reflexivity]].
  rewrite C, created_app, created_map. f_equal.
  unfold swarm. rewrite Hb. reflexivity.
Qed.

Lemma displayConfig_run (s : State W) :
  displayConfig s
  = (if existsb (String.eqb (scenario (this s)))
          (keys SCENARIOS ++ object_prototype_members)
     then Ok tt
     else Throw (TypeError_undefined "name"),
     s).
Proof.
  unfold displayConfig. erewrite bind_step by apply gets_run.
  unfold get, inherited. rewrite existsb_app.
  change (keys SCENARIOS) with ["basic"; "fullstack"; "enterprise"].
  unfold SCENARIOS. cbn [own_property existsb].
  rewrite (String.eqb_sym "basic"), (String.eqb_sym "fullstack"),
    (String.eqb_sym "enterprise").
  destruct (String.eqb (scenario (this s)) "basic"); [reflexivity|].
  destruct (String.eqb (scenario (this s)) "fullstack"); [reflexivity|].
  destruct (String.eqb (scenario (this s)) "enterprise"); [reflexivity|].
  cbn [orb]. destruct (existsb _ object_prototype_members); reflexivity.
Qed.

(** [displayConfig] accepts exactly the three scenarios and the names every
    object inherits; for every other identifier, the empty one included,
    it throws the TypeError of reading [name] of undefined, and it changes
    nothing in either case. *)
Theorem displayConfig_accepts (s : State W) :
  (In (scenario (this s)) (keys SCENARIOS ++ object_prototype_members)
   -> displayConfig s = (Ok tt, s))
  /\ (~ In (scenario (this s)) (keys SCENARIOS ++ object_prototype_members)
      -> displayConfig s = (Throw (TypeError_undefined "name"), s)).
Proof.
  rewrite displayConfig_run.
  destruct (existsb _ _) eqn:E.
  - split; [reflexivity|]. intros Hn. exfalso. apply Hn.
    apply existsb_exists in E as (k & Hin & Ek).
    apply String.eqb_eq in Ek. rewrite Ek. exact Hin.
  - split; [|reflexivity]. intros Hin. exfalso.
    assert (Ht : existsb (String.eqb (scenario (this s)))
                   (keys SCENARIOS ++ object_prototype_members) = true).
    { apply existsb_exists. eexists. split; [exact Hin|apply String.eqb_refl]. }
    congruence.
Qed.

(** The number of agents [createAgents] asks for is the number the
    configuration of the scenario announces. *)
Theorem swarm_as_announced (s s0 : State W) (c : Scenario) :
  createAgents s = (Ok tt, s0) ->
  get SCENARIOS (scenario (this s)) = Own c ->
  exists l, created (calls (proc s0)) = created (calls (proc s)) ++ l
            /\ Z.of_nat (length l) = scenario_agents c.
Proof.
  intros Ec Hc. apply createAgents_calls in Ec as (_ & C & _).
  exists (swarm (this s)). split.
  - rewrite C, created_app, created_map. reflexivity.
  - revert Hc. unfold get, SCENARIOS, swarm. cbn [own_property].
    destruct (String.eqb_spec "basic" (scenario (this s))) as [<-|_];
      [intros Hc; injection Hc as <-; reflexivity|].
    destruct (String.eqb_spec "fullstack" (scenario (this s))) as [<-|_];
      [intros Hc; injection Hc as <-; reflexivity|].
    destruct (String.eqb_spec "enterprise" (scenario (this s))) as [<-|_];
      [intros Hc; injection Hc as <-; reflexivity|].
    destruct (inherited _); discriminate.
Qed.

End Scenario.

(** The identifier staging, forced past [displayConfig], gets the five
    fullstack tasks. *)
Lemma other_scenarios_run_fullstack_witness :
  map task_id (queued (calls (proc (Scripted.planned "staging"))))
  = ["comprehend-todo-api"; "generate-todo-api"; "test-todo-api";
     "validate-todo-api"; "generate-todo-frontend"].
Proof.
  assert (Hq : queues (Scripted.staffed "staging")
                 (queued (calls (proc (Scripted.planned "staging")))))
    by (eexists; split; vm_compute; reflexivity).
  destruct (other_scenarios_run_fullstack (Scripted.initialized "staging")
              (Scripted.staffed "staging") _
              ltac:(vm_compute; discriminate) ltac:(vm_compute; discriminate)
              ltac:(vm_compute; reflexivity) Hq) as (_ & -> & _).
  reflexivity.
Defined.

Lemma swarm_as_announced_witness :
  exists l, created (calls (proc (Scripted.staffed "enterprise")))
            = created (calls (proc (Scripted.initialized "enterprise"))) ++ l
            /\ Z.of_nat (length l) = 5.
Proof.
  apply (swarm_as_announced (Scripted.initialized "enterprise")
           (Scripted.staffed "enterprise")
           (mkScenario "Enterprise TODO App" 5 "Full app with auth, DB, and Docker")).
  - vm_compute. reflexivity.
  - vm_compute. reflexivity.
Defined.

Section Cleanup.
Context {W : Type} `{External W}.

Lemma lift_perform_run {A} c (op : W -> settled A * W) (s : State W) :
  lift (perform c op) s
  = (match (op (world (proc s))).1 with Fulfilled a => Ok a | Rejected e => Throw e end,
     mkState (this s)
       (mkProc (argv (proc s)) (env (proc s)) (op (world (proc s))).2
               (calls (proc s) ++ [c]) (timers (proc s)) (next_handle (proc s))
               (console (proc s)))).
Proof. unfold lift, perform. destruct (op (world (proc s))) as [[a|e] w]; reflexivity. Qed.

Lemma on_orchestrator_run {A} method (m : M (Proc W) A) (s : State W) o :
  orchestrator (this s) = Some o -> on_orchestrator method m s = lift m s.
Proof.
  intros Ho. unfold on_orchestrator. erewrite bind_step by apply gets_run.
  rewrite Ho. reflexivity.
Qed.

(** How [cleanup] ends, by what the orchestrator and the cloud API answer.
    When [shutdown] is rejected, [cleanup] exits with 1 at once: the cloud
    API is not stopped and no exit is scheduled.  When [shutdown] succeeds,
    the cloud API is stopped if it has a [stop] method; a rejected [stop]
    is an exit with 1, and otherwise the exit with 0 is scheduled after
    500 ms and [cleanup] returns. *)
Theorem cleanup_outcomes (s : State W) (a : CloudAPI) :
  orchestrator (this s) = Some tt ->
  api (this s) = Some a ->
  let down := ext_shutdown (world (proc s)) in
  let stop := ext_apiStop down.2 in
  let exit0 := mkTimer (next_handle (proc s)) 500 (TimerExit 0) in
  let r := (cleanup s).1 in
  let p' := proc (cleanup s).2 in
  match down.1 with
  | Rejected _ =>
      r = Halt (Exited 1)
      /\ calls p' = calls (proc s) ++ [Shutdown]
      /\ timers p' = timers (proc s)
  | Fulfilled _ =>
      if has_stop a then
        match stop.1 with
        | Rejected _ =>
            r = Halt (Exited 1)
            /\ calls p' = calls (proc s) ++ [Shutdown; ApiStop]
            /\ timers p' = timers (proc s)
        | Fulfilled _ =>
            r = Ok tt
            /\ calls p' = calls (proc s) ++ [Shutdown; ApiStop]
            /\ timers p' = timers (proc s) ++ [exit0]
        end
      else
        r = Ok tt
        /\ calls p' = calls (proc s) ++ [Shutdown]
        /\ timers p' = timers (proc s) ++ [exit0]
  end.
Proof.
  intros Ho Ha. cbn zeta.
  destruct (cleanup s) as [r s'] eqn:Ec. cbn [fst snd]. revert Ec. unfold cleanup.
  set (body := (gets this ≫= _) : M (State W) unit).
  assert (Eb : body s
               = ((when true (on_orchestrator "shutdown" (perform Shutdown ext_shutdown)))
                  ≫= fun _ =>
                    when (has_stop a) (lift (perform ApiStop ext_apiStop));;
                    lift (setTimeout (TimerExit 0) 500);; ret tt) s).
  { subst body. erewrite bind_step by apply gets_run. rewrite Ho, Ha.
    rewrite bool_decide_true by eauto. reflexivity. }
  unfold try_catch. rewrite Eb. clear Eb body.
  rewrite when_true. unfold mbind at 1, M_bind, bind.
  rewrite (on_orchestrator_run _ _ _ _ Ho), lift_perform_run.
  destruct (ext_shutdown (world (proc s))) as [[[]|e] w]; cbn [fst snd];
    [|intros Ec; injection Ec as <- <-; repeat split].
  destruct (has_stop a).
  - rewrite when_true. unfold mbind at 1, M_bind, bind. rewrite lift_perform_run.
    cbn [proc world]. destruct (ext_apiStop w) as [[[]|e] w']; cbn [fst snd];
      intros Ec; injection Ec as <- <-; cbn; rewrite <- app_assoc; repeat split.
  - intros Ec; injection Ec as <- <-. cbn. repeat split.
Qed.

End Cleanup.

(** On the scripted world, where everything succeeds, [cleanup] stops the
    cloud API and schedules the exit. *)
Lemma cleanup_outcomes_witness :
  let s := (front (Samples.fresh "basic" (Scripted.all_pass 3))).2 in
  (cleanup s).1 = Ok tt
  /\ timers (proc (cleanup s).2) = [mkTimer 0 500 (TimerExit 0)].
Proof.
  intros s.
  pose proof (cleanup_outcomes s (mkCloudAPI true)
                ltac:(vm_compute; reflexivity) ltac:(vm_compute; reflexivity)) as Hc.
  cbn zeta in Hc.
  assert (Ed : (ext_shutdown (world (proc s))).1 = Fulfilled tt) by (vm_compute; reflexivity).
  rewrite Ed in Hc. cbn [has_stop] in Hc.
  assert (Es : (ext_apiStop (ext_shutdown (world (proc s))).2).1 = Fulfilled tt)
    by (vm_compute; reflexivity).
  rewrite Es in Hc. destruct Hc as (Hr & _ & Ht).
  split; [exact Hr|]. rewrite Ht. vm_compute. reflexivity.
Defined.

Section Interactive.
Context {W : Type} `{External W}.

(** Started without arguments the script prompts, offering the three
    scenarios, and the answers decide: the scenario, the mode and the
    budget of the runner are those answered (the budget 10 when it was not
    asked, or answered 0 or NaN), whatever [DEMO_SCENARIO], [MOCK_MODE] and
    [DEMO_BUDGET] say; and with a scenario among those offered the
    configuration is displayed without error. *)
Theorem interactive_answers_decide (p : Proc W) (a : Answers) (w : W) :
  (length (argv p) <=? 2)%nat && negb (argv_includes p "--non-interactive") = true ->
  ext_prompt (keys SCENARIOS) (world p) = (Fulfilled a, w) ->
  In (ans_scenario a) (keys SCENARIOS) ->
  exists s0,
    prelude (mkState (constructor (Some (options p))) p) = (Ok tt, s0)
    /\ this s0
       = mkRunner (ans_scenario a) (ans_mockMode a) (or_else (ans_budget a) (Num 10))
                  (argv_includes p "--verbose") None None no_agents
    /\ calls (proc s0) = calls p ++ [Prompt ["basic"; "fullstack"; "enterprise"]].
Proof.
  intros Hi Hp Hin. eexists. split; [|split].
  - unfold prelude. erewrite bind_step by apply gets_run. cbn [proc]. rewrite Hi.
    rewrite when_true. erewrite bind_step.
    2:{ unfold interactiveSetup.
        erewrite bind_step by (rewrite lift_perform_run; cbn [proc world]; rewrite Hp;
                               reflexivity).
        erewrite bind_step by reflexivity. erewrite bind_step by reflexivity.
        reflexivity. }
    rewrite displayConfig_run. cbn [this scenario set_scenario set_mockMode set_budget].
    replace (existsb _ _) with true; [reflexivity|].
    symmetry. rewrite existsb_app. apply orb_true_iff. left.
    apply existsb_exists. exists (ans_scenario a). split; [exact Hin|apply String.eqb_refl].
  - cbn [this]. unfold set_budget, set_mockMode, set_scenario, constructor, options.
    cbn. destruct (argv_includes p "--verbose"); reflexivity.
  - reflexivity.
Qed.

End Interactive.

(** The environment asks for an unknown scenario and a budget of 0; the
    prompt answers basic in mock mode: the run is the basic demo with a
    budget of 10. *)
Lemma interactive_answers_decide_witness :
  exists s0,
    prelude (mkState (constructor (Some (options Samples.prompted))) Samples.prompted)
    = (Ok tt, s0)
    /\ this s0 = mkRunner "basic" true (Num 10) false None None no_agents
    /\ calls (proc s0) = [Prompt ["basic"; "fullstack"; "enterprise"]].
Proof.
  apply (interactive_answers_decide Samples.prompted (mkAnswers "basic" true None)
           (world Samples.prompted)).
  - reflexivity.
  - reflexivity.
  - left. reflexivity.
Defined.

Section NonInteractive.
Context {W : Type} `{External W}.

Lemma or_else_twice {A} `{Truthy A} (x : option A) (d : A) :
  or_else (Some (or_else x d)) d = or_else x d.
Proof.
  unfold or_else. destruct x as [a|].
  - destruct (truthy a) eqn:Ea; [rewrite Ea; reflexivity|].
    destruct (truthy d); reflexivity.
  - destruct (truthy d); reflexivity.
Qed.

(** Started with any argument after the name of the script, [--verbose]
    for one, or with [--non-interactive] anywhere, the script does not
    prompt: before its [try] block it only displays the configuration, and
    the scenario, the mode and the budget of the runner are those of the
    environment, or basic, real and 10. *)
Theorem arguments_suppress_prompt (p : Proc W) :
  (2 < length (argv p))%nat \/ argv_includes p "--non-interactive" = true ->
  let r := constructor (Some (options p)) in
  prelude (mkState r p) = displayConfig (mkState r p)
  /\ scenario r = or_else (getenv p "DEMO_SCENARIO") "basic"
  /\ mockMode r = strict_eq_string (getenv p "MOCK_MODE") "true"
  /\ budget r = or_else (Some (parseInt (getenv p "DEMO_BUDGET"))) (Num 10)
  /\ verbose r = argv_includes p "--verbose".
Proof.
  intros Harg. cbn zeta. split; [|split; [|split; [|split]]].
  - unfold prelude. erewrite bind_step by apply gets_run. cbn [proc].
    replace ((length (argv p) <=? 2)%nat && negb (argv_includes p "--non-interactive"))
      with false.
    + erewrite bind_step by apply when_false. reflexivity.
    + symmetry. destruct Harg as [Hlen|Hflag].
      * apply andb_false_iff. left. apply Nat.leb_gt. exact Hlen.
      * rewrite Hflag. apply andb_false_r.
  - unfold constructor, options. cbn [scenario if_defined opt_scenario].
    apply or_else_twice.
  - reflexivity.
  - unfold constructor, options. cbn [budget if_defined opt_budget].
    apply or_else_twice.
  - unfold constructor, options. cbn [verbose if_defined opt_verbose].
    unfold or_else. destruct (argv_includes p "--verbose"); reflexivity.
Qed.

End NonInteractive.

(** The command of the demo script of the recorder: [node], the script and
    [--verbose], with the two variables set. *)
Lemma arguments_suppress_prompt_witness :
  let p := Scripted.process ["node"; "/pkg/src/run-demo.js"; "--verbose"]
             [("DEMO_SCENARIO", "enterprise"); ("MOCK_MODE", "true")]
             (Scripted.all_pass 5) in
  let r := constructor (Some (options p)) in
  prelude (mkState r p) = displayConfig (mkState r p)
  /\ scenario r = "enterprise"
  /\ mockMode r = true
  /\ budget r = Num 10
  /\ verbose r = true.
Proof.
  cbn zeta.
  apply (arguments_suppress_prompt
           (Scripted.process ["node"; "/pkg/src/run-demo.js"; "--verbose"]
              [("DEMO_SCENARIO", "enterprise"); ("MOCK_MODE", "true")]
              (Scripted.all_pass 5))).
  left. cbn. lia.
Defined.

(** The display of the configuration passes for [constructor], a name
    every object inherits, and throws for [staging]. *)
Lemma displayConfig_accepts_witness :
  displayConfig (Samples.fresh "constructor" (Scripted.all_pass 3))
  = (Ok tt, Samples.fresh "constructor" (Scripted.all_pass 3))
  /\ displayConfig (Samples.fresh "staging" (Scripted.all_pass 3))
     = (Throw (TypeError_undefined "name"), Samples.fresh "staging" (Scripted.all_pass 3)).
Proof.
  split.
  - apply (displayConfig_accepts (Samples.fresh "constructor" (Scripted.all_pass 3))).
    vm_compute. tauto.
  - apply (displayConfig_accepts (Samples.fresh "staging" (Scripted.all_pass 3))).
    vm_compute. intuition discriminate.
Defined.

End TraceFacts.

(** ** The package: [runDemo], [getScenarios], [getScenarioConfig] *)

Module IndexFacts.
Import RunDemo Index.

(** *** [Object.keys], property lookup and spread *)

Lemma insert_index_In (k x : N * string) (l : list (N * string)) :
  In x (insert_index k l) <-> x = k \/ In x l.
Proof.
  induction l as [|y l IH]; cbn [insert_index In]; [intuition|].
  destruct (k.1 <? y.1)%N; cbn [In]; [intuition|]. rewrite IH. intuition.
Qed.

Lemma sorted_In (names : list string) (x : N * string) :
  In x (fold_right insert_index []
          (flat_map (fun key => match array_index key with
                                | Some n => [(n, key)]
                                | None => []
                                end) names))
  <-> In x.2 names /\ array_index x.2 = Some x.1.
Proof.
  induction names as [|key names IH]; cbn [flat_map fold_right In]; [tauto|].
  destruct (array_index key) as [n|] eqn:En; cbn [app].
  - cbn [fold_right]. rewrite insert_index_In, IH. split.
    + intros [->|[Hin Hx]]; [cbn; auto|auto].
    + intros [[E|Hin] Hx]; [left|right; auto].
      destruct x as [m k]. cbn in *. subst k. congruence.
  - rewrite IH. split; [tauto|]. intros [[E|Hin] Hx]; [subst key; congruence|auto].
Qed.

Lemma indices_In (names : list string) (key : string) :
  In key (indices names) <-> In key names /\ is_index key = true.
Proof.
  unfold indices, is_index. rewrite in_map_iff. split.
  - intros ([n k] & <- & Hin). apply sorted_In in Hin as [Hin Hx]. cbn in *.
    rewrite Hx. auto.
  - intros [Hin Hx]. destruct (array_index key) as [n|] eqn:En; [|discriminate].
    exists (n, key). split; [reflexivity|]. apply sorted_In. auto.
Qed.

(** The keys of an object are its own properties. *)
Lemma keys_In {A} (obj : list (string * A)) (key : string) :
  In key (keys obj) <-> In key (map fst obj).
Proof.
  unfold keys. rewrite in_app_iff, indices_In, filter_In, negb_true_iff.
  destruct (is_index key); intuition congruence.
Qed.

Lemma own_property_None {A} (obj : list (string * A)) key :
  own_property obj key = None <-> ~ In key (keys obj).
Proof.
  rewrite keys_In.
  induction obj as [|[k v] obj IH]; cbn [own_property map fst In]; [tauto|].
  destruct (String.eqb_spec k key) as [->|Hne].
  - split; [discriminate|]. intros Hn. exfalso. apply Hn. left. reflexivity.
  - rewrite IH. tauto.
Qed.

Lemma own_property_NoDup {A} (obj : list (string * A)) key v :
  List.NoDup (map fst obj) -> In (key, v) obj -> own_property obj key = Some v.
Proof.
  induction obj as [|[k w] obj IH]; cbn [own_property map fst In]; [tauto|].
  intros Hnd [E|Hin].
  - injection E as -> ->. rewrite String.eqb_refl. reflexivity.
  - apply List.NoDup_cons_iff in Hnd as [Hk Hnd].
    destruct (String.eqb_spec k key) as [->|Hne].
    + exfalso. apply Hk. apply in_map_iff. exists (key, v). split; [reflexivity|exact Hin].
    + apply IH; assumption.
Qed.

Lemma own_property_In {A} (obj : list (string * A)) key v :
  own_property obj key = Some v -> In (key, v) obj.
Proof.
  induction obj as [|[k w] obj IH]; cbn [own_property In]; [discriminate|].
  destruct (String.eqb_spec k key) as [->|Hne].
  - intros E. injection E as ->. left. reflexivity.
  - intros E. right. exact (IH E).
Qed.

Lemma inherited_In key : inherited key = true <-> In key object_prototype_members.
Proof.
  unfold inherited. rewrite existsb_exists. split.
  - intros (k & Hin & E). apply String.eqb_eq in E. rewrite E. exact Hin.
  - intros Hin. exists key. split; [exact Hin|apply String.eqb_refl].
Qed.

Lemma own_property_assign {A} (obj : list (string * A)) k v k' :
  own_property (assign obj k v) k' = if String.eqb k k' then Some v else own_property obj k'.
Proof.
  induction obj as [|[x w] obj IH]; cbn [assign own_property].
  - destruct (String.eqb k k'); reflexivity.
  - destruct (String.eqb_spec x k) as [->|Hx]; cbn [own_property].
    + destruct (String.eqb k k'); reflexivity.
    + rewrite IH. destruct (String.eqb_spec k k') as [E|Hk]; [|reflexivity].
      subst k'. destruct (String.eqb_spec x k); [contradiction|reflexivity].
Qed.

(** A property of the spread is that of the source, or else that of the
    target. *)
Lemma own_property_spread {A} (target source : list (string * A)) k :
  own_property (spread target source) k
  = match own_property source k with
    | Some v => Some v
    | None => own_property target k
    end.
Proof.
  unfold spread.
  assert (Hfold : forall ks acc,
            own_property
              (fold_left (fun acc key => match own_property source key with
                                         | Some v => assign acc key v
                                         | None => acc
                                         end) ks acc) k
            = match own_property source k with
              | Some v => if existsb (String.eqb k) ks then Some v else own_property acc k
              | None => own_property acc k
              end).
  { induction ks as [|key ks IH]; intros acc; cbn [fold_left existsb].
    - destruct (own_property source k); reflexivity.
    - rewrite IH. destruct (own_property source k) as [v|] eqn:Ek.
      + destruct (existsb (String.eqb k) ks); [rewrite orb_true_r; reflexivity|].
        rewrite orb_false_r. destruct (String.eqb_spec k key) as [<-|Hne].
        * rewrite Ek, own_property_assign, String.eqb_refl. reflexivity.
        * destruct (own_property source key); [|reflexivity].
          rewrite own_property_assign.
          destruct (String.eqb_spec key k); [congruence|reflexivity].
      + destruct (own_property source key) as [w|] eqn:Ekey; [|reflexivity].
        rewrite own_property_assign.
        destruct (String.eqb_spec key k); [congruence|reflexivity]. }
  rewrite Hfold. destruct (own_property source k) as [v|] eqn:Ek; [|reflexivity].
  replace (existsb (String.eqb k) (keys source)) with true; [reflexivity|].
  symmetry. apply existsb_exists. exists k. split; [|apply String.eqb_refl].
  destruct (in_dec String.string_dec k (keys source)) as [Hin|Hnin]; [exact Hin|].
  apply own_property_None in Hnin. congruence.
Qed.

Lemma insert_index_sorted (k : N * string) (l : list (N * string)) :
  StronglySorted (fun a b => (a.1 <= b.1)%N) l ->
  StronglySorted (fun a b => (a.1 <= b.1)%N) (insert_index k l).
Proof.
  induction l as [|y l IH]; intros Hs; cbn [insert_index].
  - repeat constructor.
  - inversion Hs as [|? ? Hl Hy]; subst.
    destruct (N.ltb_spec k.1 y.1) as [Hlt|Hge].
    + constructor; [exact Hs|]. constructor; [lia|].
      eapply List.Forall_impl; [|exact Hy]. cbn. intros a Ha. lia.
    + constructor; [apply IH, Hl|].
      apply List.Forall_forall. intros x Hx. apply insert_index_In in Hx as [->|Hx]; [exact Hge|].
      rewrite List.Forall_forall in Hy. exact (Hy x Hx).
Qed.

(** *** [runDemo] *)

Section RunDemo.
Context {W : Type} `{External W}.


End RunDemo.

(** *** [getScenarios] and [getScenarioConfig] *)

Section Scenarios.
Variable Config : Type.
Variable scenarios : list (string * Config).

(** [getScenarioConfig] returns [null] exactly for an identifier that is
    neither a scenario of the configuration file nor the name of a member
    every object inherits: for [constructor] or [toString] it returns that
    member, not [null]. *)
Theorem getScenarioConfig_null (scenarioId : string) :
  getScenarioConfig Config scenarios scenarioId = null
  <-> ~ In scenarioId (keys scenarios ++ object_prototype_members).
Proof.
  unfold getScenarioConfig, get. rewrite in_app_iff.
  destruct (own_property scenarios scenarioId) as [c|] eqn:Eo.
  - split; [discriminate|]. intros Hn. exfalso. apply Hn. left.
    destruct (in_dec String.string_dec scenarioId (keys scenarios)) as [Hin|Hnin];
      [exact Hin|].
    apply own_property_None in Hnin. congruence.
  - apply own_property_None in Eo.
    destruct (inherited scenarioId) eqn:Ei.
    + apply inherited_In in Ei. split; [discriminate|tauto].
    + split; [|reflexivity]. intros _ [Hin|Hin]; [tauto|].
      apply inherited_In in Hin. congruence.
Qed.

End Scenarios.

Section Listing.
Variable V : Type.
Variable text : string -> V.
Variable scenarios : list (string * list (string * V)).

(** With each scenario named once in the configuration file,
    [getScenarios] lists one entry for each key of [Object.keys], in its
    order: the scenarios whose key is an array index come first, by
    ascending index, then the others in the order of the file.  The entry
    of a key has the properties of the scenario [getScenarioConfig]
    returns for the key, and its [id] is the [id] of that scenario when it
    has one of its own, and the key otherwise. *)
Theorem getScenarios_listing :
  List.NoDup (map fst scenarios) ->
  Forall2 (fun key entry =>
             exists c, In (key, c) scenarios
               /\ getScenarioConfig _ scenarios key = config c
               /\ own_property entry "id" = Some (default (text key) (own_property c "id"))
               /\ forall k, k <> "id" -> own_property entry k = own_property c k)
          (keys scenarios) (getScenarios V text scenarios)
  /\ (forall key, In key (keys scenarios) <-> In key (map fst scenarios))
  /\ exists front : list (N * string),
       keys scenarios
       = map snd front ++ List.filter (fun key => negb (is_index key)) (map fst scenarios)
       /\ List.Forall (fun x => array_index x.2 = Some x.1) front
       /\ StronglySorted (fun a b => (a.1 <= b.1)%N) front.
Proof.
  intros Hnd. split; [|split].
  - unfold getScenarios.
    assert (Hall : forall l, (forall key, In key l -> In key (keys scenarios)) ->
              Forall2 (fun key entry =>
                         exists c, In (key, c) scenarios
                           /\ getScenarioConfig _ scenarios key = config c
                           /\ own_property entry "id"
                              = Some (default (text key) (own_property c "id"))
                           /\ forall k, k <> "id" -> own_property entry k = own_property c k)
                      l (map (fun key => spread [("id", text key)]
                                           (default [] (own_property scenarios key))) l)).
    { induction l as [|key l IH]; intros Hl; cbn [map]; constructor.
      - assert (Hin : In key (keys scenarios)) by (apply Hl; left; reflexivity).
        destruct (own_property scenarios key) as [c|] eqn:Ec.
        + exists c. change (default [] (Some c)) with c.
          split; [apply own_property_In, Ec|].
          split; [unfold getScenarioConfig, get; rewrite Ec; reflexivity|].
          split.
          * rewrite own_property_spread. cbn [own_property].
            rewrite String.eqb_refl. destruct (own_property c "id"); reflexivity.
          * intros k Hk. rewrite own_property_spread. cbn [own_property].
            destruct (String.eqb_spec "id" k) as [<-|_]; [contradiction|].
            destruct (own_property c k); reflexivity.
        + apply own_property_None in Ec. contradiction.
      - apply IH. intros k Hk. apply Hl. right. exact Hk. }
    apply Hall. auto.
  - intros key. apply keys_In.
  - exists (fold_right insert_index []
              (flat_map (fun key => match array_index key with
                                    | Some n => [(n, key)]
                                    | None => []
                                    end) (map fst scenarios))).
    split; [reflexivity|]. split.
    + apply List.Forall_forall. intros x Hx. apply sorted_In in Hx. tauto.
    + induction (flat_map _ (map fst scenarios)) as [|x l IH]; cbn [fold_right].
      * constructor.
      * apply insert_index_sorted, IH.
Qed.

End Listing.

(** A configuration whose scenarios are named basic, 10 and 2, the last
    with an [id] of its own: the list goes 2, 10, basic, and the entry of
    2 has the scenario's [id]. *)
Lemma getScenarios_listing_witness :
  let file := [ ("basic", [("name", "Basic TODO API")]);
                ("10", [("name", "Ten")]);
                ("2", [("name", "Two"); ("id", "second")]) ] in
  getScenarios string (fun s => s) file
  = [ [("id", "second"); ("name", "Two")];
      [("id", "10"); ("name", "Ten")];
      [("id", "basic"); ("name", "Basic TODO API")] ]
  /\ Forall2 (fun key entry =>
                exists c, In (key, c) file
                  /\ getScenarioConfig _ file key = config c
                  /\ own_property entry "id" = Some (default key (own_property c "id"))
                  /\ forall k, k <> "id" -> own_property entry k = own_property c k)
             (keys file) (getScenarios string (fun s => s) file).
Proof.
  cbn zeta. split; [vm_compute; reflexivity|].
  apply (getScenarios_listing string (fun s => s)
           [ ("basic", [("name", "Basic TODO API")]);
             ("10", [("name", "Ten")]);
             ("2", [("name", "Two"); ("id", "second")]) ]).
  repeat constructor; cbn; intuition discriminate.
Defined.

End IndexFacts.

(** ** The end-to-end check: its calls, its verdict and its end *)

Module CheckFacts.
Import TestE2E Traces CheckTraces Frame EndToEnd.

(** *** The summary of the gate statuses *)

(** [gateStatuses] holds, under each status that some result reports, the
    number of the results that report it; except that under a status that
    names a member every object inherits ([constructor], [toString], ...) it
    holds a text, not a number, and under [__proto__] nothing.  It holds
    nothing under a status that no result reports. *)
Theorem gateStatuses_counts (results : list GateResult) (k : string) :
  gateStatuses results !! k
  = let n := length (List.filter (fun r => String.eqb (status r) k) results) in
    if (n =? 0)%nat then None
    else if String.eqb k "__proto__" then None
    else if inherited k then Some (Appended (Z.of_nat n))
    else Some (Counted (Z.of_nat n)).
Proof.
  unfold gateStatuses. rewrite gateStatuses_fold. cbn zeta.
  rewrite lookup_empty.
  set (n := length _).
  destruct (Nat.eqb_spec n 0) as [->|Hn]; [reflexivity|].
  destruct (Z.eqb_spec (Z.of_nat n) 0); [lia|reflexivity].
Qed.

(** *** The verdict *)

Lemma forallb_id (l : list bool) : forallb (fun c => c) l = true <-> Forall (eq true) l.
Proof.
  induction l as [|c l IH]; cbn [forallb]; [split; [constructor|reflexivity]|].
  rewrite andb_true_iff, IH. split.
  - intros [-> Hl]. constructor; [reflexivity|exact Hl].
  - intros Hl. inversion Hl; subst. split; [reflexivity|assumption].
Qed.

Lemma testSuccess_iff (report : Report) (tasks : list Task) (evs : list Event)
    (checks : list bool) :
  testSuccess report tasks evs checks = true
  <-> tasksCompleted report = Z.of_nat (length tasks)
      /\ tasksFailed report = 0
      /\ failedTasks evs = 0
      /\ completedTasks evs = Z.of_nat (length tasks)
      /\ qualityGateResults evs <> []
      /\ Forall (eq true) checks
      /\ forall r, In r (qualityGateResults evs) ->
                   status r <> "failed" /\ status r <> "error".
Proof.
  unfold testSuccess, allTestsPassed. cbn [forallb].
  rewrite !andb_true_iff, negb_true_iff, !Z.eqb_eq, Z.ltb_lt, forallb_id.
  assert (Hg : hasFailedGates (gateStatuses (qualityGateResults evs)) = false
               <-> forall r, In r (qualityGateResults evs) ->
                             status r <> "failed" /\ status r <> "error").
  { rewrite <- not_true_iff_false, hasFailedGates_iff. split.
    - intros Hn r Hin. split; intros E; apply Hn; exists r; tauto.
    - intros Ha (r & Hin & Hs). destruct (Ha r Hin). tauto. }
  rewrite Hg.
  assert (Hq : 0 < Z.of_nat (length (qualityGateResults evs))
               <-> qualityGateResults evs <> []).
  { destruct (qualityGateResults evs); cbn [length]; split; try lia; congruence. }
  rewrite Hq. tauto.
Qed.

Section Check.
Context {W : Type} `{External W}.

(** *** Stepping through the check *)

Lemma lift_perform_check {A} c (op : W -> settled A * W) (s : State W) :
  lift (perform c op) s
  = (match (op (world (proc s))).1 with Fulfilled a => Ok a | Rejected e => Throw e end,
     mkState (api s)
       (mkProc (argv (proc s)) (env (proc s)) (op (world (proc s))).2
               (calls (proc s) ++ [c]) (timers (proc s)) (next_handle (proc s))
               (console (proc s)))).
Proof.
  unfold lift, perform. destruct (op (world (proc s))) as [[a|e] w]; reflexivity.
Qed.

Lemma access_run file (s : State W) :
  access file s
  = (Ok (ext_fsAccess (artifact file) (world (proc s))).1,
     mkState (api s)
       (mkProc (argv (proc s)) (env (proc s))
               (ext_fsAccess (artifact file) (world (proc s))).2
               (calls (proc s) ++ [FsAccess (artifact file)]) (timers (proc s))
               (next_handle (proc s)) (console (proc s)))).
Proof.
  unfold access, lift, artifact.
  destruct (ext_fsAccess _ (world (proc s))) as [b w]. reflexivity.
Qed.

(** [runE2ETest] rejects only on an API without a [stop] method, with the
    TypeError of the unguarded [api.stop()] of its [finally] block, and
    then nothing is stopped and the timer of the exit is not set.
    Otherwise it resolves: whatever is thrown in its [try] block is
    printed and makes it resolve with false, a rejection of the promise of
    [api.stop()] is swallowed, [api.stop] has been called exactly when
    there is an API, and the timer of the exit is pending.  A timer that
    ends the process in the [try] block ends it for good. *)
Theorem runE2ETest_settles (s s2 : State W) (r : result bool) :
  runE2ETest s = (r, s2) ->
  exists rb s1,
    body s = (rb, s1)
    /\ api s2 = api s1
    /\ match r with
       | Ok b =>
           stoppable (api s1) = true
           /\ b = resolution rb
           /\ calls (proc s2)
              = calls (proc s1) ++ (match api s1 with Some _ => [ApiStop] | None => [] end)
           /\ console (proc s2)
              = console (proc s1)
                ++ (match rb with Throw e => [TestError (message e)] | _ => [] end)
           /\ timers (proc s2)
              = timers (proc s1) ++ [mkTimer (next_handle (proc s1)) 1000 (TimerExit 0)]
       | Throw e =>
           stoppable (api s1) = false
           /\ e = TypeError_not_a_function "api.stop"
           /\ calls (proc s2) = calls (proc s1)
           /\ console (proc s2)
              = console (proc s1)
                ++ (match rb with Throw e => [TestError (message e)] | _ => [] end)
           /\ timers (proc s2) = timers (proc s1)
       | Halt t => rb = Halt t /\ s2 = s1
       end.
Proof.
  intros E. destruct (body s) as [rb s1] eqn:Eb. exists rb, s1.
  split; [reflexivity|].
  assert (Hcases : (exists t, rb = Halt t) \/ forall t, rb <> Halt t).
  { destruct rb; [right; discriminate|right; discriminate|left; eauto]. }
  destruct Hcases as [[t ->]|Hh].
  - assert (Er : runE2ETest s = (Halt t, s1)).
    { unfold runE2ETest. apply try_finally_Halt.
      rewrite (guarded_of_body _ _ _ Eb). reflexivity. }
    rewrite Er in E. injection E as <- <-. auto.
  - destruct (runE2ETest_of_body _ _ _ Eb Hh) as (s2' & Hl & Ha & Hr).
    destruct (stoppable (api s1)) eqn:Hs.
    + destruct Hr as (Er & Hc & Ht). rewrite Er in E. injection E as <- <-.
      split; [exact Ha|]. unfold resolution. auto 10.
    + destruct Hr as (Er & Hc & Ht). rewrite Er in E. injection E as <- <-.
      split; [exact Ha|]. auto 10.
Qed.

End Check.

(** The execution is rejected: the check prints the error, resolves with
    false and stops the API. *)
Lemma runE2ETest_settles_witness :
  let s := mkState None (Scripted.e2e_process Samples.execution_rejects) in
  let s2 := (runE2ETest s).2 in
  exists rb s1,
    body s = (rb, s1)
    /\ api s2 = api s1
    /\ stoppable (api s1) = true
    /\ false = resolution rb
    /\ calls (proc s2)
       = calls (proc s1) ++ (match api s1 with Some _ => [ApiStop] | None => [] end)
    /\ console (proc s2)
       = console (proc s1)
         ++ (match rb with Throw e => [TestError (message e)] | _ => [] end)
    /\ timers (proc s2)
       = timers (proc s1) ++ [mkTimer (next_handle (proc s1)) 1000 (TimerExit 0)].
Proof.
  cbn zeta.
  apply (runE2ETest_settles
           (mkState None (Scripted.e2e_process Samples.execution_rejects))
           _ (Ok false)).
  vm_compute. reflexivity.
Defined.

Section Stops.
Context {W : Type} `{External W}.

Lemma holds_ret {A} (a : A) : holds (fun c => ~ releases c) (mret a : M (State W) A).
Proof.
  intros s r s' E. injection E as <- <-. split; [reflexivity|].
  exists []. rewrite app_nil_r. split; [reflexivity|constructor].
Qed.

Lemma holds_bind {A B} (m : M (State W) A) (k : A -> M (State W) B) :
  holds (fun c => ~ releases c) m ->
  (forall a, holds (fun c => ~ releases c) (k a)) ->
  holds (fun c => ~ releases c) (m ≫= k).
Proof.
  intros Hm Hk s r s' E. unfold mbind, M_bind, bind in E.
  destruct (m s) as [[a|e|t] s1] eqn:Em; destruct (Hm _ _ _ Em) as (Ha & cs & C & F).
  - destruct (Hk a _ _ _ E) as (Ha' & ds & D & G). split; [congruence|].
    exists (cs ++ ds). split; [rewrite D, C, app_assoc; reflexivity|].
    apply Forall_app; split; assumption.
  - injection E as <- <-. eauto.
  - injection E as <- <-. eauto.
Qed.

Lemma holds_lift {A} (m : M (Proc W) A) :
  emits (fun p => p) (fun c => ~ releases c) m -> holds (fun c => ~ releases c) (lift m).
Proof.
  intros Hm s r s' E. unfold lift in E.
  destruct (m (proc s)) as [r0 p'] eqn:Em. injection E as <- <-.
  split; [reflexivity|]. exact (Hm _ _ _ Em).
Qed.

Lemma holds_access file : holds (fun c => ~ releases c) (access file).
Proof.
  intros s r s' E. rewrite access_run in E. injection E as <- <-.
  split; [reflexivity|]. eexists. split; [reflexivity|].
  repeat constructor. intros [R|R]; discriminate.
Qed.

Lemma emits_clearTimeout h : emits (fun p : Proc W => p) (fun c => ~ releases c) (clearTimeout h).
Proof.
  apply TraceFacts.emits_nothing. intros p r p' E. injection E as <- <-. reflexivity.
Qed.

End Stops.

Ltac holds_step :=
  first
    [ apply holds_access
    | apply holds_lift;
      first [ apply TraceFacts.emits_perform; intros [R|R]; discriminate
            | apply TraceFacts.emits_log
            | apply TraceFacts.emits_setTimeout
            | apply emits_clearTimeout
            | apply TraceFacts.emits_waitForCompletion; intros [R|R]; discriminate ]
    | apply holds_bind; [|intros ?]
    | apply holds_ret ].

Section Released.
Context {W : Type} `{External W}.

Lemma perform_cases {A} c (op : W -> settled A * W) (s s' : State W) r :
  lift (perform c op) s = (r, s') ->
  api s' = api s /\ calls (proc s') = calls (proc s) ++ [c] /\ forall t, r <> Halt t.
Proof.
  rewrite lift_perform_check. intros E. injection E as <- <-.
  repeat split. destruct (op (world (proc s))).1; discriminate.
Qed.

(** The calls of the three queued tasks, the agents and the handlers come
    after the start of the API; what precedes it leaves [api] unset. *)
Lemma prepare_cases (s s1 : State W) (r : result (list Task)) :
  api s = None -> prepare s = (r, s1) ->
  exists cs, calls (proc s1) = calls (proc s) ++ cs
    /\ Forall (fun c => ~ releases c) cs
    /\ ((api s1 = None /\ ~ In ApiStart cs /\ exists e, r = Throw e)
        \/ (is_Some (api s1) /\ In ApiStart cs)).
Proof.
  intros Hnone E. unfold prepare in E.
  apply TraceFacts.bind_cases in E as [(a1 & s2 & E1 & E)|[(e & E1 & ->)|(t & E1 & ->)]];
    apply perform_cases in E1 as (A1 & C1 & N1); [| |destruct (N1 t eq_refl)].
  2:{ exists [CreateOrchestrator (mkOrchestratorConfig "e2e-test-todo" (Num 5) true)].
      split; [exact C1|]. split; [repeat constructor; intros [R|R]; discriminate|].
      left. split; [congruence|]. split; [|eauto].
      intros [R|[]]; discriminate. }
  apply TraceFacts.bind_cases in E as [(a2 & s3 & E2 & E)|[(e & E2 & ->)|(t & E2 & ->)]];
    apply perform_cases in E2 as (A2 & C2 & N2); [| |destruct (N2 t eq_refl)].
  2:{ exists [CreateOrchestrator (mkOrchestratorConfig "e2e-test-todo" (Num 5) true);
              Initialize].
      split; [rewrite C2, C1, <- app_assoc; reflexivity|].
      split; [repeat constructor; intros [R|R]; discriminate|].
      left. split; [congruence|]. split; [|eauto].
      intros [R|[R|[]]]; discriminate. }
  apply TraceFacts.bind_cases in E as [(a3 & s4 & E3 & E)|[(e & E3 & ->)|(t & E3 & ->)]];
    apply perform_cases in E3 as (A3 & C3 & N3); [| |destruct (N3 t eq_refl)].
  2:{ exists [CreateOrchestrator (mkOrchestratorConfig "e2e-test-todo" (Num 5) true);
              Initialize; CreateCloudAPI (mkApiConfig 3457 "test-key-12345")].
      split; [rewrite C3, C2, C1, <- !app_assoc; reflexivity|].
      split; [repeat constructor; intros [R|R]; discriminate|].
      left. split; [congruence|]. split; [|eauto].
      intros [R|[R|[R|[]]]]; discriminate. }
  apply TraceFacts.bind_cases in E as [(a4 & s5 & E4 & E)|[(e & E4 & ->)|(t & E4 & ->)]];
    [|discriminate|discriminate].
  injection E4 as _ <-.
  match type of E with
  | (?m ≫= ?k) _ = _ =>
      assert (Hm : holds (fun c => ~ releases c) m) by (repeat holds_step);
      assert (Hk : forall a, holds (fun c => ~ releases c) (k a))
        by (intros ?; unfold createAgent, queueTask; repeat holds_step)
  end.
  apply TraceFacts.bind_cases in E as [(a5 & s6 & E5 & E)|[(e & E5 & ->)|(t & E5 & ->)]].
  - pose proof (perform_cases _ _ _ _ _ E5) as (A5 & C5 & N5).
    destruct (Hk a5 _ _ _ E) as (A6 & ds & D & F).
    exists ([CreateOrchestrator (mkOrchestratorConfig "e2e-test-todo" (Num 5) true);
             Initialize; CreateCloudAPI (mkApiConfig 3457 "test-key-12345"); ApiStart]
            ++ ds).
    split; [rewrite D, C5; cbn [proc calls]; rewrite C3, C2, C1, <- !app_assoc;
            reflexivity|].
    split; [apply Forall_app; split;
            [repeat constructor; intros [R|R]; discriminate|exact F]|].
    right. split; [rewrite A6, A5; cbn [api]; eauto|].
    apply in_app_iff. left. cbn. tauto.
  - pose proof (perform_cases _ _ _ _ _ E5) as (A5 & C5 & N5).
    exists [CreateOrchestrator (mkOrchestratorConfig "e2e-test-todo" (Num 5) true);
            Initialize; CreateCloudAPI (mkApiConfig 3457 "test-key-12345"); ApiStart].
    split; [rewrite C5; cbn [proc calls]; rewrite C3, C2, C1, <- !app_assoc;
            reflexivity|].
    split; [repeat constructor; intros [R|R]; discriminate|].
    right. split; [rewrite A5; cbn [api]; eauto|]. cbn. tauto.
  - pose proof (perform_cases _ _ _ _ _ E5) as (A5 & C5 & N5). destruct (N5 t eq_refl).
Qed.

Lemma body_cases (s sb : State W) (rb : result bool) :
  api s = None -> body s = (rb, sb) ->
  exists cs, calls (proc sb) = calls (proc s) ++ cs
    /\ Forall (fun c => ~ releases c) cs
    /\ ((api sb = None /\ ~ In ApiStart cs /\ exists e, rb = Throw e)
        \/ (is_Some (api sb) /\ In ApiStart cs)).
Proof.
  intros Hnone E. unfold body in E.
  match type of E with
  | (_ ≫= ?k) _ = _ =>
      assert (Hk : forall a, holds (fun c => ~ releases c) (k a))
        by (intros ?; unfold verify; repeat holds_step)
  end.
  apply TraceFacts.bind_cases in E as [(tasks & s1 & Ep & E)|[(e & Ep & ->)|(t & Ep & ->)]].
  - destruct (prepare_cases _ _ _ Hnone Ep) as (cs & C & F & [(_ & _ & e & Ee)|[Ha Hin]]);
      [discriminate|].
    destruct (Hk tasks _ _ _ E) as (A & ds & D & G).
    exists (cs ++ ds). split; [rewrite D, C, app_assoc; reflexivity|].
    split; [apply Forall_app; split; assumption|].
    right. split; [rewrite A; exact Ha|]. apply in_app_iff. left. exact Hin.
  - destruct (prepare_cases _ _ _ Hnone Ep) as (cs & C & F & Hd).
    exists cs. split; [exact C|]. split; [exact F|].
    destruct Hd as [(Ha & Hn & _)|Hd]; [left; eauto|right; exact Hd].
  - destruct (prepare_cases _ _ _ Hnone Ep) as (cs & C & F & [(_ & _ & e & Ee)|Hd]);
      [discriminate|].
    exists cs. split; [exact C|]. split; [exact F|]. right. exact Hd.
Qed.

(** With no timer pending at the start, only the timer of the check can end
    its [try] block. *)
Lemma body_halt (s sb : State W) t :
  timers (proc s) = [] -> body s = (Halt t, sb) -> t = Crashed timeout_error.
Proof.
  intros Ht Eb. destruct (prepare s) as [[tasks|e|t'] s1] eqn:Ep.
  - assert (Hs1 : timers (proc s1) = []).
    { destruct (quiet_prepare _ _ _ Ep) as [Hq _]. congruence. }
    destruct (ext_waitForCompletion (world (proc s1))) as [x w] eqn:Ew.
    rewrite (body_from_wait _ _ _ _ _ Ep Hs1 Ew) in Eb.
    destruct (timeout_ms <? elapsed x)%N; [congruence|].
    destruct (completion x) as [[]|e]; [|discriminate].
    destruct (quiet_verify _ _ _ _ _ Eb) as [_ Hh].
    destruct (Hh eq_refl t eq_refl).
  - unfold body in Eb. erewrite bind_Throw in Eb by exact Ep. discriminate.
  - destruct (quiet_prepare _ _ _ Ep) as [_ Hh]. destruct (Hh Ht t' eq_refl).
Qed.

(** From the [try] block to the end of the script, when no timer has
    ended it. *)
Lemma script_from_body (s s1 : State W) (rb : result bool) :
  body s = (rb, s1) -> (forall t, rb <> Halt t) ->
  exists s2, script s = (Halt (Exited (final_code (api s1) rb)), s2)
    /\ api s2 = api s1
    /\ calls (proc s2)
       = calls (proc s1)
         ++ (match api s1 with
             | Some a => if has_stop a then [ApiStop] else []
             | None => []
             end).
Proof.
  intros Eb Hh.
  destruct (runE2ETest_of_body _ _ _ Eb Hh) as (s2 & _ & Ha & Hr).
  unfold script, final_code. unfold stoppable in *.
  destruct (api s1) as [a|] eqn:Ea; [destruct (has_stop a)|].
  - destruct Hr as (Er & Hc & _). exists (mkState (api s2) (proc s2)).
    split; [|split; [exact Ha|exact Hc]].
    apply try_catch_Halt. erewrite bind_step by exact Er.
    destruct rb as [[]| |]; reflexivity.
  - destruct Hr as (Er & Hc & _). exists (mkState (api s2) (proc s2)).
    split; [|split; [exact Ha|]].
    + erewrite try_catch_Throw by (apply bind_Throw; exact Er). reflexivity.
    + cbn [proc]. rewrite app_nil_r. exact Hc.
  - destruct Hr as (Er & Hc & _). exists (mkState (api s2) (proc s2)).
    split; [|split; [exact Ha|exact Hc]].
    apply try_catch_Halt. erewrite bind_step by exact Er.
    destruct rb as [[]| |]; reflexivity.
Qed.

(** The check, started with no timer pending, calls [api.stop] exactly
    when it has called [api.start] on an API that has a [stop] method, as
    its last call, and it never shuts the orchestrator down.  It ends with
    exit code 0 or 1, and with 1 on an API without [stop]; unless the
    timer of 30 seconds ends the process: the API, started by then, is not
    stopped. *)
Theorem api_stop_follows_start (p : Proc W) (r : result unit) (s2 : State W) :
  timers p = [] ->
  script (mkState None p) = (r, s2) ->
  exists ds,
    Forall (fun c => ~ releases c) ds
    /\ ((r = Halt (Crashed timeout_error)
         /\ In ApiStart ds /\ calls (proc s2) = calls p ++ ds)
        \/ ((r = Halt (Exited 0) \/ r = Halt (Exited 1))
            /\ ((exists a, api s2 = Some a /\ has_stop a = true
                   /\ In ApiStart ds /\ calls (proc s2) = calls p ++ ds ++ [ApiStop])
                \/ (exists a, api s2 = Some a /\ has_stop a = false
                      /\ r = Halt (Exited 1)
                      /\ In ApiStart ds /\ calls (proc s2) = calls p ++ ds)
                \/ (api s2 = None
                    /\ ~ In ApiStart ds /\ calls (proc s2) = calls p ++ ds)))).
Proof.
  intros Ht E. destruct (body (mkState None p)) as [rb sb] eqn:Eb.
  destruct (body_cases (mkState None p) _ _ eq_refl Eb) as (ds & C & F & Hd).
  cbn [proc] in C.
  exists ds. split; [exact F|].
  assert (Hcases : (exists t, rb = Halt t) \/ forall t, rb <> Halt t).
  { destruct rb; [right; discriminate|right; discriminate|left; eauto]. }
  destruct Hcases as [[t ->]|Hh].
  - left. pose proof (body_halt (mkState None p) _ _ Ht Eb) as ->.
    apply script_of_body in Eb. rewrite Eb in E. injection E as <- <-.
    destruct Hd as [(_ & _ & e & Ee)|[_ Hin]]; [discriminate|]. auto.
  - right. destruct (script_from_body _ _ _ Eb Hh) as (s2' & Es & Ha2 & Hc).
    rewrite Es in E. injection E as <- <-.
    split.
    { unfold final_code, exit_code. destruct (stoppable (api sb)); [|auto].
      destruct rb as [[]| |]; auto. }
    destruct Hd as [(Ha & Hn & _)|[Ha Hin]].
    + right. right. split; [congruence|]. split; [exact Hn|].
      rewrite Hc, Ha, app_nil_r. exact C.
    + destruct Ha as [a Ha]. rewrite Ha in Hc.
      destruct (has_stop a) eqn:Hs.
      * left. exists a. split; [congruence|]. split; [exact Hs|].
        split; [exact Hin|]. rewrite Hc, C, app_assoc. reflexivity.
      * right. left. exists a. split; [congruence|]. split; [exact Hs|].
        split; [|split; [exact Hin|rewrite Hc, app_nil_r; exact C]].
        unfold final_code, stoppable. rewrite Ha, Hs. reflexivity.
Qed.

Lemma prepare_three (s s1 : State W) (tasks : list Task) :
  prepare s = (Ok tasks, s1) -> length tasks = 3%nat.
Proof.
  intros E. unfold prepare in E.
  repeat (apply bind_Ok in E as (? & ? & _ & E)).
  injection E as <- _. reflexivity.
Qed.

Lemma verify_result (tasks : list Task) (evs : list Event) (s0 : State W)
    (report : Report) (c1 c2 c3 : bool) (w1 w2 w3 w4 : W) :
  ext_getFinalReport (world (proc s0)) = (Fulfilled report, w1) ->
  ext_fsAccess (artifact "e2e-comprehend-result.json") w1 = (c1, w2) ->
  ext_fsAccess (artifact "e2e-generate-result.json") w2 = (c2, w3) ->
  ext_fsAccess (artifact "e2e-test-result.json") w3 = (c3, w4) ->
  (verify tasks evs s0).1 = Ok (testSuccess report tasks evs [c1; c2; c3]).
Proof.
  intros Hr H1 H2 H3. unfold verify.
  erewrite bind_step by (rewrite lift_perform_check, Hr; cbn [fst snd]; reflexivity).
  erewrite bind_step
    by (rewrite access_run; cbn [proc world]; rewrite H1; cbn [fst snd]; reflexivity).
  erewrite bind_step
    by (rewrite access_run; cbn [proc world]; rewrite H2; cbn [fst snd]; reflexivity).
  erewrite bind_step
    by (rewrite access_run; cbn [proc world]; rewrite H3; cbn [fst snd]; reflexivity).
  erewrite bind_step by reflexivity. reflexivity.
Qed.

(** When the execution completes within the 30 seconds, the check exits
    with 0 or with 1, and with 0 exactly when the API has a [stop] method,
    the report counts three tasks completed and none failed, the handlers
    have seen three tasks complete and none fail, at least one quality
    gate has reported, the three result files of the session are there,
    and no gate has reported the status [failed] or [error]. *)
Theorem check_passes_iff (p : Proc W) (tasks : list Task) (s1 : State W)
    (x : Execution) (w w1 w2 w3 w4 : W) (report : Report) (c1 c2 c3 : bool) :
  timers p = [] ->
  prepare (mkState None p) = (Ok tasks, s1) ->
  ext_waitForCompletion (world (proc s1)) = (x, w) ->
  (elapsed x < timeout_ms)%N ->
  completion x = Fulfilled tt ->
  ext_getFinalReport w = (Fulfilled report, w1) ->
  ext_fsAccess (artifact "e2e-comprehend-result.json") w1 = (c1, w2) ->
  ext_fsAccess (artifact "e2e-generate-result.json") w2 = (c2, w3) ->
  ext_fsAccess (artifact "e2e-test-result.json") w3 = (c3, w4) ->
  exists a,
    api s1 = Some a
    /\ (main p = Terminated (Exited 0) \/ main p = Terminated (Exited 1))
    /\ (main p = Terminated (Exited 0)
        <-> has_stop a = true
            /\ tasksCompleted report = 3
            /\ tasksFailed report = 0
            /\ failedTasks (events x) = 0
            /\ completedTasks (events x) = 3
            /\ qualityGateResults (events x) <> []
            /\ (c1 = true /\ c2 = true /\ c3 = true)
            /\ forall g, In g (qualityGateResults (events x)) ->
                         status g <> "failed" /\ status g <> "error").
Proof.
  intros Ht Ep Ew Hearly Hc Hr H1 H2 H3.
  assert (Hs1 : timers (proc s1) = []).
  { destruct (quiet_prepare _ _ _ Ep) as [Hq _]. cbn in Hq. congruence. }
  destruct (prepare_cases (mkState None p) _ _ eq_refl Ep)
    as (cs & _ & _ & [(_ & _ & e & Ee)|[[a Ha] _]]); [discriminate|].
  exists a. split; [exact Ha|].
  pose proof (body_from_wait _ _ _ _ _ Ep Hs1 Ew) as Eb.
  assert (Hnot : (timeout_ms <? elapsed x)%N = false) by (apply N.ltb_ge; lia).
  rewrite Hnot, Hc in Eb.
  pose proof (verify_result tasks (events x) (after_wait s1 w) report c1 c2 c3
                w1 w2 w3 w4 Hr H1 H2 H3) as Ev.
  destruct (verify tasks (events x) (after_wait s1 w)) as [rv sv] eqn:Everify.
  cbn [fst] in Ev. subst rv.
  rewrite (main_of_body _ _ _ Eb).
  rewrite (verify_api _ _ _ _ _ Everify). cbn [after_wait api].
  unfold final_code, stoppable, exit_code. rewrite Ha.
  pose proof (testSuccess_iff report tasks (events x) [c1; c2; c3]) as Hiff.
  rewrite (prepare_three _ _ _ Ep) in Hiff. change (Z.of_nat 3) with 3 in Hiff.
  assert (Hchecks : Forall (eq true) [c1; c2; c3] <-> c1 = true /\ c2 = true /\ c3 = true).
  { split.
    - intros Hf. inversion Hf as [|? ? <- Hf']. inversion Hf' as [|? ? <- Hf''].
      inversion Hf'' as [|? ? <- _]. auto.
    - intros (-> & -> & ->). repeat constructor. }
  rewrite Hchecks in Hiff.
  destruct (has_stop a).
  - destruct (testSuccess report tasks (events x) [c1; c2; c3]).
    + split; [left; reflexivity|]. split; [|reflexivity].
      intros _. split; [reflexivity|]. apply Hiff. reflexivity.
    + split; [right; reflexivity|]. split; [discriminate|].
      intros [_ Hall]. apply Hiff in Hall. discriminate.
  - split; [right; reflexivity|]. split; [discriminate|]. intros [Hf _]. discriminate.
Qed.

End Released.

(** On an API without [stop] the check prints that it has passed, and
    then its [finally] block throws: [runE2ETest] rejects and the script
    exits with 1, without a call of [api.stop]. *)
Example passed_and_exit_1 :
  let s := mkState None (Scripted.e2e_process Samples.no_stop) in
  (runE2ETest s).1 = Throw (TypeError_not_a_function "api.stop")
  /\ (script s).1 = Halt (Exited 1)
  /\ main (Scripted.e2e_process Samples.no_stop) = Terminated (Exited 1)
  /\ console (proc (script s).2) = [TestPassed]
  /\ last (calls (proc (script s).2)) = Some (FsAccess (artifact "e2e-test-result.json")).
Proof. cbn zeta. repeat split; vm_compute; reflexivity. Qed.

(** The scripted check that passes: the API is started and stopped. *)
Lemma api_stop_follows_start_witness :
  let p := Scripted.e2e_process (Scripted.e2e_run "pass" 1000) in
  let s2 := (script (mkState None p)).2 in
  exists ds,
    Forall (fun c => ~ releases c) ds
    /\ ((@Halt unit (Exited 0) = Halt (Crashed timeout_error)
         /\ In ApiStart ds /\ calls (proc s2) = calls p ++ ds)
        \/ ((@Halt unit (Exited 0) = Halt (Exited 0) \/ @Halt unit (Exited 0) = Halt (Exited 1))
            /\ ((exists a, api s2 = Some a /\ has_stop a = true
                   /\ In ApiStart ds /\ calls (proc s2) = calls p ++ ds ++ [ApiStop])
                \/ (exists a, api s2 = Some a /\ has_stop a = false
                      /\ @Halt unit (Exited 0) = Halt (Exited 1)
                      /\ In ApiStart ds /\ calls (proc s2) = calls p ++ ds)
                \/ (api s2 = None
                    /\ ~ In ApiStart ds /\ calls (proc s2) = calls p ++ ds)))).
Proof.
  cbn zeta.
  apply (api_stop_follows_start (Scripted.e2e_process (Scripted.e2e_run "pass" 1000))).
  - reflexivity.
  - vm_compute. reflexivity.
Defined.

(** The scripted check: an API with [stop], three tasks, three files, gates
    that pass or are skipped; it exits with 0. *)
Lemma check_passes_iff_witness :
  main (Scripted.e2e_process (Scripted.e2e_run "pass" 1000)) = Terminated (Exited 0).
Proof.
  pose (run := Scripted.e2e_run "pass" 1000).
  pose (w := world (proc (Scripted.e2e_started run))).
  destruct (check_passes_iff (Scripted.e2e_process run) Scripted.e2e_tasks
              (Scripted.e2e_started run) (Scripted.execution run)
              w w w w w (Scripted.report run) true true true)
    as (a & Ha & _ & Hiff).
  - reflexivity.
  - vm_compute. reflexivity.
  - vm_compute. reflexivity.
  - vm_compute. reflexivity.
  - reflexivity.
  - vm_compute. reflexivity.
  - vm_compute. reflexivity.
  - vm_compute. reflexivity.
  - vm_compute. reflexivity.
  - apply Hiff. vm_compute in Ha. injection Ha as <-.
    vm_compute. repeat split; try discriminate.
    all: match goal with
         | Hg : _ \/ _ |- _ =>
             repeat (destruct Hg as [<-|Hg]; [discriminate|]); destruct Hg
         end.
Defined.

End CheckFacts.

(** ** The recorder: what it checks, what it writes and how it ends *)

Module RecordFacts.
Import RecordDemo.

(** *** The time stamp *)

Lemma sanitize_length (s : string) : String.length (sanitize s) = String.length s.
Proof. induction s as [|c s IH]; cbn; congruence. Qed.

Lemma sanitize_get (s : string) (n : nat) :
  String.get n (sanitize s)
  = match String.get n s with
    | Some c => Some (if Ascii.eqb c ":" || Ascii.eqb c "." then "-"%char else c)
    | None => None
    end.
Proof.
  revert n. induction s as [|c s IH]; intros n; [reflexivity|].
  destruct n as [|n]; cbn [sanitize String.get]; [reflexivity|apply IH].
Qed.

Section Recorder.
Context {W : Type} `{Host W}.

(** The time stamp of the recorder is the time of the clock with every
    colon and every dot replaced by a dash, all of them and nothing else:
    it has the length of the clock's text, no colon and no dot, and the
    other characters at their places. *)
Theorem timestamp_safe (p : Proc W) (n : nat) :
  let t := timestamp (constructor p) in
  String.length t = String.length (clock p)
  /\ String.get n t <> Some ":"%char
  /\ String.get n t <> Some "."%char
  /\ forall c, String.get n (clock p) = Some c ->
       String.get n t = Some (if Ascii.eqb c ":" || Ascii.eqb c "." then "-"%char else c).
Proof.
  cbn zeta. unfold constructor. cbn [timestamp].
  split; [apply sanitize_length|]. rewrite sanitize_get.
  destruct (String.get n (clock p)) as [c|]; [|repeat split; discriminate].
  assert (Hc : forall d, (d = ":" \/ d = ".")%char ->
                 Some (if Ascii.eqb c ":" || Ascii.eqb c "." then "-"%char else c) <> Some d).
  { intros d Hd E. injection E as E.
    destruct (Ascii.eqb_spec c ":") as [->|H1]; cbn [orb] in E;
      [destruct Hd as [->| ->]; discriminate|].
    destruct (Ascii.eqb_spec c ".") as [->|H2]; cbn [orb] in E;
      [destruct Hd as [->| ->]; discriminate|].
    destruct Hd as [->| ->]; congruence. }
  split; [apply Hc; left; reflexivity|]. split; [apply Hc; right; reflexivity|].
  intros c' E. injection E as <-. reflexivity.
Qed.

(** *** Stepping through the recorder *)

Lemma act_run {A} a (op : W -> A * W) (p : Proc W) :
  act a op p
  = (Ok (op (world p)).1,
     mkProc (cwd p) (dirname p) (clock p) (env p) (op (world p)).2
            (actions p ++ [a]) (console p)).
Proof. unfold act. destruct (op (world p)); reflexivity. Qed.

Lemma perform_run {A} a (op : W -> settled A * W) (p : Proc W) :
  perform a op p
  = (match (op (world p)).1 with Fulfilled v => Ok v | Rejected e => Throw e end,
     mkProc (cwd p) (dirname p) (clock p) (env p) (op (world p)).2
            (actions p ++ [a]) (console p)).
Proof.
  unfold perform. erewrite bind_step by apply act_run.
  destruct (op (world p)) as [[v|e] w]; reflexivity.
Qed.

Lemma commandExists_run cmd (p : Proc W) :
  commandExists cmd p
  = (match (host_spawn "which" [cmd] None (world p)).1 with
     | Close code => Ok (bool_decide (code = Some 0))
     | SpawnError e => Halt (Crashed e)
     end,
     mkProc (cwd p) (dirname p) (clock p) (env p)
            (host_spawn "which" [cmd] None (world p)).2
            (actions p ++ [Spawn "which" [cmd] None]) (console p)).
Proof.
  unfold commandExists. erewrite bind_step by apply act_run.
  destruct (host_spawn "which" [cmd] None (world p)) as [[code|e] w]; reflexivity.
Qed.

Lemma log_run l (p : Proc W) :
  log l p = (Ok tt, mkProc (cwd p) (dirname p) (clock p) (env p) (world p) (actions p)
                           (console p ++ [l])).
Proof. reflexivity. Qed.

(** How [checkPrerequisites] ends. *)
Lemma checkPrerequisites_cases (p p' : Proc W) (r : result unit) :
  checkPrerequisites p = (r, p') ->
  cwd p' = cwd p /\ dirname p' = dirname p /\ clock p' = clock p /\ env p' = env p
  /\ exists acts,
       actions p' = actions p ++ acts
       /\ Forall (fun a => exists cmd, a = Spawn "which" [cmd] None) acts
       /\ ((r = Ok tt
            /\ acts = [Spawn "which" ["asciinema"] None; Spawn "which" ["ffmpeg"] None]
            /\ exists warn : bool,
                 console p' = console p ++ (if warn then [FfmpegNotFound] else []))
           \/ (r = Halt (Exited 1)
               /\ acts = [Spawn "which" ["asciinema"] None]
               /\ console p' = console p ++ [AsciinemaNotFound])
           \/ (exists e, r = Halt (Crashed e) /\ console p' = console p)).
Proof.
  unfold checkPrerequisites. intros E.
  apply TraceFacts.bind_cases in E as [(b1 & p1 & E1 & E)|[(e & E1 & ->)|(t & E1 & ->)]];
    rewrite commandExists_run in E1;
    destruct (host_spawn "which" ["asciinema"] None (world p)) as [[code|e1] w1];
    cbn [fst snd] in E1; try discriminate.
  - injection E1 as <- <-.
    destruct (bool_decide (code = Some 0)); cbn [negb] in E.
    + erewrite bind_step in E by apply when_false.
      apply TraceFacts.bind_cases in E
        as [(b2 & p2 & E2 & E)|[(e & E2 & ->)|(t & E2 & ->)]];
        rewrite commandExists_run in E2; cbn [world] in E2;
        destruct (host_spawn "which" ["ffmpeg"] None w1) as [[code2|e2] w2];
        cbn [fst snd] in E2; try discriminate.
      * injection E2 as <- <-. cbn [cwd dirname clock env actions console] in *.
        destruct (bool_decide (code2 = Some 0)); cbn [negb when] in E;
          injection E as <- <-; cbn [cwd dirname clock env actions console];
          (do 4 (split; [reflexivity|]));
          exists [Spawn "which" ["asciinema"] None; Spawn "which" ["ffmpeg"] None];
          (split; [rewrite <- app_assoc; reflexivity|]);
          (split; [repeat constructor; eauto|]); left;
          (split; [reflexivity|]); (split; [reflexivity|]).
        -- exists false. rewrite app_nil_r. reflexivity.
        -- exists true. reflexivity.
      * injection E2 as <- <-. cbn [cwd dirname clock env actions console].
        do 4 (split; [reflexivity|]).
        exists [Spawn "which" ["asciinema"] None; Spawn "which" ["ffmpeg"] None].
        split; [rewrite <- app_assoc; reflexivity|].
        split; [repeat constructor; eauto|]. right. right. eauto.
    + rewrite when_true in E. cbn in E. injection E as <- <-.
      cbn [cwd dirname clock env actions console].
      do 4 (split; [reflexivity|]).
      exists [Spawn "which" ["asciinema"] None].
      split; [reflexivity|]. split; [repeat constructor; eauto|].
      right. left. auto.
  - injection E1 as <- <-. cbn [cwd dirname clock env actions console].
    do 4 (split; [reflexivity|]).
    exists [Spawn "which" ["asciinema"] None].
    split; [reflexivity|]. split; [repeat constructor; eauto|].
    right. right. eauto.
Qed.

(** How [prepareRecording] ends: it does the actions planned for the
    process, or a first part of them when one of them throws. *)
Lemma prepareRecording_cases (p0 p p' : Proc W) (r : result string) :
  cwd p = cwd p0 -> dirname p = dirname p0 -> clock p = clock p0 -> env p = env p0 ->
  prepareRecording (constructor p0) p = (r, p') ->
  cwd p' = cwd p /\ dirname p' = dirname p /\ clock p' = clock p /\ env p' = env p
  /\ console p' = console p
  /\ (forall t, r <> Halt t)
  /\ exists there done rest,
       actions p' = actions p ++ done
       /\ prepare_actions p0 there = done ++ rest
       /\ ((exists path, r = Ok path) -> rest = []).
Proof.
  intros Hcwd Hdir Hclk Henv E. unfold prepareRecording in E.
  assert (Htext : forall q : Proc W,
            env q = env p -> dirname q = dirname p ->
            demoScript (or_else (getenv q "DEMO_SCENARIO") "basic")
                       (or_else (getenv q "MOCK_MODE") "true")
                       (path_join [dirname q; ".."; "src"; "run-demo.js"])
            = script_text p0).
  { intros q Hq Hd. unfold script_text, getenv. rewrite Hq, Hd, Henv, Hdir. reflexivity. }
  erewrite bind_step in E by apply act_run.
  set (there := (host_existsSync (outputDir (constructor p0)) (world p)).1) in *.
  set (w1 := (host_existsSync (outputDir (constructor p0)) (world p)).2) in *.
  set (dir := outputDir (constructor p0)) in *.
  set (sp := path_join [dir; "demo-script.sh"]) in *.
  assert (Hplan : prepare_actions p0 there
                  = [ExistsSync dir] ++ (if there then [] else [MkdirSync dir])
                    ++ [WriteFileSync sp (script_text p0); ChmodSync sp "755"])
    by reflexivity.
  apply TraceFacts.bind_cases in E as [([] & p2 & E2 & E)|[(e & E2 & ->)|(t & E2 & ->)]].
  - (* the directory is there, or is made *)
    assert (Hp2 : cwd p2 = cwd p /\ dirname p2 = dirname p /\ clock p2 = clock p
                  /\ env p2 = env p /\ console p2 = console p
                  /\ actions p2
                     = actions p ++ [ExistsSync dir] ++ (if there then [] else [MkdirSync dir])).
    { destruct there; cbn [negb when] in E2.
      - injection E2 as <-. cbn. rewrite ?app_nil_r. auto 10.
      - rewrite perform_run in E2. cbn [world] in E2.
        destruct (host_mkdirSync dir w1) as [[[]|e] w2]; cbn [fst snd] in E2;
          [|discriminate].
        injection E2 as <-. cbn. rewrite <- app_assoc. auto 10. }
    destruct Hp2 as (C2 & D2 & K2 & V2 & L2 & A2).
    erewrite bind_step in E by apply gets_run. cbn zeta in E.
    rewrite (Htext p2 V2 D2) in E.
    apply TraceFacts.bind_cases in E as [([] & p3 & E3 & E)|[(e & E3 & ->)|(t & E3 & ->)]];
      rewrite perform_run in E3;
      destruct (host_writeFileSync sp (script_text p0) (world p2)) as [[[]|e3] w3];
      cbn [fst snd] in E3; try discriminate.
    + injection E3 as <-.
      apply TraceFacts.bind_cases in E as [([] & p4 & E4 & E)|[(e & E4 & ->)|(t & E4 & ->)]];
        rewrite perform_run in E4; cbn [world] in E4;
        destruct (host_chmodSync sp "755" w3) as [[[]|e4] w4];
        cbn [fst snd] in E4; try discriminate.
      * injection E4 as <-. injection E as <- <-. cbn [cwd dirname clock env console actions].
        repeat split; try assumption; try discriminate.
        exists there, ([ExistsSync dir] ++ (if there then [] else [MkdirSync dir])
                       ++ [WriteFileSync sp (script_text p0); ChmodSync sp "755"]), [].
        split; [rewrite A2, <- !app_assoc; reflexivity|].
        split; [rewrite app_nil_r; exact Hplan|reflexivity].
      * injection E4 as <- <-. cbn [cwd dirname clock env console actions].
        repeat split; try assumption; try discriminate.
        exists there, ([ExistsSync dir] ++ (if there then [] else [MkdirSync dir])
                       ++ [WriteFileSync sp (script_text p0); ChmodSync sp "755"]), [].
        split; [rewrite A2, <- !app_assoc; reflexivity|].
        split; [rewrite app_nil_r; exact Hplan|reflexivity].
    + injection E3 as <- <-. cbn [cwd dirname clock env console actions].
      repeat split; try assumption; try discriminate.
      exists there, ([ExistsSync dir] ++ (if there then [] else [MkdirSync dir])
                     ++ [WriteFileSync sp (script_text p0)]), [ChmodSync sp "755"].
      split; [rewrite A2, <- !app_assoc; reflexivity|].
      split; [rewrite Hplan, <- !app_assoc; reflexivity|].
      intros [path Hpath]. discriminate.
  - (* mkdirSync throws *)
    destruct there; cbn [negb when] in E2; [discriminate|].
    rewrite perform_run in E2. cbn [world] in E2.
    destruct (host_mkdirSync dir w1) as [[[]|e2] w2]; cbn [fst snd] in E2;
      [discriminate|].
    injection E2 as <- <-. cbn [cwd dirname clock env console actions]. repeat split; try discriminate.
    exists false, [ExistsSync dir; MkdirSync dir],
      [WriteFileSync sp (script_text p0); ChmodSync sp "755"].
    split; [rewrite <- app_assoc; reflexivity|]. split; [exact Hplan|].
    intros [path Hpath]. discriminate.
  - destruct there; cbn [negb when] in E2; [discriminate|].
    rewrite perform_run in E2. cbn [world] in E2.
    destruct (host_mkdirSync dir w1) as [[[]|e2] w2]; discriminate.
Qed.

(** How [startRecording] ends. *)
Lemma startRecording_cases (this : Recorder) (settings : Settings) (p p' : Proc W)
    (r : result unit) :
  startRecording this settings p = (r, p') ->
  cwd p' = cwd p /\ dirname p' = dirname p /\ clock p' = clock p
  /\ env p' = recording_env (env p) settings
  /\ actions p'
     = actions p ++ [Spawn "asciinema" (recordCmd this settings)
                           (Some (recording_env (env p) settings))]
  /\ ((r = Ok tt
       /\ console p'
          = console p
            ++ [RecordingSaved (outputFile this settings);
                NextSteps (outputFile this settings)]
            ++ (if withAudio settings then [AudioNarration] else []))
      \/ ((exists e, r = Throw e) /\ console p' = console p)).
Proof.
  unfold startRecording. intros E.
  do 2 (erewrite bind_step in E by reflexivity).
  erewrite bind_step in E by apply gets_run.
  erewrite bind_step in E by apply act_run.
  cbn [env world cwd dirname clock actions console] in E.
  fold (recording_env (env p) settings) in E.
  destruct (host_spawn "asciinema" (recordCmd this settings)
              (Some (recording_env (env p) settings)) (world p)) as [[code|e] w];
    cbn [fst snd] in E.
  - destruct (bool_decide (code = Some 0)).
    + unfold showNextSteps in E. erewrite bind_step in E by apply log_run.
      erewrite bind_step in E by apply log_run.
      destruct (withAudio settings); cbn [when] in E.
      * rewrite log_run in E. injection E as <- <-. cbn.
        repeat split. left. rewrite <- !app_assoc. split; reflexivity.
      * injection E as <- <-. cbn. repeat split. left.
        rewrite <- !app_assoc. split; reflexivity.
    + injection E as <- <-. cbn. repeat split. right. split; [eauto|reflexivity].
  - injection E as <- <-. cbn. repeat split. right. split; [eauto|reflexivity].
Qed.

Lemma getSettings_cases (p p' : Proc W) (r : result Settings) :
  getSettings p = (r, p') ->
  cwd p' = cwd p /\ dirname p' = dirname p /\ clock p' = clock p /\ env p' = env p
  /\ console p' = console p
  /\ actions p' = actions p ++ [Prompt ["basic"; "fullstack"; "enterprise"]]
  /\ forall t, r <> Halt t.
Proof.
  unfold getSettings. rewrite perform_run. intros E. injection E as <- <-.
  cbn [cwd dirname clock env actions console]. repeat split.
  destruct (host_prompt _ (world p)).1; discriminate.
Qed.

Lemma own_files_prepare (p : Proc W) there : Forall (own_files p) (prepare_actions p there).
Proof.
  unfold prepare_actions. destruct there; repeat constructor.
Qed.

(** How [run] ends, for the recorder of the process. *)
Lemma run_cases (p p' : Proc W) (r : result unit) :
  run (constructor p) p = (r, p') ->
  exists acts,
    actions p' = actions p ++ acts
    /\ Forall (own_files p) acts
    /\ ((r = Ok tt
         /\ exists settings there (warn : bool),
              acts = recording_actions p settings there
              /\ env p' = recording_env (env p) settings
              /\ console p'
                 = console p
                   ++ (if warn then [FfmpegNotFound] else [])
                   ++ [RecordingSaved (outputFile (constructor p) settings);
                       NextSteps (outputFile (constructor p) settings)]
                   ++ (if withAudio settings then [AudioNarration] else []))
        \/ (exists e, r = Throw e
            /\ exists warn : bool,
                 console p' = console p ++ (if warn then [FfmpegNotFound] else []))
        \/ (r = Halt (Exited 1)
            /\ acts = [Spawn "which" ["asciinema"] None]
            /\ console p' = console p ++ [AsciinemaNotFound]
            /\ env p' = env p)
        \/ (exists e, r = Halt (Crashed e)
            /\ Forall (fun a => exists cmd, a = Spawn "which" [cmd] None) acts
            /\ console p' = console p)).
Proof.
  unfold run. intros E.
  assert (Hwhich : forall l, Forall (fun a => exists cmd, a = Spawn "which" [cmd] None) l ->
                             Forall (own_files p) l).
  { intros l Hl. eapply Forall_impl; [exact Hl|]. intros a [cmd ->]. exact I. }
  apply TraceFacts.bind_cases in E as [([] & p1 & E1 & E)|[(e & E1 & ->)|(t & E1 & ->)]];
    apply checkPrerequisites_cases in E1
      as (C1 & D1 & K1 & V1 & a1 & A1 & F1 & [(R1 & -> & warn & L1)|[(R1 & -> & L1)|(e1 & R1 & L1)]]);
    try discriminate.
  2:{ injection R1 as ->. eexists. split; [exact A1|]. split; [apply Hwhich, F1|].
      right. right. left. auto. }
  2:{ injection R1 as ->. eexists. split; [exact A1|]. split; [apply Hwhich, F1|].
      right. right. right. eauto. }
  apply TraceFacts.bind_cases in E
    as [(settings & p2 & E2 & E)|[(e & E2 & ->)|(t & E2 & ->)]];
    apply getSettings_cases in E2 as (C2 & D2 & K2 & V2 & L2 & A2 & N2);
    [| |destruct (N2 t eq_refl)].
  2:{ eexists. split; [rewrite A2, A1, <- app_assoc; reflexivity|].
      split; [repeat constructor|]. right. left. exists e. split; [reflexivity|].
      exists warn. congruence. }
  assert (H2 : cwd p2 = cwd p /\ dirname p2 = dirname p /\ clock p2 = clock p
               /\ env p2 = env p) by (repeat split; congruence).
  destruct H2 as (C2' & D2' & K2' & V2').
  apply TraceFacts.bind_cases in E
    as [(path & p3 & E3 & E)|[(e & E3 & ->)|(t & E3 & ->)]];
    apply (prepareRecording_cases p p2 _ _ C2' D2' K2' V2') in E3
      as (C3 & D3 & K3 & V3 & L3 & N3 & there & done & rest & A3 & P3 & R3);
    [| |destruct (N3 t eq_refl)].
  2:{ exists ([Spawn "which" ["asciinema"] None; Spawn "which" ["ffmpeg"] None]
              ++ [Prompt ["basic"; "fullstack"; "enterprise"]] ++ done).
      split; [rewrite A3, A2, A1, <- !app_assoc; reflexivity|].
      split.
      - repeat (apply List.Forall_cons; [exact I|]). cbn [app].
        pose proof (own_files_prepare p there) as Hf. rewrite P3 in Hf.
        apply Forall_app in Hf as [Hf _]. exact Hf.
      - right. left. exists e. split; [reflexivity|]. exists warn. congruence. }
  rewrite (R3 (ex_intro _ path eq_refl)), app_nil_r in P3. subst done.
  apply startRecording_cases in E as (C4 & D4 & K4 & V4 & A4 & Hend).
  exists (recording_actions p settings there).
  split.
  { rewrite A4, A3, A2, A1, V3, V2'. unfold recording_actions.
    rewrite <- !app_assoc. reflexivity. }
  split.
  { unfold recording_actions. apply Forall_app. split; [repeat constructor|].
    apply Forall_app. split; [apply own_files_prepare|repeat constructor]. }
  destruct Hend as [(-> & L4)|((e & ->) & L4)].
  - left. split; [reflexivity|]. exists settings, there, warn.
    split; [reflexivity|]. split; [rewrite V4, V3, V2'; reflexivity|].
    rewrite L4, L3, L2, L1, <- !app_assoc. reflexivity.
  - right. left. exists e. split; [reflexivity|]. exists warn. congruence.
Qed.

(** From [run] to the end of the script. *)
Lemma script_of_run (p p1 : Proc W) (r : result unit) :
  run (constructor p) p = (r, p1) ->
  script p
  = match r with
    | Throw e =>
        (Halt (Exited 1),
         mkProc (cwd p1) (dirname p1) (clock p1) (env p1) (world p1) (actions p1)
                (console p1 ++ [RecordingFailed (message e)]))
    | _ => (r, p1)
    end.
Proof.
  intros E. unfold script. erewrite bind_step by apply gets_run.
  unfold try_catch. rewrite E. destruct r; reflexivity.
Qed.

(** Without [asciinema] the recorder stops at once: it has looked for the
    command and done nothing else, it prints that the command is missing
    and exits with code 1; the host has not been asked for [ffmpeg], the
    prompt has not been shown and no file has been touched. *)
Theorem missing_asciinema_stops (p : Proc W) (code : option Z) (w : W) :
  host_spawn "which" ["asciinema"] None (world p) = (Close code, w) ->
  code <> Some 0 ->
  script p
  = (Halt (Exited 1),
     mkProc (cwd p) (dirname p) (clock p) (env p) w
            (actions p ++ [Spawn "which" ["asciinema"] None])
            (console p ++ [AsciinemaNotFound])).
Proof.
  intros Hw Hc.
  assert (Er : run (constructor p) p
               = (Halt (Exited 1),
                  mkProc (cwd p) (dirname p) (clock p) (env p) w
                         (actions p ++ [Spawn "which" ["asciinema"] None])
                         (console p ++ [AsciinemaNotFound]))).
  { unfold run, checkPrerequisites.
    apply bind_Halt. erewrite bind_step by (rewrite commandExists_run, Hw; reflexivity).
    rewrite bool_decide_eq_false_2 by exact Hc. cbn [negb fst snd].
    rewrite when_true. reflexivity. }
  rewrite (script_of_run _ _ _ Er). reflexivity.
Qed.


(** Whatever happens, the recorder makes no directory but that of the
    recordings, and writes and changes no file but the demo script in it,
    with the text of the environment it was started in and the mode 755. *)
Theorem writes_only_the_script (p p' : Proc W) (r : result unit) :
  script p = (r, p') ->
  exists acts, actions p' = actions p ++ acts /\ Forall (own_files p) acts.
Proof.
  intros E. destruct (run (constructor p) p) as [r1 p1] eqn:Er.
  rewrite (script_of_run _ _ _ Er) in E.
  destruct (run_cases _ _ _ Er) as (acts & A & F & _).
  exists acts. split; [|exact F].
  destruct r1 as [[]|e|t]; injection E as <- <-; exact A.
Qed.

(** The script of the recorder ends in one of three ways: the recording is
    saved; or it exits with code 1, after printing that [asciinema] is
    missing or why the recording failed; or [which] itself could not be
    spawned, which nothing handles.  No rejection is left unhandled. *)
Theorem recorder_ends (p p' : Proc W) (r : result unit) :
  script p = (r, p') ->
  r = Ok tt
  \/ (r = Halt (Exited 1)
      /\ exists pre l, console p' = pre ++ [l]
           /\ (l = AsciinemaNotFound \/ exists msg, l = RecordingFailed msg))
  \/ (exists e acts,
        r = Halt (Crashed e)
        /\ actions p' = actions p ++ acts
        /\ Forall (fun a => exists cmd, a = Spawn "which" [cmd] None) acts).
Proof.
  intros E. destruct (run (constructor p) p) as [r1 p1] eqn:Er.
  rewrite (script_of_run _ _ _ Er) in E.
  destruct (run_cases _ _ _ Er)
    as (acts & A & F & [(-> & _)|[(e & -> & _)|[(-> & _ & L & _)|(e & -> & Fw & _)]]]);
    injection E as <- <-.
  - left. reflexivity.
  - right. left. split; [reflexivity|]. cbn [console]. eauto 6.
  - right. left. split; [reflexivity|]. eauto 6.
  - right. right. eauto 6.
Qed.

End Recorder.

(** In a studio without [asciinema] the recorder exits with 1 after one
    action. *)
Lemma missing_asciinema_stops_witness :
  script (studio_process [] bare)
  = (Halt (Exited 1),
     mkProc "/pkg" "/pkg/scripts" "2025-01-31T09:15:42.123Z" [] bare
            [Spawn "which" ["asciinema"] None] [AsciinemaNotFound]).
Proof.
  apply (missing_asciinema_stops (studio_process [] bare) (Some 1) bare).
  - reflexivity.
  - discriminate.
Defined.


(** A recording that [asciinema] ends with code 3: the script has been
    written all the same, and nothing else. *)
Lemma writes_only_the_script_witness :
  let p := studio_process [("DEMO_SCENARIO", "fullstack")] (ready (Some 3)) in
  exists acts,
    actions (script p).2 = actions p ++ acts /\ Forall (own_files p) acts.
Proof.
  cbn zeta.
  apply (writes_only_the_script
           (studio_process [("DEMO_SCENARIO", "fullstack")] (ready (Some 3)))
           _ (Halt (Exited 1))).
  vm_compute. reflexivity.
Defined.

(** The same recording ends with code 1, after a line that tells the exit
    code of [asciinema]. *)
Lemma recorder_ends_witness :
  let p := studio_process [("DEMO_SCENARIO", "fullstack")] (ready (Some 3)) in
  (script p).1 = Halt (Exited 1)
  /\ last (console (script p).2) = Some (RecordingFailed "Recording failed with code 3")
  /\ (@Halt unit (Exited 1) = Ok tt
      \/ (@Halt unit (Exited 1) = Halt (Exited 1)
          /\ exists pre l, console (script p).2 = pre ++ [l]
               /\ (l = AsciinemaNotFound \/ exists msg, l = RecordingFailed msg))
      \/ (exists e acts,
            @Halt unit (Exited 1) = Halt (Crashed e)
            /\ actions (script p).2 = actions p ++ acts
            /\ Forall (fun a => exists cmd, a = Spawn "which" [cmd] None) acts)).
Proof.
  cbn zeta. split; [vm_compute; reflexivity|]. split; [vm_compute; reflexivity|].
  apply (recorder_ends
           (studio_process [("DEMO_SCENARIO", "fullstack")] (ready (Some 3)))).
  vm_compute. reflexivity.
Defined.

End RecordFacts.
